(** * The leaderboard issue processor

    A shallow embedding of [.github/scripts/process_issue.py] and the
    properties its specification claims of it.

    Conventions of the embedding.
    - A Python [str] is a [string]: a sequence of code points below 256
      (Latin-1).  The character classes ([\s], [str.strip],
      [str.lower], [str.isprintable], the white space and the digits of
      [float] and [int]) are CPython's, on that range.
    - A Python [int] is a [Z].  The limit some interpreters put on the
      digits of an integer read from or written to text is not
      modelled.
    - A Python [float] is a binary64 number, see [Float]; [float(s)]
      rounds to nearest, ties to even, as CPython does.
    - A Python [dict] keeps its insertion order: it is an association
      list, written with [Dict.set] and read with [Dict.get].
    - What [json.load] returns and [json.dump] writes is a [value].
    - The backing file, standard output, exceptions and [sys.exit] are
      threaded through a state-and-exception monad, [M].  The file can
      always be read and written: input and output never fail.
    - The clock is an argument: [now] is the text that
      [datetime.utcnow().isoformat()] returns. *)

From Stdlib Require Import List ZArith Lia Ascii String Bool Permutation.
From Stdlib Require Import DecimalString DecimalZ DecimalPos DecimalFacts Sorted.
Import ListNotations.

Local Open Scope string_scope.
Local Open Scope Z_scope.

(* ================================================================== *)
(** * Strings *)
(* ================================================================== *)

Module Str.

Definition code (c : ascii) : N := N_of_ascii c.

(** [str.isspace] on one character, which is also the class [\s] of
    [re] on [str] patterns: U+0009..U+000D, U+001C..U+0020, U+0085,
    U+00A0. *)
Definition is_space (c : ascii) : bool :=
  let n := code c in
  ((9 <=? n) && (n <=? 13) || (28 <=? n) && (n <=? 32)
   || (n =? 133) || (n =? 160))%N.

(** [str.lower] on one character: A-Z, and U+00C0..U+00DE but for
    the multiplication sign U+00D7. *)
Definition lower_char (c : ascii) : ascii :=
  let n := code c in
  if ((65 <=? n) && (n <=? 90)
      || (192 <=? n) && (n <=? 222) && negb (n =? 215))%N
  then ascii_of_N (n + 32) else c.

Fixpoint lower (s : string) : string :=
  match s with
  | EmptyString => EmptyString
  | String c s' => String (lower_char c) (lower s')
  end.

(** [s.lstrip()] *)
Fixpoint lstrip (s : string) : string :=
  match s with
  | String c s' => if is_space c then lstrip s' else s
  | EmptyString => EmptyString
  end.

(** [s.rstrip()]: a character is dropped when it is white space and
    everything after it was dropped. *)
Fixpoint rstrip (s : string) : string :=
  match s with
  | EmptyString => EmptyString
  | String c s' =>
      match rstrip s' with
      | EmptyString => if is_space c then EmptyString else String c EmptyString
      | r => String c r
      end
  end.

(** [s.strip()] *)
Definition strip (s : string) : string := rstrip (lstrip s).

(** [s.replace(old, new)] for a one-character [old]. *)
Fixpoint replace (old : ascii) (new : string) (s : string) : string :=
  match s with
  | EmptyString => EmptyString
  | String c s' =>
      if Ascii.eqb c old then new ++ replace old new s'
      else String c (replace old new s')
  end.

(** The first [n] characters of [s]. *)
Fixpoint take (n : nat) (s : string) : string :=
  match n, s with
  | S n', String c s' => String c (take n' s')
  | _, _ => EmptyString
  end.

(** [c in s] *)
Fixpoint contains (c : ascii) (s : string) : bool :=
  match s with
  | EmptyString => false
  | String a s' => Ascii.eqb a c || contains c s'
  end.

Fixpoint map (f : ascii -> ascii) (s : string) : string :=
  match s with
  | EmptyString => EmptyString
  | String c s' => String (f c) (map f s')
  end.

(** [x in l] for a list of strings. *)
Definition mem (x : string) (l : list string) : bool :=
  existsb (String.eqb x) l.

End Str.

(** The line feed, [\n]. *)
Definition LF : ascii := ascii_of_N 10.
Definition nl : string := String LF EmptyString.

(* ================================================================== *)
(** * Regular expressions: the fragment of [re] the patterns use *)
(* ================================================================== *)

Module Re.

(** One-character classes. *)
Inductive cclass :=
| CAny                       (* [.] under re.DOTALL: any character *)
| CSpace                     (* [\s] *)
| CChar (c : ascii).         (* a literal character *)

Definition in_class (k : cclass) (c : ascii) : bool :=
  match k with
  | CAny => true
  | CSpace => Str.is_space c
  | CChar a => Ascii.eqb c a
  end.

Inductive regex :=
| Lit (s : string)           (* literal text *)
| Cls (k : cclass)           (* one character of a class *)
| Star (k : cclass)          (* [k*], greedy *)
| PlusLazy (k : cclass)      (* [k+?], lazy *)
| Group (r : regex)          (* [(r)], capturing group 1 *)
| Look (r : regex)           (* [(?=r)] *)
| Alt (r1 r2 : regex)        (* [r1|r2] *)
| Seq (r1 r2 : regex)        (* [r1 r2] *)
| Eol.                       (* [$] under re.MULTILINE *)

(** [$] under re.MULTILINE matches at the end of the text and before
    every line feed. *)
Definition at_eol (s : string) : bool :=
  match s with
  | EmptyString => true
  | String c _ => Ascii.eqb c LF
  end.

Fixpoint drop_prefix (p s : string) : option string :=
  match p, s with
  | EmptyString, _ => Some s
  | String a p', String c s' =>
      if Ascii.eqb a c then drop_prefix p' s' else None
  | String _ _, EmptyString => None
  end.

Section Backtracking.
Context {R : Type}.

(** Greedy repetition: the longest run first, then shorter ones. *)
Fixpoint star_greedy (p : ascii -> bool) (s : string)
         (k : string -> option R) : option R :=
  match s with
  | String c s' =>
      if p c then
        match star_greedy p s' k with
        | Some r => Some r
        | None => k s
        end
      else k s
  | EmptyString => k s
  end.

(** Lazy repetition, at least once: the shortest run first. *)
Fixpoint plus_lazy (p : ascii -> bool) (s : string)
         (k : string -> option R) : option R :=
  match s with
  | String c s' =>
      if p c then
        match k s' with
        | Some r => Some r
        | None => plus_lazy p s' k
        end
      else None
  | EmptyString => None
  end.
End Backtracking.

(** The backtracking matcher, in continuation-passing style.  [s] is
    the text from the current position on, [g] is group 1 so far, and
    [k] is what remains to be matched; alternatives are tried in the
    order [re] tries them and the first success is the answer. *)
Fixpoint rmatch (R : Type) (r : regex) (s : string) (g : option string)
         (k : string -> option string -> option R) {struct r} : option R :=
  match r with
  | Lit p =>
      match drop_prefix p s with
      | Some s' => k s' g
      | None => None
      end
  | Cls c =>
      match s with
      | String a s' => if in_class c a then k s' g else None
      | EmptyString => None
      end
  | Star c => star_greedy (in_class c) s (fun s' => k s' g)
  | PlusLazy c => plus_lazy (in_class c) s (fun s' => k s' g)
  | Group r1 =>
      rmatch R r1 s g
        (fun s' _ =>
           k s' (Some (Str.take (String.length s - String.length s') s)))
  | Look r1 =>
      match rmatch (option string) r1 s g (fun _ g' => Some g') with
      | Some g' => k s g'
      | None => None
      end
  | Alt r1 r2 =>
      match rmatch R r1 s g k with
      | Some x => Some x
      | None => rmatch R r2 s g k
      end
  | Seq r1 r2 => rmatch R r1 s g (fun s' g' => rmatch R r2 s' g' k)
  | Eol => if at_eol s then k s g else None
  end.

(** [re.match] at the current position: group 1 of the match. *)
Definition match_here (r : regex) (s : string) : option (option string) :=
  rmatch (option string) r s None (fun _ g => Some g).

(** [re.search(r, s)]: the match at the leftmost position that has
    one. *)
Fixpoint search (r : regex) (s : string) : option (option string) :=
  match match_here r s with
  | Some g => Some g
  | None =>
      match s with
      | String _ s' => search r s'
      | EmptyString => None
      end
  end.

End Re.

(* ================================================================== *)
(** * Python dictionaries *)
(* ================================================================== *)

Module Dict.

(** A [dict] with [str] keys, in insertion order. *)
Definition t (V : Type) : Type := list (string * V).

(** [d.get(k)] *)
Fixpoint get {V : Type} (d : t V) (k : string) : option V :=
  match d with
  | [] => None
  | (k', v) :: d' => if String.eqb k' k then Some v else get d' k
  end.

(** [d[k] = v]: an existing key keeps its place, a new one goes last. *)
Fixpoint set {V : Type} (d : t V) (k : string) (v : V) : t V :=
  match d with
  | [] => [(k, v)]
  | (k', v') :: d' =>
      if String.eqb k' k then (k', v) :: d' else (k', v') :: set d' k v
  end.

(** [d.get(k, default)] *)
Definition get_default {V : Type} (d : t V) (k : string) (default : V) : V :=
  match get d k with
  | Some v => v
  | None => default
  end.

Definition keys {V : Type} (d : t V) : list string := List.map fst d.

End Dict.

(* ================================================================== *)
(** * [parse_issue_body] *)
(* ================================================================== *)

Import Re.

(** [(?=\n###|\n\n###|$)]: the lookahead that ends a value. *)
Definition value_end : regex :=
  Look (Alt (Lit (nl ++ "###")) (Alt (Lit (nl ++ nl ++ "###")) Eol)).

(** [\s*\n\s*(.+?)(?=\n###|\n\n###|$)], compiled with
    [re.DOTALL | re.MULTILINE]: what follows the heading in each of the
    six patterns. *)
Definition after_heading : regex :=
  Seq (Star CSpace)
    (Seq (Cls (CChar LF))
       (Seq (Star CSpace)
          (Seq (Group (PlusLazy CAny)) value_end))).

Definition patterns : list (string * regex) :=
  [ ("student_name", Seq (Lit "### Student Name") after_heading);
    ("model_length", Seq (Lit "### Model Length") after_heading);
    ("accuracy", Seq (Lit "### Accuracy") after_heading);
    ("tensorboard_link", Seq (Lit "### TensorBoard Link") after_heading);
    ("improvement_description",
      Seq (Lit "### Improvement Description") after_heading);
    ("gpu_hours", Seq (Lit "### GPU Hours") after_heading) ].

(** The values the parser treats as no answer. *)
Definition no_answer : list string := ["n/a"; "_no response_"; "no response"].

(** No line feed in the text. *)
Definition one_line (s : string) : Prop := Str.contains LF s = false.

(** One turn of the loop over [patterns.items()].  A match of one of
    the six patterns always has its group 1. *)
Definition parse_field (body : string) (data : Dict.t string)
           (kp : string * regex) : Dict.t string :=
  let (key, pattern) := kp in
  match search pattern body with
  | Some (Some g) =>
      let value := Str.strip g in
      if negb (String.eqb value "")
         && negb (Str.mem (Str.lower value) no_answer)
      then Dict.set data key value
      else data
  | _ => data
  end.

Definition parse_issue_body (body : string) : Dict.t string :=
  fold_left (parse_field body) patterns [].

(* ================================================================== *)
(** * Python floats (IEEE 754 binary64) *)
(* ================================================================== *)

Module Float.

(** Every finite binary64 number is an integer multiple of 2^-1074, the
    smallest subnormal: [Fin k] is the number [k * 2^-1074], for
    [|k| < 2^2098].  The two zeros compare equal and nothing in the
    program tells them apart, so both are [Fin 0]. *)
Inductive t :=
| Fin (k : Z)
| PInf
| NInf
| NaN.

Definition emin : Z := 1074.
Definition overflow : Z := 2 ^ 2098.     (* 2^1024, in units of 2^-1074 *)

(** A Python [int] small enough to be exact as a float. *)
Definition of_Z (z : Z) : t := Fin (z * 2 ^ emin).

Definition neg (x : t) : t :=
  match x with
  | Fin k => Fin (- k)
  | PInf => NInf
  | NInf => PInf
  | NaN => NaN
  end.

(** [floor (log2 (p / q))] for positive [p] and [q]. *)
Definition log2_quot (p q : Z) : Z :=
  let d := Z.log2 p - Z.log2 q in
  if 0 <=? d
  then (if q * 2 ^ d <=? p then d else d - 1)
  else (if q <=? p * 2 ^ (- d) then d else d - 1).

(** Round to nearest, ties to even, of [num / den] to an integer. *)
Definition round_half_even (num den : Z) : Z :=
  let m := num / den in
  let r := num mod den in
  if 2 * r <? den then m
  else if den <? 2 * r then m + 1
  else if Z.even m then m else m + 1.

(** The binary64 number nearest to [p / q], for positive [p] and [q]:
    53 significant bits, or fewer below 2^-1022. *)
Definition round_pos (p q : Z) : t :=
  let ex := Z.max (log2_quot p q - 52) (- emin) in
  let m :=
    if 0 <=? ex then round_half_even p (q * 2 ^ ex)
    else round_half_even (p * 2 ^ (- ex)) q in
  let k := m * 2 ^ (ex + emin) in
  if overflow <=? k then PInf else Fin k.

(** The binary64 number nearest to [p / q], for [q > 0]. *)
Definition round (p q : Z) : t :=
  match p with
  | Z0 => Fin 0
  | Zpos _ => round_pos p q
  | Zneg _ => neg (round_pos (- p) q)
  end.

(** [x / n] for a positive [int] [n] that is exact as a float. *)
Definition div_int (x : t) (n : Z) : t :=
  match x with
  | Fin k => round k (n * 2 ^ emin)
  | _ => x
  end.

(** [x < y] *)
Definition ltb (x y : t) : bool :=
  match x, y with
  | NaN, _ | _, NaN => false
  | Fin a, Fin b => a <? b
  | Fin _, PInf => true
  | NInf, Fin _ => true
  | NInf, PInf => true
  | _, _ => false
  end.

(** [x > y] *)
Definition gtb (x y : t) : bool := ltb y x.

(** [x == y] *)
Definition eqb (x y : t) : bool :=
  match x, y with
  | Fin a, Fin b => a =? b
  | PInf, PInf => true
  | NInf, NInf => true
  | _, _ => false
  end.

(** [x <= y] *)
Definition leb (x y : t) : bool := ltb x y || eqb x y.

Definition is_nan (x : t) : bool :=
  match x with
  | NaN => true
  | _ => false
  end.

End Float.

(* ================================================================== *)
(** * [float(s)] and [int(s)] on strings *)
(* ================================================================== *)

Module Num.

Definition is_digit (c : ascii) : bool :=
  let n := Str.code c in ((48 <=? n) && (n <=? 57))%N.

Definition digit_val (c : ascii) : Z := Z.of_N (Str.code c) - 48.

(** The white space of C's [isspace] in the C locale: what [float] and
    [int] strip once the text is ASCII. *)
Definition is_c_space (c : ascii) : bool :=
  let n := Str.code c in ((9 <=? n) && (n <=? 13) || (n =? 32))%N.

(** CPython first rewrites the text to ASCII: a code point from 127 on
    becomes a blank when it is white space and otherwise (no Latin-1
    character above 126 is a decimal digit) a question mark, which no
    number contains. *)
Definition to_ascii (c : ascii) : ascii :=
  if (Str.code c <? 127)%N then c
  else if Str.is_space c then " "%char else "?"%char.

Fixpoint lstrip_c (s : string) : string :=
  match s with
  | String c s' => if is_c_space c then lstrip_c s' else s
  | EmptyString => EmptyString
  end.

Fixpoint rstrip_c (s : string) : string :=
  match s with
  | EmptyString => EmptyString
  | String c s' =>
      match rstrip_c s' with
      | EmptyString => if is_c_space c then EmptyString else String c EmptyString
      | r => String c r
      end
  end.

Definition strip_c (s : string) : string := rstrip_c (lstrip_c s).

(** Underscores are digit separators: each stands between two digits.
    [prev] is the character before [s]. *)
Fixpoint underscores_ok (prev : ascii) (s : string) : bool :=
  match s with
  | EmptyString => negb (Ascii.eqb prev "_")
  | String c s' =>
      (if Ascii.eqb c "_" then is_digit prev
       else negb (Ascii.eqb prev "_") || is_digit c)
      && underscores_ok c s'
  end.

(** The text without its separators, when they are well placed. *)
Definition drop_underscores (s : string) : option string :=
  if underscores_ok "000"%char s then Some (Str.replace "_" "" s) else None.

(** The longest prefix of digits, as a number and a digit count, and
    what follows it. *)
Fixpoint digits (acc : Z) (n : Z) (s : string) : Z * Z * string :=
  match s with
  | String c s' =>
      if is_digit c then digits (10 * acc + digit_val c) (n + 1) s'
      else (acc, n, s)
  | EmptyString => (acc, n, s)
  end.

(** An optional sign: [true] for a minus. *)
Definition sign (s : string) : bool * string :=
  match s with
  | String "-" s' => (true, s')
  | String "+" s' => (false, s')
  | _ => (false, s)
  end.

(** The exponent part [[eE][+-]?digits] when it ends the text. *)
Definition exponent (s : string) : option Z :=
  match s with
  | EmptyString => Some 0
  | String c s' =>
      if Ascii.eqb (Str.lower_char c) "e" then
        let (minus, s1) := sign s' in
        match digits 0 0 s1 with
        | (e, n, EmptyString) =>
            if 0 <? n then Some (if minus then - e else e) else None
        | _ => None
        end
      else None
  end.

(** A decimal literal [digits [. digits] [exponent]] with a digit
    before or after the point, taking up the whole text: the mantissa
    as an integer and the power of ten that scales it. *)
Definition decimal (s : string) : option (Z * Z) :=
  let '(ip, n1, s1) := digits 0 0 s in
  let '(m, n2, s2) :=
    match s1 with
    | String "." s1' => digits ip 0 s1'
    | _ => (ip, 0, s1)
    end in
  if 0 <? n1 + n2 then
    match exponent s2 with
    | Some e => Some (m, e - n2)
    | None => None
    end
  else None.

(** The float nearest to [m * 10^e], for [m >= 0]. *)
Definition of_decimal (m e : Z) : Float.t :=
  if 0 <=? e then Float.round (m * 10 ^ e) 1
  else Float.round m (10 ^ (- e)).

(** [float(s)]; [None] stands for [ValueError]. *)
Definition py_float (s : string) : option Float.t :=
  match drop_underscores (strip_c (Str.map to_ascii s)) with
  | None => None
  | Some s0 =>
      let (minus, s1) := sign s0 in
      let apply_sign x := if minus then Float.neg x else x in
      let w := Str.lower s1 in
      if String.eqb w "inf" || String.eqb w "infinity"
      then Some (apply_sign Float.PInf)
      else if String.eqb w "nan" then Some Float.NaN
      else
        match decimal s1 with
        | Some (m, e) => Some (apply_sign (of_decimal m e))
        | None => None
        end
  end.

(** [int(s)]; [None] stands for [ValueError]. *)
Definition py_int (s : string) : option Z :=
  match drop_underscores (strip_c (Str.map to_ascii s)) with
  | None => None
  | Some s0 =>
      let (minus, s1) := sign s0 in
      match digits 0 0 s1 with
      | (z, n, EmptyString) =>
          if 0 <? n then Some (if minus then - z else z) else None
      | _ => None
      end
  end.

End Num.

(* ================================================================== *)
(** * Python values *)
(* ================================================================== *)

(** What [json.load] builds and [json.dump] writes: [None], booleans,
    integers, strings, lists, and dictionaries with string keys.  The
    program stores no float, and the model has none: a document with a
    number that is not an integer is outside it. *)
#[warnings="-register-all"]
Inductive value :=
| VNone
| VBool (b : bool)
| VInt (z : Z)
| VStr (s : string)
| VList (l : list value)
| VDict (d : list (string * value)).

Module Py.

(** [repr] of an [int]. *)
Definition repr_int (z : Z) : string :=
  NilEmpty.string_of_int (Z.to_int z).

Definition hex_digit (n : N) : ascii :=
  if (n <? 10)%N then ascii_of_N (48 + n) else ascii_of_N (87 + n).

(** Two lower-case hexadecimal digits. *)
Definition hex2 (c : ascii) : string :=
  let n := Str.code c in
  String (hex_digit (n / 16)) (String (hex_digit (n mod 16)) EmptyString).

(** [str.isprintable] on one character. *)
Definition is_printable (c : ascii) : bool :=
  let n := Str.code c in
  ((32 <=? n) && (n <=? 126) || (161 <=? n) && negb (n =? 173))%N.

Fixpoint repr_chars (quote : ascii) (s : string) : string :=
  match s with
  | EmptyString => EmptyString
  | String c s' =>
      (if Ascii.eqb c quote || Ascii.eqb c "\"
       then String "\" (String c EmptyString)
       else if Ascii.eqb c "009" then "\t"
       else if Ascii.eqb c "010" then "\n"
       else if Ascii.eqb c "013" then "\r"
       else if is_printable c then String c EmptyString
       else "\x" ++ hex2 c)
      ++ repr_chars quote s'
  end.

(** [repr] of a [str]: single quotes, unless the text has single quotes
    and no double quote. *)
Definition repr_str (s : string) : string :=
  let quote : ascii :=
    if Str.contains "'" s && negb (Str.contains "034" s)
    then "034"%char else "'"%char in
  String quote (repr_chars quote s ++ String quote EmptyString).

(** [sep.join(l)] *)
Fixpoint join (sep : string) (l : list string) : string :=
  match l with
  | [] => EmptyString
  | [x] => x
  | x :: l' => x ++ sep ++ join sep l'
  end.

Fixpoint repr (v : value) : string :=
  match v with
  | VNone => "None"
  | VBool true => "True"
  | VBool false => "False"
  | VInt z => repr_int z
  | VStr s => repr_str s
  | VList l => "[" ++ join ", " (List.map repr l) ++ "]"
  | VDict d =>
      "{" ++ join ", "
               (List.map (fun kv => repr_str (fst kv) ++ ": " ++ repr (snd kv)) d)
          ++ "}"
  end.

(** [str(v)] *)
Definition str (v : value) : string :=
  match v with
  | VStr s => s
  | _ => repr v
  end.

(** [v == n] for an [int] [n]: a [bool] is the integer 0 or 1. *)
Definition eq_int (v : value) (n : Z) : bool :=
  match v with
  | VInt z => z =? n
  | VBool b => (if b then 1 else 0) =? n
  | _ => false
  end.

(** [v == s] for a [str] [s]. *)
Definition eq_str (v : value) (s : string) : bool :=
  match v with
  | VStr s' => String.eqb s' s
  | _ => false
  end.

End Py.

(* ================================================================== *)
(** * JSON: [json.dump(_, indent=2)] and [json.load] *)
(* ================================================================== *)

Module Json.

(** ** Writing *)

(** [ensure_ascii]: a quote, a backslash and whatever is outside the
    printable ASCII range are escaped. *)
Definition escape_char (c : ascii) : string :=
  let n := Str.code c in
  if (n =? 34)%N then String "\" (String "034" EmptyString)
  else if (n =? 92)%N then "\\"
  else if (n =? 10)%N then "\n"
  else if (n =? 13)%N then "\r"
  else if (n =? 9)%N then "\t"
  else if (n =? 8)%N then "\b"
  else if (n =? 12)%N then "\f"
  else if ((32 <=? n) && (n <=? 126))%N then String c EmptyString
  else "\u00" ++ Py.hex2 c.

Fixpoint escape (s : string) : string :=
  match s with
  | EmptyString => EmptyString
  | String c s' => escape_char c ++ escape s'
  end.

Definition encode_str (s : string) : string :=
  String "034" (escape s ++ String "034" EmptyString).

Fixpoint spaces (n : nat) : string :=
  match n with
  | O => EmptyString
  | S n' => "  " ++ spaces n'
  end.

(** A line feed and the indentation of a nesting level. *)
Definition newline_indent (level : nat) : string := nl ++ spaces level.

(** [sep.join(l)] followed by [close]. *)
Fixpoint items (sep close : string) (l : list string) : string :=
  match l with
  | [] => close
  | [x] => x ++ close
  | x :: l' => x ++ sep ++ items sep close l'
  end.

Fixpoint encode (level : nat) (v : value) : string :=
  match v with
  | VNone => "null"
  | VBool true => "true"
  | VBool false => "false"
  | VInt z => Py.repr_int z
  | VStr s => encode_str s
  | VList [] => "[]"
  | VList l =>
      "[" ++ newline_indent (S level)
      ++ items ("," ++ newline_indent (S level)) (newline_indent level ++ "]")
           (List.map (encode (S level)) l)
  | VDict [] => "{}"
  | VDict d =>
      "{" ++ newline_indent (S level)
      ++ items ("," ++ newline_indent (S level)) (newline_indent level ++ "}")
           (List.map
              (fun kv => encode_str (fst kv) ++ ": " ++ encode (S level) (snd kv))
              d)
  end.

(** [json.dumps(v, indent=2)] *)
Definition dumps (v : value) : string := encode 0 v.

(** ** Reading *)

Definition is_ws (c : ascii) : bool :=
  let n := Str.code c in ((n =? 32) || (n =? 9) || (n =? 10) || (n =? 13))%N.

Fixpoint skip_ws (s : string) : string :=
  match s with
  | String c s' => if is_ws c then skip_ws s' else s
  | EmptyString => EmptyString
  end.

Definition hex_val (c : ascii) : option N :=
  let n := Str.code c in
  if ((48 <=? n) && (n <=? 57))%N then Some (n - 48)%N
  else if ((97 <=? n) && (n <=? 102))%N then Some (n - 87)%N
  else if ((65 <=? n) && (n <=? 70))%N then Some (n - 55)%N
  else None.

(** The code point of [\uXXXX], when it is below 256. *)
Definition unicode_escape (a b c d : ascii) : option ascii :=
  match hex_val a, hex_val b, hex_val c, hex_val d with
  | Some x, Some y, Some z, Some w =>
      let n := (((x * 16 + y) * 16 + z) * 16 + w)%N in
      if (n <? 256)%N then Some (ascii_of_N n) else None
  | _, _, _, _ => None
  end.

(** The text of a string after its opening quote, and what follows the
    closing quote. *)
Fixpoint scanstring (s : string) : option (string * string) :=
  match s with
  | EmptyString => None
  | String "034" rest => Some (EmptyString, rest)
  | String "\" (String "u" (String a (String b (String c (String d rest))))) =>
      match unicode_escape a b c d, scanstring rest with
      | Some x, Some (t, r) => Some (String x t, r)
      | _, _ => None
      end
  | String "\" (String e rest) =>
      let unescaped : option ascii :=
        match e with
        | "034" => Some "034"
        | "\" => Some "\"
        | "/" => Some "/"
        | "b" => Some "008"
        | "f" => Some "012"
        | "n" => Some "010"
        | "r" => Some "013"
        | "t" => Some "009"
        | _ => None
        end%char in
      match unescaped, scanstring rest with
      | Some x, Some (t, r) => Some (String x t, r)
      | _, _ => None
      end
  | String "\" EmptyString => None
  | String c rest =>
      if (Str.code c <? 32)%N then None
      else
        match scanstring rest with
        | Some (t, r) => Some (String c t, r)
        | None => None
        end
  end.

Definition starts_with_digit (s : string) : bool :=
  match s with
  | String c _ => Num.is_digit c
  | EmptyString => false
  end.

(** What follows the integer digits makes the number a float: a point
    and a digit, or an exponent with a digit. *)
Definition float_follows (s : string) : bool :=
  match s with
  | String "." s' => starts_with_digit s'
  | String c s' =>
      if Ascii.eqb (Str.lower_char c) "e" then
        match s' with
        | String "+" s'' | String "-" s'' => starts_with_digit s''
        | _ => starts_with_digit s'
        end
      else false
  | EmptyString => false
  end.

(** The digits of an integer: a single [0], or a digit from 1 to 9 and
    the digits after it. *)
Definition scan_digits (s : string) : option (Z * string) :=
  match s with
  | String "0" s' => Some (0, s')
  | String c _ =>
      if Num.is_digit c then
        let '(z, _, r) := Num.digits 0 0 s in Some (z, r)
      else None
  | EmptyString => None
  end.

(** An integer; a float is outside the model. *)
Definition scan_number (s : string) : option (Z * string) :=
  let (minus, s1) :=
    match s with
    | String "-" s' => (true, s')
    | _ => (false, s)
    end in
  match scan_digits s1 with
  | Some (z, r) =>
      if float_follows r then None
      else Some (if minus then - z else z, r)
  | None => None
  end.

(** [dict] of the pairs of an object, in the order read: a key read
    again keeps its place and takes the later value. *)
Definition dict_of_pairs (l : list (string * value)) : list (string * value) :=
  fold_left (fun d kv => Dict.set d (fst kv) (snd kv)) l [].

(** The scanner.  [fuel] bounds the calls: a call on a text of [n]
    characters needs no more than [n] of them. *)
Fixpoint scan_value (fuel : nat) (s : string) : option (value * string) :=
  match fuel with
  | O => None
  | S fuel' =>
      match s with
      | String "034" s1 =>
          match scanstring s1 with
          | Some (t, r) => Some (VStr t, r)
          | None => None
          end
      | String "{" s1 =>
          match skip_ws s1 with
          | String "}" r => Some (VDict [], r)
          | s2 =>
              match scan_members fuel' s2 with
              | Some (l, r) => Some (VDict (dict_of_pairs l), r)
              | None => None
              end
          end
      | String "[" s1 =>
          match skip_ws s1 with
          | String "]" r => Some (VList [], r)
          | s2 =>
              match scan_elements fuel' s2 with
              | Some (l, r) => Some (VList l, r)
              | None => None
              end
          end
      | _ =>
          match Re.drop_prefix "null" s, Re.drop_prefix "true" s,
                Re.drop_prefix "false" s with
          | Some r, _, _ => Some (VNone, r)
          | _, Some r, _ => Some (VBool true, r)
          | _, _, Some r => Some (VBool false, r)
          | None, None, None =>
              match scan_number s with
              | Some (z, r) => Some (VInt z, r)
              | None => None
              end
          end
      end
  end

(** The elements of an array from the first character of an element
    on, up to and with the closing bracket. *)
with scan_elements (fuel : nat) (s : string) : option (list value * string) :=
  match fuel with
  | O => None
  | S fuel' =>
      match scan_value fuel' s with
      | Some (v, s1) =>
          match skip_ws s1 with
          | String "]" r => Some ([v], r)
          | String "," s2 =>
              match scan_elements fuel' (skip_ws s2) with
              | Some (l, r) => Some (v :: l, r)
              | None => None
              end
          | _ => None
          end
      | None => None
      end
  end

(** The members of an object from the opening quote of a key on, up to
    and with the closing brace. *)
with scan_members (fuel : nat) (s : string)
     : option (list (string * value) * string) :=
  match fuel with
  | O => None
  | S fuel' =>
      match s with
      | String "034" s1 =>
          match scanstring s1 with
          | Some (key, s2) =>
              match skip_ws s2 with
              | String ":" s3 =>
                  match scan_value fuel' (skip_ws s3) with
                  | Some (v, s4) =>
                      match skip_ws s4 with
                      | String "}" r => Some ([(key, v)], r)
                      | String "," s5 =>
                          match scan_members fuel' (skip_ws s5) with
                          | Some (l, r) => Some ((key, v) :: l, r)
                          | None => None
                          end
                      | _ => None
                      end
                  | None => None
                  end
              | _ => None
              end
          | None => None
          end
      | _ => None
      end
  end.

(** [json.loads(s)]: one value, with white space around it and nothing
    else.  [None] stands for [JSONDecodeError]. *)
Definition loads (s : string) : option value :=
  match scan_value (S (String.length s)) (skip_ws s) with
  | Some (v, r) =>
      match skip_ws r with
      | EmptyString => Some v
      | _ => None
      end
  | None => None
  end.

(** ** The vocabulary of the round trip *)

(** The number a run of decimal digits stands for, after [acc]. *)
Fixpoint uint_value (acc : Z) (d : Decimal.uint) : Z :=
  match d with
  | Decimal.Nil => acc
  | Decimal.D0 d' => uint_value (10 * acc + 0) d'
  | Decimal.D1 d' => uint_value (10 * acc + 1) d'
  | Decimal.D2 d' => uint_value (10 * acc + 2) d'
  | Decimal.D3 d' => uint_value (10 * acc + 3) d'
  | Decimal.D4 d' => uint_value (10 * acc + 4) d'
  | Decimal.D5 d' => uint_value (10 * acc + 5) d'
  | Decimal.D6 d' => uint_value (10 * acc + 6) d'
  | Decimal.D7 d' => uint_value (10 * acc + 7) d'
  | Decimal.D8 d' => uint_value (10 * acc + 8) d'
  | Decimal.D9 d' => uint_value (10 * acc + 9) d'
  end.

(** What may follow a value in a document [encode] writes: nothing, a
    comma, or a line feed. *)
Definition ends_value (rest : string) : Prop :=
  match rest with
  | EmptyString => True
  | String c _ => c = ","%char \/ c = LF
  end.

(** The calls [scan_value] makes on what [encode] wrote. *)
Fixpoint size (v : value) : nat :=
  match v with
  | VList l => S (fold_right (fun x n => S (size x + n)) O l)
  | VDict d => S (fold_right (fun kv n => S (size (snd kv) + n)) O d)
  | _ => 1
  end.

(** The first character of a value: no white space, no closing
    bracket or brace. *)
Definition starts_value (s : string) : Prop :=
  match s with
  | String c _ => is_ws c = false /\ c <> "]"%char /\ c <> "}"%char
  | EmptyString => False
  end.

(** A member of an object as [encode] writes it. *)
Definition member (level : nat) (kv : string * value) : string :=
  encode_str (fst kv) ++ ": " ++ encode (S level) (snd kv).

End Json.

(* ================================================================== *)
(** * Effects: the backing file, standard output, exceptions *)
(* ================================================================== *)

Inductive exn :=
| KeyError
| TypeError
| AttributeError
| ValueError
| JSONDecodeError
| SystemExit (code : Z).

(** The world of one run: the contents of [docs/leaderboard.json] when
    the file exists, how many times the file was written, and the lines
    printed so far.  The directory is taken to exist and to be
    writable. *)
Record world := World {
  file : option string;
  writes : nat;
  stdout : list string
}.

Inductive outcome (A : Type) :=
| Return (a : A)
| Raise (e : exn).
Arguments Return {A} a.
Arguments Raise {A} e.

Definition M (A : Type) : Type := world -> outcome A * world.

Definition ret {A : Type} (a : A) : M A := fun w => (Return a, w).

Definition raise {A : Type} (e : exn) : M A := fun w => (Raise e, w).

Definition bind {A B : Type} (m : M A) (f : A -> M B) : M B :=
  fun w =>
    match m w with
    | (Return a, w') => f a w'
    | (Raise e, w') => (Raise e, w')
    end.

Declare Scope monad_scope.
Delimit Scope monad_scope with monad.
Notation "x <- m ;; k" := (bind m (fun x => k))
  (at level 61, m at next level, right associativity) : monad_scope.
Notation "m ;; k" := (bind m (fun _ => k))
  (at level 61, right associativity) : monad_scope.
Local Open Scope monad_scope.

(** [print(line)] *)
Definition print (line : string) : M unit :=
  fun w => (Return tt, World (file w) (writes w) (stdout w ++ [line])).

(** [os.path.exists(filepath)] *)
Definition path_exists : M bool :=
  fun w => (Return (match file w with Some _ => true | None => false end), w).

(** [f.read()] on the file opened for reading. *)
Definition read_file : M string :=
  fun w => (Return (match file w with Some s => s | None => EmptyString end), w).

(** The file opened with mode ['w'] and written in full. *)
Definition write_file (s : string) : M unit :=
  fun w => (Return tt, World (Some s) (S (writes w)) (stdout w)).

(** An [option] whose [None] raises [e]. *)
Definition or_raise {A : Type} (e : exn) (o : option A) : M A :=
  match o with
  | Some a => ret a
  | None => raise e
  end.

(** [for x in l: ...] collecting the results, left to right. *)
Fixpoint mapM {A B : Type} (f : A -> M B) (l : list A) : M (list B) :=
  match l with
  | [] => ret []
  | x :: l' => y <- f x ;; ys <- mapM f l' ;; ret (y :: ys)
  end.

(* ================================================================== *)
(** * Operations on values, as the program uses them *)
(* ================================================================== *)

Module Op.

(** [v[k]] for a [str] key. *)
Definition getitem (v : value) (k : string) : M value :=
  match v with
  | VDict d => or_raise KeyError (Dict.get d k)
  | _ => raise TypeError
  end.

(** [v.get(k, default)] *)
Definition get (v : value) (k : string) (default : value) : M value :=
  match v with
  | VDict d => ret (Dict.get_default d k default)
  | _ => raise AttributeError
  end.

(** [v[k] = x] for a [str] key. *)
Definition setitem (v : value) (k : string) (x : value) : M value :=
  match v with
  | VDict d => ret (VDict (Dict.set d k x))
  | _ => raise TypeError
  end.

Fixpoint chars (s : string) : list value :=
  match s with
  | EmptyString => []
  | String c s' => VStr (String c EmptyString) :: chars s'
  end.

(** What [for x in v] goes through: the elements of a list, the
    characters of a string, the keys of a dictionary. *)
Definition iter (v : value) : M (list value) :=
  match v with
  | VList l => ret l
  | VStr s => ret (chars s)
  | VDict d => ret (List.map VStr (Dict.keys d))
  | _ => raise TypeError
  end.

(** [len(v)] *)
Definition len (v : value) : M nat :=
  match v with
  | VList l => ret (List.length l)
  | VStr s => ret (String.length s)
  | VDict d => ret (List.length d)
  | _ => raise TypeError
  end.

(** [v.append(x)] *)
Definition append (v : value) (x : value) : M value :=
  match v with
  | VList l => ret (VList (l ++ [x]))
  | _ => raise AttributeError
  end.

(** [l[i] = x] within range. *)
Fixpoint list_set (l : list value) (i : nat) (x : value) : list value :=
  match l, i with
  | [], _ => []
  | _ :: l', O => x :: l'
  | y :: l', S i' => y :: list_set l' i' x
  end.

End Op.

(* ================================================================== *)
(** * The program *)
(* ================================================================== *)

(** ** [load_leaderboard] and [save_leaderboard] *)

Definition empty_leaderboard : value := VDict [("submissions", VList [])].

Definition load_leaderboard : M value :=
  e <- path_exists ;;
  if e then
    s <- read_file ;;
    or_raise JSONDecodeError (Json.loads s)
  else ret empty_leaderboard.

Definition save_leaderboard (data : value) : M unit :=
  write_file (Json.dumps data).

(** ** [get_accuracy_value], the sort key *)

(** The key is a Python number: the [int] -1 or a float.  They compare
    by value, and -1 is exact as a float. *)
Definition minus_one : Float.t := Float.of_Z (-1).

Definition get_accuracy_value (sub : value) : M Float.t :=
  acc <- Op.get sub "accuracy" (VStr "N/A") ;;
  if Py.eq_str acc "N/A" then ret minus_one
  else
    let acc_str := Str.replace "%" "" (Str.strip (Py.str acc)) in
    match Num.py_float acc_str with
    | Some val =>
        if Float.gtb val (Float.of_Z 1) then ret (Float.div_int val 100)
        else ret val
    | None => ret minus_one
    end.

(** ** [list.sort(key=..., reverse=True)] *)

(** [list.sort] compares keys with [<] alone and is stable; with
    [reverse=True] the order is descending and equal keys still keep
    their order.  Where [<] orders the keys (no NaN among them) there is
    one such arrangement of the list, whatever the algorithm: the
    insertion sort below computes it.  With a NaN among the keys the
    list CPython returns is a matter of its algorithm; on the
    collections of the examples below it returns them as they are, and
    so does the insertion sort. *)
Fixpoint insert_desc {A : Type} (x : Float.t * A) (l : list (Float.t * A))
  : list (Float.t * A) :=
  match l with
  | [] => [x]
  | y :: l' =>
      if Float.ltb (fst x) (fst y) then y :: insert_desc x l' else x :: l
  end.

Definition sort_desc {A : Type} (l : list (Float.t * A)) : list (Float.t * A) :=
  fold_right insert_desc [] l.

(** The keys are computed first, one call per element, then the list is
    put in order. *)
Definition sort_by_accuracy (v : value) : M value :=
  match v with
  | VList l =>
      keys <- mapM get_accuracy_value l ;;
      ret (VList (List.map snd (sort_desc (combine keys l))))
  | _ => raise AttributeError
  end.

(** ** [update_leaderboard] *)

(** The loop that looks for the issue: the index of the first entry
    whose [issue_number] equals the argument. *)
Fixpoint find_existing (issue_number : Z) (i : nat) (l : list value)
  : M (option nat) :=
  match l with
  | [] => ret None
  | sub :: l' =>
      n <- Op.getitem sub "issue_number" ;;
      if Py.eq_int n issue_number then ret (Some i)
      else find_existing issue_number (S i) l'
  end.

(** The new entry; [submitted_at] is what
    [datetime.utcnow().isoformat()] returned. *)
Definition new_submission (now : string) (issue_number : Z)
           (issue_author issue_url : string) (submission_data : Dict.t string)
  : list (string * value) :=
  [ ("issue_number", VInt issue_number);
    ("student_name",
      VStr (Dict.get_default submission_data "student_name" issue_author));
    ("model_length", VStr (Dict.get_default submission_data "model_length" "N/A"));
    ("accuracy", VStr (Dict.get_default submission_data "accuracy" "N/A"));
    ("tensorboard_link",
      VStr (Dict.get_default submission_data "tensorboard_link" ""));
    ("improvement_description",
      VStr (Dict.get_default submission_data "improvement_description" ""));
    ("gpu_hours", VStr (Dict.get_default submission_data "gpu_hours" "N/A"));
    ("issue_url", VStr issue_url);
    ("submitted_at", VStr now);
    ("verified", VBool false) ].

(** The branch that replaces entry [i], with the flag of the entry it
    replaces.  The loop found an entry with an [issue_number], so the
    collection is a list: the other case is never reached. *)
Definition replace_existing (subs : value) (i : nat)
           (submission : list (string * value)) : M value :=
  match subs with
  | VList l =>
      verified <- Op.get (nth i l VNone) "verified" (VBool false) ;;
      ret (VList (Op.list_set l i (VDict (Dict.set submission "verified" verified))))
  | _ => raise TypeError
  end.

Definition update_leaderboard (now : string) (issue_number : Z)
           (issue_title issue_author issue_body issue_url : string) : M bool :=
  leaderboard <- load_leaderboard ;;
  let submission_data := parse_issue_body issue_body in
  subs <- Op.getitem leaderboard "submissions" ;;
  elems <- Op.iter subs ;;
  existing_index <- find_existing issue_number 0 elems ;;
  let submission :=
    new_submission now issue_number issue_author issue_url submission_data in
  subs' <- match existing_index with
           | Some i => replace_existing subs i submission
           | None => Op.append subs (VDict submission)
           end ;;
  sorted <- sort_by_accuracy subs' ;;
  leaderboard' <- Op.setitem leaderboard "submissions" sorted ;;
  save_leaderboard leaderboard' ;;
  print ("Updated leaderboard with issue #" ++ Py.repr_int issue_number) ;;
  ret true.

(** ** [mark_verified] *)

(** The loop of [mark_verified]: the list with the flag set on the first
    entry of the issue, or [None] when the loop ends without one. *)
Fixpoint verify_first (issue_number : Z) (l : list value)
  : M (option (list value)) :=
  match l with
  | [] => ret None
  | sub :: l' =>
      n <- Op.getitem sub "issue_number" ;;
      if Py.eq_int n issue_number then
        sub' <- Op.setitem sub "verified" (VBool true) ;;
        ret (Some (sub' :: l'))
      else
        r <- verify_first issue_number l' ;;
        ret (option_map (cons sub) r)
  end.

Definition not_found (issue_number : Z) : string :=
  "Issue #" ++ Py.repr_int issue_number ++ " not found in leaderboard".

Definition mark_verified (issue_number : Z) : M bool :=
  leaderboard <- load_leaderboard ;;
  subs <- Op.getitem leaderboard "submissions" ;;
  elems <- Op.iter subs ;;
  r <- verify_first issue_number elems ;;
  match r with
  | Some elems' =>
      leaderboard' <- Op.setitem leaderboard "submissions" (VList elems') ;;
      save_leaderboard leaderboard' ;;
      print ("Marked issue #" ++ Py.repr_int issue_number ++ " as verified") ;;
      ret true
  | None =>
      print (not_found issue_number) ;;
      ret false
  end.

(** ** [remove_submission] *)

(** The list comprehension: the entries of the other issues. *)
Fixpoint others (issue_number : Z) (l : list value) : M (list value) :=
  match l with
  | [] => ret []
  | sub :: l' =>
      n <- Op.getitem sub "issue_number" ;;
      rest <- others issue_number l' ;;
      ret (if negb (Py.eq_int n issue_number) then sub :: rest else rest)
  end.

Definition remove_submission (issue_number : Z) : M bool :=
  leaderboard <- load_leaderboard ;;
  subs <- Op.getitem leaderboard "submissions" ;;
  initial_count <- Op.len subs ;;
  elems <- Op.iter subs ;;
  kept <- others issue_number elems ;;
  leaderboard' <- Op.setitem leaderboard "submissions" (VList kept) ;;
  if (List.length kept <? initial_count)%nat then
    save_leaderboard leaderboard' ;;
    print ("Removed submission for issue #" ++ Py.repr_int issue_number) ;;
    ret true
  else
    print (not_found issue_number) ;;
    ret false.

(** ** The command line *)

Definition usage : list string :=
  [ "Usage: python process_issue.py <action> [args...]";
    "Actions:";
    "  update <issue_number> <issue_title> <issue_author> <issue_url> <issue_body>";
    "  verify <issue_number>";
    "  remove <issue_number>" ].

Definition update_usage_error : string :=
  "Error: update action requires issue_number, issue_title, issue_author, issue_url, and issue_body".

Fixpoint print_all (lines : list string) : M unit :=
  match lines with
  | [] => ret tt
  | x :: l => print x ;; print_all l
  end.

(** [sys.argv[i]] within range. *)
Definition arg (argv : list string) (i : nat) : string := nth i argv EmptyString.

(** [int(s)] *)
Definition int_of (s : string) : M Z := or_raise ValueError (Num.py_int s).

(** The [__main__] block; [argv] is [sys.argv], the script name first. *)
Definition main (now : string) (argv : list string) : M unit :=
  if (List.length argv <? 2)%nat then
    print_all usage ;;
    raise (SystemExit 1)
  else
    let action := arg argv 1 in
    if String.eqb action "update" then
      if (List.length argv <? 7)%nat then
        print update_usage_error ;;
        raise (SystemExit 1)
      else
        issue_number <- int_of (arg argv 2) ;;
        let issue_title := arg argv 3 in
        let issue_author := arg argv 4 in
        let issue_url := arg argv 5 in
        let issue_body := arg argv 6 in
        update_leaderboard now issue_number issue_title issue_author
          issue_body issue_url ;;
        ret tt
    else if String.eqb action "verify" then
      if (List.length argv <? 3)%nat then
        print "Error: verify action requires issue_number" ;;
        raise (SystemExit 1)
      else
        issue_number <- int_of (arg argv 2) ;;
        mark_verified issue_number ;;
        ret tt
    else if String.eqb action "remove" then
      if (List.length argv <? 3)%nat then
        print "Error: remove action requires issue_number" ;;
        raise (SystemExit 1)
      else
        issue_number <- int_of (arg argv 2) ;;
        remove_submission issue_number ;;
        ret tt
    else
      print ("Unknown action: " ++ action) ;;
      raise (SystemExit 1).

(** The exit status of the process: 0 when the script runs to its end,
    the argument of [sys.exit], and 1 for an exception nobody caught. *)
Definition exit_status {A : Type} (o : outcome A) : Z :=
  match o with
  | Return _ => 0
  | Raise (SystemExit code) => code
  | Raise _ => 1
  end.

(* ================================================================== *)
(** * The vocabulary of the specification *)
(* ================================================================== *)

(** ** Stores *)

(** The association lists of a value are dictionaries: no key occurs
    twice, at any depth. *)
Fixpoint valid (v : value) : Prop :=
  match v with
  | VList l => fold_right (fun x P => valid x /\ P) True l
  | VDict d =>
      NoDup (Dict.keys d)
      /\ fold_right (fun kv P => valid (snd kv) /\ P) True d
  | _ => True
  end.

(** [v] is read back from what [encode] wrote, whatever the nesting
    level and whatever follows. *)
Definition reads_back (v : value) : Prop :=
  forall level rest fuel,
    valid v -> Json.ends_value rest -> (Json.size v <= fuel)%nat ->
    Json.scan_value fuel (Json.encode level v ++ rest) = Some (v, rest).

(** The [issue_number] of a Submission. *)
Definition issue_of (sub : value) : option Z :=
  match sub with
  | VDict d =>
      match Dict.get d "issue_number" with
      | Some (VInt n) => Some n
      | _ => None
      end
  | _ => None
  end.

(** A Submission, as far as the operations look: a dictionary with an
    integer [issue_number]. *)
Definition is_submission (sub : value) : bool :=
  match issue_of sub with
  | Some _ => true
  | None => false
  end.

(** The issue numbers of a collection, in order. *)
Definition issues (subs : list value) : list Z :=
  flat_map (fun sub => match issue_of sub with Some n => [n] | None => [] end) subs.

(** [store lb subs]: the value [lb] is a leaderboard whose
    [submissions] are the Submissions [subs]. *)
Definition store (lb : value) (subs : list value) : Prop :=
  valid lb
  /\ (exists top, lb = VDict top
                  /\ Dict.get top "submissions" = Some (VList subs))
  /\ forallb is_submission subs = true.

(** [holds w lb]: in the world [w], [load_leaderboard] returns [lb]. *)
Definition holds (w : world) (lb : value) : Prop :=
  load_leaderboard w = (Return lb, w).

(** The first Submission of an issue. *)
Definition find_issue (n : Z) (subs : list value) : option value :=
  find (fun sub => match issue_of sub with
                   | Some m => m =? n
                   | None => false
                   end) subs.

(** A field of a Submission. *)
Definition field (sub : value) (k : string) : option value :=
  match sub with
  | VDict d => Dict.get d k
  | _ => None
  end.

(** ** The rank key, without the monad *)

Definition rank_key (sub : value) : Float.t :=
  match sub with
  | VDict d =>
      let acc := Dict.get_default d "accuracy" (VStr "N/A") in
      if Py.eq_str acc "N/A" then minus_one
      else
        match Num.py_float (Str.replace "%" "" (Str.strip (Py.str acc))) with
        | Some val =>
            if Float.gtb val (Float.of_Z 1) then Float.div_int val 100 else val
        | None => minus_one
        end
  | _ => minus_one
  end.

(** [x >= y] on keys. *)
Definition key_ge (x y : Float.t) : Prop := Float.leb y x = true.

(** In descending order of rank key: every entry's key is at least the
    key of every later entry. *)
Definition descending (subs : list value) : Prop :=
  StronglySorted (fun a b => key_ge (rank_key a) (rank_key b)) subs.

(** The entries of [subs] whose rank key equals [k], in order. *)
Definition with_key (k : Float.t) (subs : list value) : list value :=
  filter (fun sub => Float.eqb (rank_key sub) k) subs.

(** [after] keeps the relative order that entries of equal rank key
    have in [before]. *)
Definition stable (before after : list value) : Prop :=
  forall k, with_key k after = with_key k before.

(** ** The operations on the collection, without the monad *)

(** The entry is a Submission of issue [n]. *)
Definition has_issue (n : Z) (sub : value) : bool :=
  match issue_of sub with
  | Some m => m =? n
  | None => false
  end.

(** The entry is not a Submission of issue [n]. *)
Definition other_issue (n : Z) (sub : value) : bool := negb (has_issue n sub).

(** The index, counted from [i], of the first Submission of issue [n]. *)
Fixpoint index_from (n : Z) (i : nat) (subs : list value) : option nat :=
  match subs with
  | [] => None
  | sub :: l => if has_issue n sub then Some i else index_from n (S i) l
  end.

(** The collection in the order of [list.sort]. *)
Definition sorted_by_accuracy (subs : list value) : list value :=
  List.map snd (sort_desc (combine (List.map rank_key subs) subs)).

(** The [verified] flag a new entry takes over from the one it
    replaces. *)
Definition carried_flag (old : value) : value :=
  match old with
  | VDict d => Dict.get_default d "verified" (VBool false)
  | _ => VBool false
  end.

(** The collection with the new entry: in the place of the first entry
    of the issue, or at the end. *)
Definition merged (now : string) (n : Z) (author body url : string)
           (subs : list value) : list value :=
  let submission := new_submission now n author url (parse_issue_body body) in
  match index_from n 0 subs with
  | Some i =>
      Op.list_set subs i
        (VDict (Dict.set submission "verified" (carried_flag (nth i subs VNone))))
  | None => subs ++ [VDict submission]
  end.

(** The collection after [update_leaderboard]. *)
Definition updated (now : string) (n : Z) (author body url : string)
           (subs : list value) : list value :=
  sorted_by_accuracy (merged now n author body url subs).

(** The collection after [mark_verified], when the issue is there. *)
Fixpoint verified_first (n : Z) (subs : list value) : option (list value) :=
  match subs with
  | [] => None
  | sub :: l =>
      if has_issue n sub then
        match sub with
        | VDict d => Some (VDict (Dict.set d "verified" (VBool true)) :: l)
        | _ => None
        end
      else option_map (cons sub) (verified_first n l)
  end.

(** The collection after [remove_submission]. *)
Definition removed (n : Z) (subs : list value) : list value :=
  filter (fun sub => negb (has_issue n sub)) subs.

(** The leaderboard with another collection. *)
Definition with_submissions (lb : value) (subs : list value) : value :=
  match lb with
  | VDict top => VDict (Dict.set top "submissions" (VList subs))
  | _ => lb
  end.

(** The world after the store was saved and a line printed. *)
Definition saved (w : world) (lb : value) (line : string) : world :=
  World (Some (Json.dumps lb)) (S (writes w)) (stdout w ++ [line]).

(** The world after a line was printed and nothing else. *)
Definition printed (w : world) (line : string) : world :=
  World (file w) (writes w) (stdout w ++ [line]).

(* ================================================================== *)
(** * Examples *)
(* ================================================================== *)

(** The body of the specification's multi-line example. *)
Definition body_two_lines : string :=
  "### Improvement Description" ++ nl ++ "Line one." ++ nl ++ "Line two."
  ++ nl ++ nl ++ "### GPU Hours" ++ nl ++ "10".

(** A body that gives an accuracy and nothing else. *)
Definition body_accuracy (accuracy : string) : string :=
  "### Accuracy" ++ nl ++ accuracy.

Definition example_time : string := "2024-05-01T10:00:00".
Definition example_url : string := "https://example.org/issues".

(** [update_leaderboard] for issue [n] on such a body. *)
Definition submit (n : Z) (accuracy : string) : M bool :=
  update_leaderboard example_time n "Submission" "ann"
    (body_accuracy accuracy) example_url.

(** The entry it makes. *)
Definition entry (n : Z) (accuracy : string) : value :=
  VDict (new_submission example_time n "ann" example_url
           [("accuracy", accuracy)]).

(** The leaderboard of a collection, and the world whose file holds
    it. *)
Definition store_of (subs : list value) : value :=
  VDict [("submissions", VList subs)].

Definition world_of (subs : list value) : world :=
  World (Some (Json.dumps (store_of subs))) 0 [].

(** The world before the first run: no file, nothing printed. *)
Definition new_world : world := World None 0 [].

(** The command line of an update with one argument too many. *)
Definition argv_six : list string :=
  [ "process_issue.py"; "update"; "7"; "Submission"; "ann"; example_url;
    body_accuracy "95%"; "extra" ].

(** A collection of one Submission. *)
Definition one_entry : list value := [entry 1 "95%"].

(** ** Keys that are numbers *)

(** The rank key of the entry is a number: not the NaN. *)
Definition numeric (sub : value) : Prop := Float.is_nan (rank_key sub) = false.

(** A pair of [list.sort]: an entry with its rank key. *)
Definition keyed (p : Float.t * value) : Prop := fst p = rank_key (snd p).

(** Pairs in descending order of key: every key is at least the keys
    after it. *)
Definition desc_keys {A : Type} (l : list (Float.t * A)) : Prop :=
  StronglySorted (fun x y => Float.leb (fst y) (fst x) = true) l.

Definition no_nan {A : Type} (l : list (Float.t * A)) : Prop :=
  Forall (fun x => Float.is_nan (fst x) = false) l.

(** The pairs of a key, in order. *)
Definition of_key {A : Type} (k : Float.t) (l : list (Float.t * A))
  : list (Float.t * A) :=
  filter (fun x => Float.eqb (fst x) k) l.

(* ================================================================== *)
(** * What a computation does to the world *)
(* ================================================================== *)




(* ================================================================== *)
(** * What the parser looks at *)
(* ================================================================== *)

(** White space and nothing else. *)
Definition blank (s : string) : Prop := Str.lstrip s = EmptyString.

(** What one turn of the parser's loop files under its key: group 1 of
    the leftmost match, stripped, unless that is empty or a no-answer. *)
Definition extracted (body : string) (pattern : regex) : option string :=
  match search pattern body with
  | Some (Some g) =>
      let value := Str.strip g in
      if negb (String.eqb value "")
         && negb (Str.mem (Str.lower value) no_answer)
      then Some value
      else None
  | _ => None
  end.

(** An answer as the parser files it: under one of the six keys, one
    line, not empty, no white space around it, and not a no-answer. *)
Definition answer (kv : string * string) : Prop :=
  In (fst kv) (List.map fst patterns)
  /\ snd kv <> EmptyString
  /\ Str.strip (snd kv) = snd kv
  /\ one_line (snd kv)
  /\ Str.mem (Str.lower (snd kv)) no_answer = false.

(* ================================================================== *)
(** * The text behind a rank key *)
(* ================================================================== *)

(** What [get_accuracy_value] hands to [float]: the accuracy of the
    entry as a string, stripped, without its percent signs. *)
Definition accuracy_text (sub : value) : string :=
  match sub with
  | VDict d =>
      Str.replace "%" ""
        (Str.strip (Py.str (Dict.get_default d "accuracy" (VStr "N/A"))))
  | _ => "N/A"
  end.

(** The text is one of the spellings of the NaN that [float] accepts:
    [nan] in any case of letters, with or without a sign, and with
    white space around it. *)
Definition spells_nan (s : string) : bool :=
  match Num.drop_underscores (Num.strip_c (Str.map Num.to_ascii s)) with
  | Some s0 => String.eqb (Str.lower (snd (Num.sign s0))) "nan"
  | None => false
  end.

(** A world whose file is an empty JSON object. *)
Definition world_without_submissions : world := World (Some "{}") 0 [].

(** A world whose file has no character. *)
Definition world_of_empty_file : world := World (Some "") 0 [].

(* ================================================================== *)
(** * The entry of a call *)
(* ================================================================== *)

(** The entry that [update_leaderboard] makes at the time [now], with
    the flag [f] for [verified]. *)
Definition made (n : Z) (author body url now : string) (f : value) : value :=
  VDict (Dict.set (new_submission now n author url (parse_issue_body body))
           "verified" f).

(** The flag of the entry that a call for issue [n] makes on [subs]:
    the one of the entry it replaces, [False] when there is none. *)
Definition flag (n : Z) (subs : list value) : value :=
  match find_issue n subs with
  | Some old => carried_flag old
  | None => VBool false
  end.

(* ================================================================== *)
(** * Plain text *)
(* ================================================================== *)






(* ================================================================== *)
(** * Facts about strings *)
(* ================================================================== *)

Lemma append_assoc (a b c : string) : (a ++ b) ++ c = a ++ (b ++ c).
Proof.
  induction a as [|x a IH]; simpl; [reflexivity | now rewrite IH].
Qed.

Lemma append_nil_r (a : string) : a ++ "" = a.
Proof.
  induction a as [|x a IH]; simpl; [reflexivity | now rewrite IH].
Qed.

Lemma length_append (a b : string) :
  String.length (a ++ b) = (String.length a + String.length b)%nat.
Proof.
  induction a as [|x a IH]; simpl; [reflexivity | now rewrite IH].
Qed.

(* ================================================================== *)
(** * JSON: reading back what was written *)
(* ================================================================== *)

Module JsonFacts.
Import Json.

(** ** Strings *)

Lemma scanstring_escape_char (c : ascii) (x : string) :
  scanstring (escape_char c ++ x) =
  match scanstring x with
  | Some (t, r) => Some (String c t, r)
  | None => None
  end.
Proof.
  destruct c as [[] [] [] [] [] [] [] []]; reflexivity.
Qed.

Lemma scanstring_escape (s rest : string) :
  scanstring (escape s ++ String "034" rest) = Some (s, rest).
Proof.
  induction s as [|c s IH]; simpl.
  - reflexivity.
  - rewrite append_assoc, scanstring_escape_char, IH. reflexivity.
Qed.

Lemma scan_encode_str (s rest : string) :
  exists r, encode_str s ++ rest = String "034" r
            /\ scanstring r = Some (s, rest).
Proof.
  exists (escape s ++ String "034" rest). split.
  - unfold encode_str. simpl. now rewrite append_assoc.
  - apply scanstring_escape.
Qed.

(** ** Integers *)

Lemma digits_of_uint (d : Decimal.uint) :
  forall acc n rest,
    starts_with_digit rest = false ->
    exists n',
      Num.digits acc n (NilEmpty.string_of_uint d ++ rest)
      = (uint_value acc d, n', rest).
Proof.
  induction d; intros acc n rest Hr; simpl;
    try (apply IHd; exact Hr).
  exists n. destruct rest as [|c r]; simpl in *; [reflexivity|].
  now rewrite Hr.
Qed.

Lemma uint_value_acc (d : Decimal.uint) :
  forall p, uint_value (Z.pos p) d = Z.pos (Pos.of_uint_acc d p).
Proof.
  induction d; intro p; cbn [uint_value Pos.of_uint_acc];
    try reflexivity; rewrite <- IHd; f_equal; lia.
Qed.

Lemma uint_value_0 (d : Decimal.uint) :
  uint_value 0 d = Z.of_N (Pos.of_uint d).
Proof.
  induction d; cbn [uint_value Pos.of_uint]; try reflexivity;
    try exact IHd; apply uint_value_acc.
Qed.

Lemma to_uint_head (p : positive) :
  exists c s, NilEmpty.string_of_uint (Pos.to_uint p) = String c s
              /\ Num.is_digit c = true /\ c <> "0"%char.
Proof.
  assert (Hn : Decimal.unorm (Pos.to_uint p) = Pos.to_uint p).
  { rewrite <- (Unsigned.to_of (Pos.to_uint p)), Unsigned.of_to.
    reflexivity. }
  pose proof (Unsigned.to_uint_nonnil p) as Hnil.
  pose proof (Unsigned.to_uint_nonzero p) as Hz.
  destruct (Pos.to_uint p) as [|u|u|u|u|u|u|u|u|u|u] eqn:E;
    try congruence;
    try (eexists; eexists; split; [reflexivity | split; [reflexivity | discriminate]]).
  exfalso. rewrite unorm_D0 in Hn.
  destruct u as [|u|u|u|u|u|u|u|u|u|u]; try congruence;
    match type of Hn with
    | Decimal.unorm ?x = _ =>
        assert (Hx : x <> Decimal.Nil) by discriminate;
        pose proof (nb_digits_unorm x Hx) as Hle;
        rewrite Hn in Hle; simpl in Hle; lia
    end.
Qed.

Lemma ends_value_no_digit rest :
  ends_value rest -> starts_with_digit rest = false.
Proof.
  destruct rest as [|c r]; simpl; [reflexivity|].
  now intros [-> | ->].
Qed.

Lemma ends_value_no_float rest :
  ends_value rest -> float_follows rest = false.
Proof.
  destruct rest as [|c r]; simpl; [reflexivity|].
  now intros [-> | ->].
Qed.

Lemma scan_digits_pos (p : positive) (rest : string) :
  ends_value rest ->
  scan_digits (NilEmpty.string_of_uint (Pos.to_uint p) ++ rest)
  = Some (Z.pos p, rest).
Proof.
  intro Hr.
  destruct (to_uint_head p) as (c & s & E & Hd & H0).
  destruct (digits_of_uint (Pos.to_uint p) 0 0 rest
              (ends_value_no_digit _ Hr)) as (n' & Hdig).
  rewrite uint_value_0, Unsigned.of_to in Hdig. simpl in Hdig.
  rewrite E in *. simpl. simpl in Hdig.
  unfold scan_digits.
  destruct c as [[] [] [] [] [] [] [] []]; try discriminate Hd;
    try congruence; simpl; simpl in Hdig; now rewrite Hdig.
Qed.

Lemma scan_number_unsigned (c : ascii) (r : string) :
  Num.is_digit c = true ->
  scan_number (String c r) =
  match scan_digits (String c r) with
  | Some (z, r') => if float_follows r' then None else Some (z, r')
  | None => None
  end.
Proof.
  intro Hd.
  destruct c as [[] [] [] [] [] [] [] []]; try discriminate Hd; reflexivity.
Qed.

Lemma scan_number_repr (z : Z) (rest : string) :
  ends_value rest ->
  scan_number (Py.repr_int z ++ rest) = Some (z, rest).
Proof.
  intro Hr. unfold Py.repr_int.
  destruct z as [|p|p]; cbn [Z.to_int NilEmpty.string_of_int].
  - unfold scan_number. simpl. now rewrite ends_value_no_float.
  - destruct (to_uint_head p) as (c & s & E & Hd & H0).
    pose proof (scan_digits_pos p rest Hr) as Hs.
    rewrite E in *. cbn [append] in *.
    rewrite scan_number_unsigned by exact Hd.
    rewrite Hs. now rewrite ends_value_no_float.
  - cbn [append]. unfold scan_number.
    rewrite scan_digits_pos by exact Hr.
    now rewrite ends_value_no_float.
Qed.

(** ** Values *)

(** Induction on values, through their lists. *)
Lemma value_induction (P : value -> Prop) :
  P VNone ->
  (forall b, P (VBool b)) ->
  (forall z, P (VInt z)) ->
  (forall s, P (VStr s)) ->
  (forall l, Forall P l -> P (VList l)) ->
  (forall d, Forall (fun kv => P (snd kv)) d -> P (VDict d)) ->
  forall v, P v.
Proof.
  intros HN HB HI HS HL HD.
  fix IH 1. intros [ | b | z | s | l | d].
  - exact HN.
  - apply HB.
  - apply HI.
  - apply HS.
  - apply HL. induction l as [|x l IHl]; constructor; [apply IH | exact IHl].
  - apply HD. induction d as [|[k x] d IHd]; constructor; [apply IH | exact IHd].
Qed.

Lemma encode_starts (level : nat) (v : value) (rest : string) :
  starts_value (encode level v ++ rest).
Proof.
  destruct v as [ | [] | z | s | [|x l] | [|kv d]]; simpl;
    try (repeat split; discriminate).
  unfold Py.repr_int. destruct z as [|p|p]; simpl;
    try (repeat split; discriminate).
  destruct (to_uint_head p) as (c & s & E & Hd & _). rewrite E. simpl.
  destruct c as [[] [] [] [] [] [] [] []]; try discriminate Hd;
    repeat split; discriminate.
Qed.

Lemma skip_ws_starts (s : string) : starts_value s -> skip_ws s = s.
Proof.
  destruct s as [|c r]; simpl; [reflexivity|].
  now intros [-> _].
Qed.

Lemma skip_ws_spaces (n : nat) (s : string) :
  skip_ws (spaces n ++ s) = skip_ws s.
Proof.
  induction n as [|n IH]; simpl; [reflexivity | exact IH].
Qed.

Lemma skip_ws_newline_indent (n : nat) (s : string) :
  skip_ws (newline_indent n ++ s) = skip_ws s.
Proof.
  unfold newline_indent. simpl. apply skip_ws_spaces.
Qed.

Lemma ends_value_newline_indent (n : nat) (s : string) :
  ends_value (newline_indent n ++ s).
Proof. simpl. now right. Qed.

Lemma scan_value_array (f : nat) (s1 : string) (c : ascii) (r : string) :
  skip_ws s1 = String c r ->
  c <> "]"%char ->
  scan_value (S f) (String "[" s1) =
  match scan_elements f (String c r) with
  | Some (l, r') => Some (VList l, r')
  | None => None
  end.
Proof.
  intros E Hc. cbn [scan_value]. rewrite E.
  destruct c as [[] [] [] [] [] [] [] []]; try reflexivity; congruence.
Qed.

Lemma scan_value_object (f : nat) (s1 : string) (c : ascii) (r : string) :
  skip_ws s1 = String c r ->
  c <> "}"%char ->
  scan_value (S f) (String "{" s1) =
  match scan_members f (String c r) with
  | Some (l, r') => Some (VDict (dict_of_pairs l), r')
  | None => None
  end.
Proof.
  intros E Hc. cbn [scan_value]. rewrite E.
  destruct c as [[] [] [] [] [] [] [] []]; try reflexivity; congruence.
Qed.

Lemma scan_value_number (f : nat) (c : ascii) (r : string) :
  Num.is_digit c = true \/ c = "-"%char ->
  scan_value (S f) (String c r) =
  match scan_number (String c r) with
  | Some (z, r') => Some (VInt z, r')
  | None => None
  end.
Proof.
  intros [Hd | ->]; [|reflexivity].
  destruct c as [[] [] [] [] [] [] [] []]; try discriminate Hd; reflexivity.
Qed.

Lemma repr_int_head (z : Z) :
  exists c r, Py.repr_int z = String c r
              /\ (Num.is_digit c = true \/ c = "-"%char).
Proof.
  unfold Py.repr_int. destruct z as [|p|p]; simpl.
  - eexists; eexists; split; [reflexivity | now left].
  - destruct (to_uint_head p) as (c & s & E & Hd & _).
    exists c, s. split; [exact E | now left].
  - eexists; eexists; split; [reflexivity | now right].
Qed.

(** A dictionary read back pair by pair is the dictionary. *)
Lemma dict_set_fresh (d : list (string * value)) (k : string) (x : value) :
  ~ In k (Dict.keys d) -> Dict.set d k x = (d ++ [(k, x)])%list.
Proof.
  induction d as [|[k' x'] d IH]; simpl; intro H; [reflexivity|].
  destruct (String.eqb_spec k' k) as [->|Hne].
  - exfalso. apply H. now left.
  - f_equal. apply IH. intro Hin. apply H. now right.
Qed.

Lemma dict_of_pairs_acc (l acc : list (string * value)) :
  NoDup (Dict.keys (acc ++ l)%list) ->
  fold_left (fun d kv => Dict.set d (fst kv) (snd kv)) l acc = (acc ++ l)%list.
Proof.
  revert acc. induction l as [|[k x] l IH]; intros acc H; simpl.
  - now rewrite List.app_nil_r.
  - rewrite dict_set_fresh.
    + rewrite IH; rewrite <- List.app_assoc; [reflexivity | exact H].
    + unfold Dict.keys in *. rewrite map_app in H. simpl in H.
      apply NoDup_remove_2 in H. intro Hin. apply H.
      apply in_or_app. now left.
Qed.

Lemma dict_of_pairs_nodup (d : list (string * value)) :
  NoDup (Dict.keys d) -> dict_of_pairs d = d.
Proof. intro H. unfold dict_of_pairs. now rewrite dict_of_pairs_acc. Qed.

(** One turn of the loops of the scanner. *)
Lemma scan_elements_last f s x s1 r :
  scan_value f s = Some (x, s1) ->
  skip_ws s1 = String "]" r ->
  scan_elements (S f) s = Some ([x], r).
Proof. intros E1 E2. cbn [scan_elements]. now rewrite E1, E2. Qed.

Lemma scan_elements_more f s x s1 s2 :
  scan_value f s = Some (x, s1) ->
  skip_ws s1 = String "," s2 ->
  scan_elements (S f) s =
  match scan_elements f (skip_ws s2) with
  | Some (l, r) => Some (x :: l, r)
  | None => None
  end.
Proof. intros E1 E2. cbn [scan_elements]. now rewrite E1, E2. Qed.

Lemma scan_members_last f s1 key s2 s3 x s4 r :
  scanstring s1 = Some (key, s2) ->
  skip_ws s2 = String ":" s3 ->
  scan_value f (skip_ws s3) = Some (x, s4) ->
  skip_ws s4 = String "}" r ->
  scan_members (S f) (String "034" s1) = Some ([(key, x)], r).
Proof.
  intros E1 E2 E3 E4. cbn [scan_members]. now rewrite E1, E2, E3, E4.
Qed.

Lemma scan_members_more f s1 key s2 s3 x s4 s5 :
  scanstring s1 = Some (key, s2) ->
  skip_ws s2 = String ":" s3 ->
  scan_value f (skip_ws s3) = Some (x, s4) ->
  skip_ws s4 = String "," s5 ->
  scan_members (S f) (String "034" s1) =
  match scan_members f (skip_ws s5) with
  | Some (l, r) => Some ((key, x) :: l, r)
  | None => None
  end.
Proof.
  intros E1 E2 E3 E4. cbn [scan_members]. now rewrite E1, E2, E3, E4.
Qed.

Lemma items_one (sep close e : string) : items sep close [e] = e ++ close.
Proof. reflexivity. Qed.

Lemma items_more (sep close e e' : string) (es : list string) :
  items sep close (e :: e' :: es) = e ++ sep ++ items sep close (e' :: es).
Proof. reflexivity. Qed.

Lemma items_head (sep close e : string) (es : list string) :
  exists t, items sep close (e :: es) = e ++ t.
Proof. destruct es; eexists; reflexivity. Qed.

Lemma skip_ws_items (level : nat) (sep close rest : string)
      (x : value) (es : list string) :
  skip_ws (items sep close (encode level x :: es) ++ rest)
  = items sep close (encode level x :: es) ++ rest.
Proof.
  destruct (items_head sep close (encode level x) es) as (t & ->).
  rewrite append_assoc. apply skip_ws_starts, encode_starts.
Qed.

Lemma scan_elements_items (level : nat) (l : list value) :
  Forall reads_back l ->
  forall x rest fuel,
    reads_back x ->
    fold_right (fun y P => valid y /\ P) True (x :: l) ->
    (fold_right (fun y n => S (size y + n)) O (x :: l) <= fuel)%nat ->
    scan_elements fuel
      (items ("," ++ newline_indent (S level)) (newline_indent level ++ "]")
         (List.map (encode (S level)) (x :: l)) ++ rest)
    = Some (x :: l, rest).
Proof.
  induction 1 as [|y l Hy Hl IH]; intros x rest fuel Hx Hv Hf;
    (destruct fuel as [|f]; [simpl in Hf; lia|]);
    cbn [List.map].
  - rewrite items_one, append_assoc.
    eapply scan_elements_last.
    + apply Hx; [apply Hv | | simpl in Hf; lia].
      rewrite append_assoc. apply ends_value_newline_indent.
    + rewrite append_assoc, skip_ws_newline_indent. reflexivity.
  - rewrite items_more, !append_assoc.
    erewrite scan_elements_more; cycle 1.
    + apply Hx; [apply Hv | now left | simpl in Hf; lia].
    + reflexivity.
    + rewrite skip_ws_newline_indent, skip_ws_items.
      change (encode (S level) y :: List.map (encode (S level)) l)
        with (List.map (encode (S level)) (y :: l)).
      rewrite IH; [reflexivity | exact Hy | apply Hv | simpl in Hf |- *; lia].
Qed.

Lemma member_eq (level : nat) (k : string) (x : value) (t : string) :
  member level (k, x) ++ t
  = String "034" (escape k ++ String "034" (": " ++ encode (S level) x ++ t)).
Proof.
  unfold member, encode_str. cbn [fst snd append].
  now rewrite !append_assoc.
Qed.

Lemma scan_members_items (level : nat) (d : list (string * value)) :
  Forall (fun kv => reads_back (snd kv)) d ->
  forall k x rest fuel,
    reads_back x ->
    fold_right (fun kv P => valid (snd kv) /\ P) True ((k, x) :: d) ->
    (fold_right (fun kv n => S (size (snd kv) + n)) O ((k, x) :: d) <= fuel)%nat ->
    scan_members fuel
      (items ("," ++ newline_indent (S level)) (newline_indent level ++ "}")
         (List.map (member level) ((k, x) :: d)) ++ rest)
    = Some ((k, x) :: d, rest).
Proof.
  induction 1 as [|[k' y] d Hy Hd IH]; intros k x rest fuel Hx Hv Hf;
    (destruct fuel as [|f]; [simpl in Hf; lia|]);
    cbn [List.map].
  - rewrite items_one, append_assoc, member_eq.
    eapply scan_members_last.
    + apply scanstring_escape.
    + reflexivity.
    + cbn [skip_ws is_ws]. simpl (is_ws " "). cbv iota.
      rewrite skip_ws_starts by apply encode_starts.
      apply Hx; [apply Hv | | simpl in Hf; lia].
      rewrite append_assoc. apply ends_value_newline_indent.
    + rewrite append_assoc, skip_ws_newline_indent. reflexivity.
  - rewrite items_more, !append_assoc, member_eq.
    erewrite scan_members_more; cycle 1.
    + apply scanstring_escape.
    + reflexivity.
    + cbn [skip_ws is_ws]. simpl (is_ws " "). cbv iota.
      rewrite skip_ws_starts by apply encode_starts.
      apply Hx; [apply Hv | now left | simpl in Hf; lia].
    + reflexivity.
    + rewrite skip_ws_newline_indent.
      destruct (items_head ("," ++ newline_indent (S level))
                  (newline_indent level ++ "}") (member level (k', y))
                  (List.map (member level) d)) as (t & Et).
      assert (Es : skip_ws
                     (items ("," ++ newline_indent (S level))
                        (newline_indent level ++ "}")
                        (member level (k', y) :: List.map (member level) d)
                      ++ rest)
                   = items ("," ++ newline_indent (S level))
                       (newline_indent level ++ "}")
                       (member level (k', y) :: List.map (member level) d)
                     ++ rest).
      { rewrite Et, append_assoc, member_eq. reflexivity. }
      rewrite Es.
      change (member level (k', y) :: List.map (member level) d)
        with (List.map (member level) ((k', y) :: d)).
      rewrite IH; [reflexivity | exact Hy | apply Hv | simpl in Hf |- *; lia].
Qed.

Lemma encode_list (level : nat) (x : value) (l : list value) :
  encode level (VList (x :: l))
  = "[" ++ newline_indent (S level)
    ++ items ("," ++ newline_indent (S level)) (newline_indent level ++ "]")
         (List.map (encode (S level)) (x :: l)).
Proof. reflexivity. Qed.

Lemma encode_dict (level : nat) (kv : string * value)
      (d : list (string * value)) :
  encode level (VDict (kv :: d))
  = "{" ++ newline_indent (S level)
    ++ items ("," ++ newline_indent (S level)) (newline_indent level ++ "}")
         (List.map (member level) (kv :: d)).
Proof. reflexivity. Qed.

Lemma opened (c : ascii) (a b rest : string) :
  (String c "" ++ a ++ b) ++ rest = String c (a ++ b ++ rest).
Proof. cbn [append]. now rewrite !append_assoc. Qed.

Theorem scan_encode (v : value) : reads_back v.
Proof.
  induction v as [ | b | z | s | l IH | d IH] using value_induction;
    intros level rest fuel Hv Hr Hf;
    (destruct fuel as [|f]; [simpl in Hf; lia|]).
  - reflexivity.
  - destruct b; reflexivity.
  - cbn [encode].
    destruct (repr_int_head z) as (c & r & E & Hc).
    pose proof (scan_number_repr z rest Hr) as Hn.
    rewrite E in *. cbn [append] in *.
    rewrite scan_value_number by exact Hc. now rewrite Hn.
  - cbn [encode]. destruct (scan_encode_str s rest) as (r & -> & E).
    cbn [scan_value]. now rewrite E.
  - destruct l as [|x l]; [reflexivity|].
    rewrite encode_list, opened.
    destruct (items_head ("," ++ newline_indent (S level))
                  (newline_indent level ++ "]") (encode (S level) x)
                  (List.map (encode (S level)) l)) as (t & Et).
    pose proof (encode_starts (S level) x (t ++ rest)) as Hs.
    pose proof (skip_ws_items (S level) ("," ++ newline_indent (S level))
                  (newline_indent level ++ "]") rest x
                  (List.map (encode (S level)) l)) as Hk.
    cbn [List.map]. rewrite Et, append_assoc in Hk.
    destruct (encode (S level) x ++ t ++ rest) as [|c r] eqn:E;
      [contradiction|].
    erewrite scan_value_array;
      [ | rewrite skip_ws_newline_indent, Et, append_assoc, E; exact Hk
        | apply Hs ].
    rewrite <- E, <- append_assoc, <- Et.
    change (encode (S level) x :: List.map (encode (S level)) l)
      with (List.map (encode (S level)) (x :: l)).
    inversion IH as [|? ? Hx Hl]; subst.
    rewrite scan_elements_items;
      [reflexivity | exact Hl | exact Hx | apply Hv | simpl in Hf |- *; lia].
  - destruct d as [|[k x] d]; [reflexivity|].
    rewrite encode_dict, opened.
    destruct (items_head ("," ++ newline_indent (S level))
                  (newline_indent level ++ "}") (member level (k, x))
                  (List.map (member level) d)) as (t & Et).
    cbn [List.map].
    assert (Hk : skip_ws
                   (newline_indent (S level)
                    ++ items ("," ++ newline_indent (S level))
                         (newline_indent level ++ "}")
                         (member level (k, x) :: List.map (member level) d)
                    ++ rest)
                 = String "034"
                     (escape k
                      ++ String "034"
                           (": " ++ encode (S level) x ++ t ++ rest))).
    { rewrite skip_ws_newline_indent, Et, append_assoc, member_eq.
      reflexivity. }
    erewrite scan_value_object; [ | exact Hk | discriminate ].
    rewrite <- member_eq, <- append_assoc, <- Et.
    change (member level (k, x) :: List.map (member level) d)
      with (List.map (member level) ((k, x) :: d)).
    inversion IH as [|? ? Hx Hl]; subst.
    destruct Hv as [Hnd Hv].
    rewrite scan_members_items;
      [ | exact Hl | exact Hx | exact Hv | simpl in Hf |- *; lia].
    now rewrite dict_of_pairs_nodup.
Qed.

Lemma length_items (sep close : string) (es : list string) (n : nat) :
  (1 <= String.length sep)%nat ->
  (1 <= String.length close)%nat ->
  es <> [] ->
  (fold_right (fun e m => S (String.length e + m)) O es
   <= String.length (items sep close es))%nat.
Proof.
  intros Hs Hc. induction es as [|e es IH]; intro Hne; [congruence|].
  destruct es as [|e' es].
  - rewrite items_one, length_append. simpl. lia.
  - rewrite items_more, !length_append.
    assert (H : e' :: es <> []) by discriminate.
    specialize (IH H). simpl in IH |- *. lia.
Qed.

Lemma length_member (level : nat) (kv : string * value) :
  (String.length (encode (S level) (snd kv))
   <= String.length (member level kv))%nat.
Proof. unfold member. rewrite !length_append. lia. Qed.

Lemma size_le_length (v : value) :
  forall level, (size v <= String.length (encode level v))%nat.
Proof.
  induction v as [ | b | z | s | l IH | d IH] using value_induction;
    intro level.
  - simpl. lia.
  - destruct b; simpl; lia.
  - cbn [encode size]. destruct (repr_int_head z) as (c & r & -> & _).
    simpl. lia.
  - simpl. lia.
  - destruct l as [|x l]; [simpl; lia|].
    rewrite encode_list, !length_append.
    pose proof (length_items ("," ++ newline_indent (S level))
                  (newline_indent level ++ "]")
                  (List.map (encode (S level)) (x :: l)) 0) as H.
    cbn [size].
    assert (Hsum : (fold_right (fun y n => S (size y + n)) O (x :: l)
                    <= fold_right (fun e m => S (String.length e + m)) O
                         (List.map (encode (S level)) (x :: l)))%nat).
    { clear H. induction IH as [|y l' Hy Hl IHl];
        cbn [fold_right List.map]; [lia|].
      specialize (Hy (S level)). lia. }
    assert (H1 : (1 <= String.length ("," ++ newline_indent (S level)))%nat)
      by (simpl; lia).
    assert (H2 : (1 <= String.length (newline_indent level ++ "]"))%nat)
      by (simpl; lia).
    specialize (H H1 H2 ltac:(discriminate)). simpl String.length at 1. lia.
  - destruct d as [|kv d]; [simpl; lia|].
    rewrite encode_dict, !length_append.
    pose proof (length_items ("," ++ newline_indent (S level))
                  (newline_indent level ++ "}")
                  (List.map (member level) (kv :: d)) 0) as H.
    cbn [size].
    assert (Hsum : (fold_right (fun kv n => S (size (snd kv) + n)) O (kv :: d)
                    <= fold_right (fun e m => S (String.length e + m)) O
                         (List.map (member level) (kv :: d)))%nat).
    { clear H. induction IH as [|y l' Hy Hl IHl];
        cbn [fold_right List.map]; [lia|].
      specialize (Hy (S level)).
      pose proof (length_member level y). lia. }
    assert (H1 : (1 <= String.length ("," ++ newline_indent (S level)))%nat)
      by (simpl; lia).
    assert (H2 : (1 <= String.length (newline_indent level ++ "}"))%nat)
      by (simpl; lia).
    specialize (H H1 H2 ltac:(discriminate)). simpl String.length at 1. lia.
Qed.

(** Reading back a document that [dumps] wrote gives the value. *)
Theorem loads_dumps (v : value) : valid v -> loads (dumps v) = Some v.
Proof.
  intro Hv. unfold loads, dumps.
  pose proof (encode_starts 0 v "") as Hs.
  rewrite append_nil_r in Hs. rewrite skip_ws_starts by exact Hs.
  pose proof (scan_encode v 0%nat "" (S (String.length (encode 0 v))) Hv I)
    as H.
  rewrite append_nil_r in H. rewrite H; [reflexivity|].
  pose proof (size_le_length v 0). lia.
Qed.

End JsonFacts.

Import JsonFacts.

(* ================================================================== *)
(** * Dictionaries and valid values *)
(* ================================================================== *)

Lemma valid_list (l : list value) : valid (VList l) <-> Forall valid l.
Proof.
  cbn [valid]. induction l as [|x l IH]; cbn [fold_right].
  - split; [constructor | trivial].
  - rewrite Forall_cons_iff, IH. reflexivity.
Qed.

Lemma valid_dict (d : list (string * value)) :
  valid (VDict d)
  <-> NoDup (Dict.keys d) /\ Forall (fun kv => valid (snd kv)) d.
Proof.
  cbn [valid].
  assert (H : fold_right (fun kv P => valid (snd kv) /\ P) True d
              <-> Forall (fun kv => valid (snd kv)) d).
  { induction d as [|kv d IH]; cbn [fold_right].
    - split; [constructor | trivial].
    - rewrite Forall_cons_iff, IH. reflexivity. }
  rewrite H. reflexivity.
Qed.

Lemma dict_get_in {V : Type} (d : Dict.t V) (k : string) (x : V) :
  Dict.get d k = Some x -> In (k, x) d.
Proof.
  induction d as [|[k' x'] d IH]; simpl; [discriminate|].
  destruct (String.eqb_spec k' k) as [->|Hne].
  - intros [= ->]. now left.
  - intro H. right. now apply IH.
Qed.

Lemma dict_get_key {V : Type} (d : Dict.t V) (k : string) (x : V) :
  Dict.get d k = Some x -> In k (Dict.keys d).
Proof.
  intro H. apply dict_get_in in H. unfold Dict.keys.
  now apply (in_map fst) in H.
Qed.

Lemma dict_get_none {V : Type} (d : Dict.t V) (k : string) :
  Dict.get d k = None -> ~ In k (Dict.keys d).
Proof.
  induction d as [|[k' x'] d IH]; simpl; [tauto|].
  destruct (String.eqb_spec k' k) as [->|Hne]; [discriminate|].
  intros H [E|Hin]; [congruence | now apply IH].
Qed.

Lemma dict_keys_set {V : Type} (d : Dict.t V) (k : string) (x : V) :
  In k (Dict.keys d) -> Dict.keys (Dict.set d k x) = Dict.keys d.
Proof.
  induction d as [|[k' x'] d IH]; simpl; [tauto|].
  destruct (String.eqb_spec k' k) as [->|Hne]; [reflexivity|].
  intros [E|Hin]; [congruence|]. simpl. f_equal. now apply IH.
Qed.

Lemma dict_get_set_same {V : Type} (d : Dict.t V) (k : string) (x : V) :
  Dict.get (Dict.set d k x) k = Some x.
Proof.
  induction d as [|[k' x'] d IH]; simpl.
  - now rewrite String.eqb_refl.
  - destruct (String.eqb_spec k' k) as [->|Hne]; simpl.
    + now rewrite String.eqb_refl.
    + destruct (String.eqb_spec k' k); [congruence | exact IH].
Qed.

Lemma dict_get_set_other {V : Type} (d : Dict.t V) (k k' : string) (x : V) :
  k <> k' -> Dict.get (Dict.set d k x) k' = Dict.get d k'.
Proof.
  intro Hne. induction d as [|[k0 x0] d IH]; simpl.
  - destruct (String.eqb_spec k k'); [congruence | reflexivity].
  - destruct (String.eqb_spec k0 k) as [->|Hk]; simpl.
    + destruct (String.eqb_spec k k'); [congruence | reflexivity].
    + destruct (String.eqb_spec k0 k'); [reflexivity | exact IH].
Qed.

Lemma dict_set_values (d : list (string * value)) (k : string) (x : value) :
  valid x ->
  Forall (fun kv => valid (snd kv)) d ->
  Forall (fun kv => valid (snd kv)) (Dict.set d k x).
Proof.
  intros Hx. induction 1 as [|[k' x'] d Hd Hl IH]; simpl.
  - constructor; [exact Hx | constructor].
  - destruct (String.eqb k' k); constructor; assumption.
Qed.

Lemma valid_dict_set (d : list (string * value)) (k : string) (x : value) :
  valid (VDict d) -> valid x -> valid (VDict (Dict.set d k x)).
Proof.
  rewrite !valid_dict. intros [Hn Hv] Hx. split.
  - destruct (Dict.get d k) as [y|] eqn:E.
    + rewrite dict_keys_set; [exact Hn | eapply dict_get_key, E].
    + apply dict_get_none in E. rewrite dict_set_fresh by exact E.
      unfold Dict.keys in *. rewrite map_app. simpl.
      apply NoDup_app; [exact Hn | repeat constructor; simpl; tauto | ].
      intros a Ha [<-|[]]. now apply E.
  - now apply dict_set_values.
Qed.

Lemma valid_dict_get (d : list (string * value)) (k : string) (x : value) :
  valid (VDict d) -> Dict.get d k = Some x -> valid x.
Proof.
  rewrite valid_dict. intros [_ Hv] E. apply dict_get_in in E.
  rewrite Forall_forall in Hv. exact (Hv _ E).
Qed.

Lemma valid_get_default (d : list (string * value)) (k : string) (x : value) :
  valid (VDict d) -> valid x -> valid (Dict.get_default d k x).
Proof.
  intros Hd Hx. unfold Dict.get_default.
  destruct (Dict.get d k) eqn:E; [eapply valid_dict_get; eauto | exact Hx].
Qed.

(* ================================================================== *)
(** * The monad *)
(* ================================================================== *)

Lemma bind_return {A B : Type} (m : M A) (f : A -> M B) (w w' : world) (a : A) :
  m w = (Return a, w') -> bind m f w = f a w'.
Proof. intro H. unfold bind. now rewrite H. Qed.

(* ================================================================== *)
(** * Stores *)
(* ================================================================== *)

Lemma is_submission_inv (sub : value) :
  is_submission sub = true ->
  exists d m, sub = VDict d /\ Dict.get d "issue_number" = Some (VInt m).
Proof.
  unfold is_submission, issue_of. destruct sub as [ | | | | |d]; try discriminate.
  destruct (Dict.get d "issue_number") as [[ | | m | | | ]|] eqn:E;
    try discriminate.
  intros _. now exists d, m.
Qed.

Lemma has_issue_dict (d : list (string * value)) (m n : Z) :
  Dict.get d "issue_number" = Some (VInt m) ->
  has_issue n (VDict d) = (m =? n).
Proof. intro E. unfold has_issue, issue_of. now rewrite E. Qed.

Lemma load_leaderboard_eq (w : world) :
  load_leaderboard w =
  match file w with
  | Some s =>
      match Json.loads s with
      | Some v => (Return v, w)
      | None => (Raise JSONDecodeError, w)
      end
  | None => (Return empty_leaderboard, w)
  end.
Proof.
  unfold load_leaderboard, bind, path_exists, read_file, or_raise, ret, raise.
  destruct w as [[s|] k out]; cbn; [destruct (Json.loads s) |]; reflexivity.
Qed.

(** Whether [load_leaderboard] returns [lb] is a matter of the file. *)
Lemma holds_file (w w' : world) (lb : value) :
  file w = file w' -> holds w lb -> holds w' lb.
Proof.
  unfold holds. rewrite !load_leaderboard_eq. intros <-.
  destruct (file w) as [s|]; [destruct (Json.loads s) |]; congruence.
Qed.

(** What was saved is what is loaded. *)
Lemma holds_saved (w : world) (lb : value) (line : string) :
  valid lb -> holds (saved w lb line) lb.
Proof.
  intro Hv. unfold holds. rewrite load_leaderboard_eq. unfold saved.
  cbn [file]. now rewrite loads_dumps.
Qed.

Lemma holds_printed (w : world) (lb : value) (line : string) :
  holds w lb -> holds (printed w line) lb.
Proof. apply holds_file. reflexivity. Qed.

Lemma store_with_submissions (lb : value) (subs subs' : list value) :
  store lb subs ->
  Forall valid subs' ->
  forallb is_submission subs' = true ->
  store (with_submissions lb subs') subs'.
Proof.
  intros (Hv & (top & -> & Hg) & _) Hv' Hs. unfold store, with_submissions.
  split; [|split].
  - apply valid_dict_set; [exact Hv | now apply valid_list].
  - eexists. split; [reflexivity | apply dict_get_set_same].
  - exact Hs.
Qed.

Lemma store_valid_subs (lb : value) (subs : list value) :
  store lb subs -> Forall valid subs.
Proof.
  intros (Hv & (top & -> & Hg) & _). apply valid_list.
  eapply valid_dict_get; eauto.
Qed.

(* ================================================================== *)
(** * The operations, step by step *)
(* ================================================================== *)

Lemma find_existing_spec (n : Z) (l : list value) :
  forallb is_submission l = true ->
  forall i w, find_existing n i l w = (Return (index_from n i l), w).
Proof.
  induction l as [|sub l IH]; intros H i w; [reflexivity|].
  cbn [forallb] in H. apply andb_prop in H as [Hs Hl].
  destruct (is_submission_inv sub Hs) as (d & m & -> & E).
  cbn [find_existing index_from]. rewrite (has_issue_dict d m n E).
  unfold bind, Op.getitem, or_raise. rewrite E. cbn [ret Py.eq_int].
  destruct (m =? n); [reflexivity | now apply IH].
Qed.

Lemma get_accuracy_value_dict (d : list (string * value)) (w : world) :
  get_accuracy_value (VDict d) w = (Return (rank_key (VDict d)), w).
Proof.
  unfold get_accuracy_value, rank_key, bind, Op.get, ret.
  destruct (Py.eq_str _ _); [reflexivity|].
  destruct (Num.py_float _) as [val|]; [|reflexivity].
  destruct (Float.gtb _ _); reflexivity.
Qed.

Lemma get_accuracy_value_submission (sub : value) (w : world) :
  is_submission sub = true ->
  get_accuracy_value sub w = (Return (rank_key sub), w).
Proof.
  intro H. destruct (is_submission_inv sub H) as (d & m & -> & _).
  apply get_accuracy_value_dict.
Qed.

Lemma mapM_rank_key (l : list value) (w : world) :
  forallb is_submission l = true ->
  mapM get_accuracy_value l w = (Return (List.map rank_key l), w).
Proof.
  induction l as [|sub l IH]; intro H; [reflexivity|].
  cbn [forallb] in H. apply andb_prop in H as [Hs Hl].
  cbn [mapM List.map].
  rewrite (bind_return _ _ w w (rank_key sub))
    by now apply get_accuracy_value_submission.
  rewrite (bind_return _ _ w w (List.map rank_key l)) by now apply IH.
  reflexivity.
Qed.

Lemma sort_by_accuracy_spec (l : list value) (w : world) :
  forallb is_submission l = true ->
  sort_by_accuracy (VList l) w = (Return (VList (sorted_by_accuracy l)), w).
Proof.
  intro H. unfold sort_by_accuracy.
  rewrite (bind_return _ _ w w (List.map rank_key l)) by now apply mapM_rank_key.
  reflexivity.
Qed.

(** ** Where the issue is *)

Lemma index_from_some (n : Z) (l : list value) :
  forall i j,
    index_from n i l = Some j ->
    exists k, j = (i + k)%nat /\ (k < List.length l)%nat
              /\ has_issue n (nth k l VNone) = true.
Proof.
  induction l as [|sub l IH]; intros i j; cbn [index_from]; [discriminate|].
  destruct (has_issue n sub) eqn:E.
  - intros [= <-]. exists 0%nat. cbn. repeat split; [lia | lia | exact E].
  - intro H. destruct (IH _ _ H) as (k & -> & Hk & Hn).
    exists (S k). cbn. repeat split; [lia | lia | exact Hn].
Qed.

Lemma index_from_none (n : Z) (l : list value) :
  forall i, index_from n i l = None <-> forallb (fun sub => negb (has_issue n sub)) l = true.
Proof.
  induction l as [|sub l IH]; intro i; cbn [index_from forallb]; [tauto|].
  destruct (has_issue n sub); cbn; [split; discriminate | apply IH].
Qed.

Lemma has_issue_submission (n : Z) (sub : value) :
  has_issue n sub = true -> is_submission sub = true.
Proof.
  unfold has_issue, is_submission. now destruct (issue_of sub).
Qed.

Lemma has_issue_iff (n : Z) (sub : value) :
  has_issue n sub = true <-> issue_of sub = Some n.
Proof.
  unfold has_issue. destruct (issue_of sub) as [m|]; [|split; discriminate].
  rewrite Z.eqb_eq. split; congruence.
Qed.

(** ** The new entry *)

Lemma new_submission_valid now n author url data :
  valid (VDict (new_submission now n author url data)).
Proof.
  apply valid_dict. split.
  - cbn. repeat constructor; cbn; intuition discriminate.
  - repeat constructor.
Qed.

Lemma flagged_valid now n author url data flag :
  valid flag ->
  valid (VDict (Dict.set (new_submission now n author url data)
                  "verified" flag)).
Proof.
  intro H. apply valid_dict_set; [apply new_submission_valid | exact H].
Qed.

Lemma carried_flag_valid (old : value) : valid old -> valid (carried_flag old).
Proof.
  destruct old as [ | | | | |d]; cbn [carried_flag]; try (intros; exact I).
  intro H. now apply valid_get_default.
Qed.

(** ** Lists *)

Lemma list_set_forall (P : value -> Prop) (l : list value) (i : nat) (x : value) :
  Forall P l -> P x -> Forall P (Op.list_set l i x).
Proof.
  intros Hl Hx. revert i. induction Hl as [|y l Hy Hl IH]; intro i.
  - destruct i; constructor.
  - destruct i; cbn; constructor; auto.
Qed.

Lemma forallb_Forall (p : value -> bool) (l : list value) :
  forallb p l = true <-> Forall (fun x => p x = true) l.
Proof. rewrite forallb_forall, Forall_forall. reflexivity. Qed.

Lemma Forall_nth_default (P : value -> Prop) (l : list value) (i : nat) (d : value) :
  Forall P l -> (i < List.length l)%nat -> P (nth i l d).
Proof.
  intros H Hi. rewrite Forall_forall in H. apply H. now apply nth_In.
Qed.

(** ** Sorting permutes *)

Lemma insert_desc_perm {A : Type} (x : Float.t * A) (l : list (Float.t * A)) :
  Permutation (insert_desc x l) (x :: l).
Proof.
  induction l as [|y l IH]; cbn [insert_desc]; [reflexivity|].
  destruct (Float.ltb (fst x) (fst y)); [|reflexivity].
  rewrite IH. apply perm_swap.
Qed.

Lemma sort_desc_perm {A : Type} (l : list (Float.t * A)) :
  Permutation (sort_desc l) l.
Proof.
  induction l as [|x l IH]; cbn [sort_desc fold_right]; [reflexivity|].
  rewrite insert_desc_perm. now constructor.
Qed.

Lemma map_snd_combine {A B : Type} (f : B -> A) (l : list B) :
  List.map snd (combine (List.map f l) l) = l.
Proof.
  induction l as [|x l IH]; cbn; [reflexivity | now rewrite IH].
Qed.

Lemma sorted_by_accuracy_perm (l : list value) :
  Permutation (sorted_by_accuracy l) l.
Proof.
  unfold sorted_by_accuracy.
  rewrite sort_desc_perm. now rewrite map_snd_combine.
Qed.

(* ================================================================== *)
(** * The operations on a store *)
(* ================================================================== *)

Lemma getitem_submissions (lb : value) (subs : list value) (w : world) :
  store lb subs ->
  Op.getitem lb "submissions" w = (Return (VList subs), w).
Proof.
  intros (_ & (top & -> & Hg) & _). unfold Op.getitem, or_raise.
  now rewrite Hg.
Qed.

Lemma setitem_submissions (lb : value) (subs subs' : list value) (w : world) :
  store lb subs ->
  Op.setitem lb "submissions" (VList subs') w
  = (Return (with_submissions lb subs'), w).
Proof. intros (_ & (top & -> & _) & _). reflexivity. Qed.

Lemma save_print (lb : value) (line : string) (w : world) :
  (save_leaderboard lb ;; print line ;; ret true) w
  = (Return true, saved w lb line).
Proof. reflexivity. Qed.

(** ** [update_leaderboard] *)

Lemma merged_submissions now n author body url (subs : list value) :
  forallb is_submission subs = true ->
  forallb is_submission (merged now n author body url subs) = true.
Proof.
  intro H. unfold merged. destruct (index_from n 0 subs) as [i|].
  - apply forallb_Forall. apply list_set_forall.
    + now apply forallb_Forall.
    + reflexivity.
  - rewrite forallb_app, H. reflexivity.
Qed.

Lemma merged_valid now n author body url (subs : list value) :
  Forall valid subs -> Forall valid (merged now n author body url subs).
Proof.
  intro H. unfold merged. destruct (index_from n 0 subs) as [i|] eqn:E.
  - apply list_set_forall; [exact H|].
    apply flagged_valid, carried_flag_valid.
    destruct (index_from_some _ _ _ _ E) as (k & -> & Hk & _).
    now apply Forall_nth_default.
  - apply Forall_app. split; [exact H|].
    constructor; [apply new_submission_valid | constructor].
Qed.

Lemma merge_step now n author body url (subs : list value) (w : world) :
  forallb is_submission subs = true ->
  match index_from n 0 subs with
  | Some i =>
      replace_existing (VList subs) i
        (new_submission now n author url (parse_issue_body body))
  | None =>
      Op.append (VList subs)
        (VDict (new_submission now n author url (parse_issue_body body)))
  end w
  = (Return (VList (merged now n author body url subs)), w).
Proof.
  intro H. unfold merged. destruct (index_from n 0 subs) as [i|] eqn:E;
    [|reflexivity].
  destruct (index_from_some _ _ _ _ E) as (k & -> & Hk & Hn).
  cbn [Nat.add] in *. apply has_issue_submission in Hn.
  destruct (is_submission_inv _ Hn) as (d & m & Ed & _).
  unfold replace_existing, bind, Op.get. rewrite Ed. reflexivity.
Qed.

Theorem update_leaderboard_spec (w : world) (lb : value) (subs : list value)
        (now : string) (n : Z) (title author body url : string) :
  holds w lb ->
  store lb subs ->
  update_leaderboard now n title author body url w
  = (Return true,
     saved w (with_submissions lb (updated now n author body url subs))
       ("Updated leaderboard with issue #" ++ Py.repr_int n)).
Proof.
  intros Hh Hs. pose proof Hs as (_ & _ & Hsub).
  unfold update_leaderboard.
  rewrite (bind_return _ _ w w lb) by exact Hh.
  rewrite (bind_return _ _ w w (VList subs)) by now apply getitem_submissions.
  rewrite (bind_return _ _ w w subs) by reflexivity.
  rewrite (bind_return _ _ w w (index_from n 0 subs))
    by now apply find_existing_spec.
  rewrite (bind_return _ _ w w (VList (merged now n author body url subs)))
    by now apply merge_step.
  rewrite (bind_return _ _ w w (VList (updated now n author body url subs)))
    by now apply sort_by_accuracy_spec, merged_submissions.
  rewrite (bind_return _ _ w w
             (with_submissions lb (updated now n author body url subs)))
    by now apply (setitem_submissions lb subs).
  apply save_print.
Qed.

Lemma updated_submissions now n author body url (subs : list value) :
  forallb is_submission subs = true ->
  forallb is_submission (updated now n author body url subs) = true.
Proof.
  intro H. apply forallb_Forall. unfold updated.
  rewrite sorted_by_accuracy_perm.
  now apply forallb_Forall, merged_submissions.
Qed.

Lemma updated_valid now n author body url (subs : list value) :
  Forall valid subs -> Forall valid (updated now n author body url subs).
Proof.
  intro H. unfold updated. rewrite sorted_by_accuracy_perm.
  now apply merged_valid.
Qed.

Lemma store_updated now n author body url (lb : value) (subs : list value) :
  store lb subs ->
  store (with_submissions lb (updated now n author body url subs))
    (updated now n author body url subs).
Proof.
  intro Hs. apply (store_with_submissions lb subs); [exact Hs | |].
  - apply updated_valid. eapply store_valid_subs, Hs.
  - apply updated_submissions, Hs.
Qed.

(** ** [mark_verified] *)

Lemma verify_first_spec (n : Z) (l : list value) (w : world) :
  forallb is_submission l = true ->
  verify_first n l w = (Return (verified_first n l), w).
Proof.
  induction l as [|sub l IH]; intro H; [reflexivity|].
  cbn [forallb] in H. apply andb_prop in H as [Hs Hl].
  destruct (is_submission_inv sub Hs) as (d & m & -> & E).
  cbn [verify_first verified_first]. rewrite (has_issue_dict d m n E).
  unfold bind at 1. unfold Op.getitem, or_raise. rewrite E. cbn [ret Py.eq_int].
  destruct (m =? n); [reflexivity|].
  rewrite (bind_return _ _ w w (verified_first n l)) by now apply IH.
  reflexivity.
Qed.

Theorem mark_verified_spec (w : world) (lb : value) (subs : list value) (n : Z) :
  holds w lb ->
  store lb subs ->
  mark_verified n w =
  match verified_first n subs with
  | Some subs' =>
      (Return true,
       saved w (with_submissions lb subs')
         ("Marked issue #" ++ Py.repr_int n ++ " as verified"))
  | None => (Return false, printed w (not_found n))
  end.
Proof.
  intros Hh Hs. pose proof Hs as (_ & _ & Hsub).
  unfold mark_verified.
  rewrite (bind_return _ _ w w lb) by exact Hh.
  rewrite (bind_return _ _ w w (VList subs)) by now apply getitem_submissions.
  rewrite (bind_return _ _ w w subs) by reflexivity.
  rewrite (bind_return _ _ w w (verified_first n subs))
    by now apply verify_first_spec.
  destruct (verified_first n subs) as [subs'|]; [|reflexivity].
  rewrite (bind_return _ _ w w (with_submissions lb subs'))
    by now apply (setitem_submissions lb subs).
  reflexivity.
Qed.

(** ** [remove_submission] *)

Lemma others_spec (n : Z) (l : list value) (w : world) :
  forallb is_submission l = true ->
  others n l w = (Return (removed n l), w).
Proof.
  induction l as [|sub l IH]; intro H; [reflexivity|].
  cbn [forallb] in H. apply andb_prop in H as [Hs Hl].
  destruct (is_submission_inv sub Hs) as (d & m & -> & E).
  cbn [others]. unfold removed. cbn [filter]. rewrite (has_issue_dict d m n E).
  unfold bind at 1. unfold Op.getitem, or_raise. rewrite E. cbn [ret].
  rewrite (bind_return _ _ w w (removed n l)) by now apply IH.
  reflexivity.
Qed.

Theorem remove_submission_spec (w : world) (lb : value) (subs : list value)
        (n : Z) :
  holds w lb ->
  store lb subs ->
  remove_submission n w =
  if (List.length (removed n subs) <? List.length subs)%nat
  then (Return true,
        saved w (with_submissions lb (removed n subs))
          ("Removed submission for issue #" ++ Py.repr_int n))
  else (Return false, printed w (not_found n)).
Proof.
  intros Hh Hs. pose proof Hs as (_ & _ & Hsub).
  unfold remove_submission.
  rewrite (bind_return _ _ w w lb) by exact Hh.
  rewrite (bind_return _ _ w w (VList subs)) by now apply getitem_submissions.
  rewrite (bind_return _ _ w w (List.length subs)) by reflexivity.
  rewrite (bind_return _ _ w w subs) by reflexivity.
  rewrite (bind_return _ _ w w (removed n subs)) by now apply others_spec.
  rewrite (bind_return _ _ w w (with_submissions lb (removed n subs)))
    by now apply (setitem_submissions lb subs).
  destruct (List.length (removed n subs) <? List.length subs)%nat; reflexivity.
Qed.

(* ================================================================== *)
(** * Issue numbers of a collection *)
(* ================================================================== *)

Lemma issues_app (l1 l2 : list value) :
  issues (l1 ++ l2) = (issues l1 ++ issues l2)%list.
Proof. apply flat_map_app. Qed.

Lemma issues_cons (sub : value) (l : list value) (n : Z) :
  issue_of sub = Some n -> issues (sub :: l) = n :: issues l.
Proof. intro E. unfold issues. cbn [flat_map]. now rewrite E. Qed.

Lemma in_issues (n : Z) (l : list value) :
  In n (issues l) <-> exists sub, In sub l /\ issue_of sub = Some n.
Proof.
  unfold issues. rewrite in_flat_map. split; intros (sub & Hin & H); exists sub;
    (split; [exact Hin|]).
  - destruct (issue_of sub) as [m|]; [|contradiction].
    destruct H as [->|[]]. reflexivity.
  - rewrite H. now left.
Qed.

Lemma issues_perm (l l' : list value) :
  Permutation l l' -> Permutation (issues l) (issues l').
Proof. apply Permutation_flat_map. Qed.

Lemma no_issue_iff (n : Z) (l : list value) :
  forallb (other_issue n) l = true <-> ~ In n (issues l).
Proof.
  rewrite forallb_forall, in_issues. unfold other_issue. split.
  - intros H (sub & Hin & E). specialize (H sub Hin).
    apply has_issue_iff in E. rewrite E in H. discriminate.
  - intros H sub Hin. destruct (has_issue n sub) eqn:E; [|reflexivity].
    exfalso. apply H. exists sub. split; [exact Hin | now apply has_issue_iff].
Qed.

(** The collection around the first Submission of an issue. *)
Lemma first_issue_split (n : Z) (l : list value) :
  (exists l1 old l2,
      l = (l1 ++ old :: l2)%list /\ has_issue n old = true
      /\ forallb (other_issue n) l1 = true)
  \/ forallb (other_issue n) l = true.
Proof.
  induction l as [|sub l IH]; [now right|].
  destruct (has_issue n sub) eqn:E.
  - left. exists [], sub, l. auto.
  - destruct IH as [(l1 & old & l2 & -> & Ho & Hl)|Hl].
    + left. exists (sub :: l1), old, l2. repeat split; [exact Ho|].
      cbn [forallb]. unfold other_issue at 1. now rewrite E.
    + right. cbn [forallb]. unfold other_issue at 1. now rewrite E.
Qed.

Section AroundTheIssue.
Variables (n : Z) (l1 l2 : list value) (old : value).
Hypothesis Hold : has_issue n old = true.
Hypothesis Hl1 : forallb (other_issue n) l1 = true.

Lemma index_from_split (i : nat) :
  index_from n i (l1 ++ old :: l2) = Some (i + List.length l1)%nat.
Proof.
  revert i. induction l1 as [|x l IH]; intro i; cbn [app index_from List.length].
  - rewrite Hold. f_equal. lia.
  - cbn [forallb] in Hl1. apply andb_prop in Hl1 as [Hx Hl].
    unfold other_issue in Hx. destruct (has_issue n x); [discriminate|].
    rewrite IH by exact Hl. f_equal. lia.
Qed.

Lemma find_issue_split : find_issue n (l1 ++ old :: l2) = Some old.
Proof.
  unfold find_issue. change (fun sub => match issue_of sub with
                                        | Some m => m =? n
                                        | None => false
                                        end) with (has_issue n).
  induction l1 as [|x l IH]; cbn [app find].
  - now rewrite Hold.
  - cbn [forallb] in Hl1. apply andb_prop in Hl1 as [Hx Hl].
    unfold other_issue in Hx. destruct (has_issue n x); [discriminate|].
    now apply IH.
Qed.

Lemma nth_split : nth (List.length l1) (l1 ++ old :: l2) VNone = old.
Proof. rewrite app_nth2, Nat.sub_diag; [reflexivity | lia]. Qed.

Lemma list_set_split (x : value) :
  Op.list_set (l1 ++ old :: l2) (List.length l1) x = (l1 ++ x :: l2)%list.
Proof.
  clear Hl1. induction l1 as [|y l IH]; cbn; [reflexivity | now rewrite IH].
Qed.

Lemma verified_first_split (d : list (string * value)) :
  old = VDict d ->
  verified_first n (l1 ++ old :: l2)
  = Some (l1 ++ VDict (Dict.set d "verified" (VBool true)) :: l2)%list.
Proof.
  intros ->. induction l1 as [|x l IH]; cbn [app verified_first].
  - now rewrite Hold.
  - cbn [forallb] in Hl1. apply andb_prop in Hl1 as [Hx Hl].
    unfold other_issue in Hx. destruct (has_issue n x); [discriminate|].
    now rewrite IH.
Qed.

Lemma issues_split : issues (l1 ++ old :: l2) = (issues l1 ++ n :: issues l2)%list.
Proof.
  rewrite issues_app. f_equal. apply issues_cons. now apply has_issue_iff.
Qed.

(** Where the issue occurs once, the entries of the issue in the
    collection with [x] for [old] are [x] alone. *)
Lemma only_the_new (x sub : value) :
  NoDup (issues (l1 ++ old :: l2)) ->
  In sub (l1 ++ x :: l2) ->
  issue_of sub = Some n ->
  sub = x.
Proof.
  rewrite issues_split. intros Hnd Hin E.
  apply NoDup_remove_2 in Hnd.
  apply in_app_or in Hin as [Hin|[Hx|Hin]]; [ | now symmetry | ];
    exfalso; apply Hnd, in_or_app; [left | right];
    apply in_issues; exists sub; auto.
Qed.
End AroundTheIssue.

Lemma verified_first_none (n : Z) (l : list value) :
  forallb (other_issue n) l = true -> verified_first n l = None.
Proof.
  induction l as [|x l IH]; [reflexivity|].
  cbn [forallb verified_first]. intro H. apply andb_prop in H as [Hx Hl].
  unfold other_issue in Hx. destruct (has_issue n x); [discriminate|].
  now rewrite IH.
Qed.

Lemma removed_none (n : Z) (l : list value) :
  forallb (other_issue n) l = true -> removed n l = l.
Proof.
  unfold removed. induction l as [|x l IH]; [reflexivity|].
  cbn [forallb filter]. intro H. apply andb_prop in H as [Hx Hl].
  unfold other_issue in Hx. rewrite Hx. now rewrite IH.
Qed.

Lemma issues_removed (n : Z) (l : list value) :
  issues (removed n l) = filter (fun m => negb (m =? n)) (issues l).
Proof.
  unfold removed. induction l as [|x l IH]; [reflexivity|].
  cbn [filter]. unfold has_issue at 1, issues at 2. cbn [flat_map].
  destruct (issue_of x) as [m|] eqn:E.
  - cbn [app filter]. destruct (m =? n); cbn [negb].
    + exact IH.
    + rewrite (issues_cons _ _ _ E). now rewrite IH.
  - cbn [negb app]. unfold issues at 1. cbn [flat_map]. rewrite E.
    exact IH.
Qed.

Lemma issue_of_set_verified (d : list (string * value)) (x : value) :
  issue_of (VDict (Dict.set d "verified" x)) = issue_of (VDict d).
Proof.
  unfold issue_of. now rewrite dict_get_set_other by discriminate.
Qed.

(** ** The collection after an update *)

Lemma merged_issues now n author body url (subs : list value) :
  NoDup (issues subs) ->
  NoDup (issues (merged now n author body url subs))
  /\ In n (issues (merged now n author body url subs)).
Proof.
  intro Hnd. unfold merged.
  destruct (first_issue_split n subs) as [(l1 & old & l2 & -> & Ho & Hl)|Hl].
  - rewrite (index_from_split n l1 l2 old Ho Hl). cbn [Nat.add].
    rewrite list_set_split.
    rewrite (issues_split n l1 l2 old Ho) in Hnd.
    rewrite issues_app, (issues_cons _ _ n) by reflexivity.
    split; [exact Hnd | apply in_or_app; right; now left].
  - rewrite (proj2 (index_from_none n subs 0)) by exact Hl.
    rewrite issues_app, (issues_cons _ _ n) by reflexivity.
    cbn [issues flat_map]. split.
    + apply NoDup_app; [exact Hnd | repeat constructor; cbn; tauto |].
      intros a Ha [<-|[]]. now apply (no_issue_iff n subs).
    + apply in_or_app. right. now left.
Qed.

Lemma updated_issues now n author body url (subs : list value) :
  NoDup (issues subs) ->
  NoDup (issues (updated now n author body url subs))
  /\ In n (issues (updated now n author body url subs)).
Proof.
  intro Hnd. destruct (merged_issues now n author body url subs Hnd) as [H1 H2].
  pose proof (issues_perm _ _
                (sorted_by_accuracy_perm (merged now n author body url subs)))
    as Hp.
  unfold updated. split.
  - eapply Permutation_NoDup; [symmetry; exact Hp | exact H1].
  - eapply Permutation_in; [symmetry; exact Hp | exact H2].
Qed.

(** The entry of the issue after an update carries the flag of the
    entry it replaced. *)
Lemma updated_flag now n author body url (subs : list value) (old sub : value) :
  NoDup (issues subs) ->
  find_issue n subs = Some old ->
  In sub (updated now n author body url subs) ->
  issue_of sub = Some n ->
  field sub "verified" = Some (carried_flag old).
Proof.
  intros Hnd Hf Hin E.
  unfold updated in Hin.
  apply (Permutation_in _ (sorted_by_accuracy_perm _)) in Hin.
  unfold merged in Hin.
  destruct (first_issue_split n subs) as [(l1 & x & l2 & -> & Ho & Hl)|Hl].
  - rewrite (find_issue_split n l1 l2 x Ho Hl) in Hf. injection Hf as ->.
    rewrite (index_from_split n l1 l2 old Ho Hl) in Hin. cbn [Nat.add] in Hin.
    rewrite nth_split, list_set_split in Hin.
    rewrite (only_the_new n l1 l2 old Ho _ sub Hnd Hin E). reflexivity.
  - exfalso. apply no_issue_iff in Hl.
    apply find_some in Hf as [Hin' Hn]. apply Hl, in_issues.
    exists old. split; [exact Hin'|].
    destruct (issue_of old) as [m|]; [|discriminate].
    apply Z.eqb_eq in Hn. now subst.
Qed.

Lemma find_issue_inv (n : Z) (l : list value) (old : value) :
  find_issue n l = Some old ->
  exists l1 l2,
    l = (l1 ++ old :: l2)%list /\ has_issue n old = true
    /\ forallb (other_issue n) l1 = true.
Proof.
  intro Hf.
  destruct (first_issue_split n l) as [(l1 & x & l2 & -> & Ho & Hl)|Hl].
  - rewrite (find_issue_split n l1 l2 x Ho Hl) in Hf. injection Hf as ->.
    now exists l1, l2.
  - exfalso. apply no_issue_iff in Hl.
    apply find_some in Hf as [Hin Hn]. apply Hl, in_issues.
    exists old. split; [exact Hin|].
    destruct (issue_of old) as [m|]; [|discriminate].
    apply Z.eqb_eq in Hn. now subst.
Qed.

(* ================================================================== *)
(** * The parser never returns two lines *)
(* ================================================================== *)

Module ParserFacts.

Lemma star_greedy_some {R : Type} (p : ascii -> bool) (s : string)
      (k : string -> option R) (r : R) :
  star_greedy p s k = Some r -> exists s', k s' = Some r.
Proof.
  induction s as [|c s IH]; cbn [star_greedy]; [eauto|].
  destruct (p c); [|eauto].
  destruct (star_greedy p s k) eqn:E; [|eauto].
  intros [= ->]. now apply IH.
Qed.

(** The lazy repetition stops at the first end of line: what it
    takes, after its first character, has no line feed. *)
Lemma plus_lazy_one_line {R : Type} (k : string -> option R) :
  (forall s, at_eol s = true -> k s <> None) ->
  forall s r,
    plus_lazy (in_class CAny) s k = Some r ->
    exists c t s',
      s = String c (t ++ s') /\ k s' = Some r /\ one_line t.
Proof.
  unfold one_line. intros Hk.
  induction s as [|c s IH]; cbn [plus_lazy in_class];
    [discriminate|].
  intros r. destruct (k s) as [x|] eqn:E.
  - intros [= ->]. exists c, "", s. auto.
  - intro H. destruct (IH r H) as (c' & t & s' & -> & Hs' & Ht).
    exists c, (String c' t), s'. repeat split; [exact Hs'|].
    cbn [Str.contains]. rewrite Ht, orb_false_r.
    destruct (Ascii.eqb c' LF) eqn:Ec; [|reflexivity].
    exfalso. apply (Hk (String c' (t ++ s'))); [exact Ec | exact E].
Qed.

Lemma take_append (c : ascii) (t s' : string) :
  Str.take (String.length (String c (t ++ s')) - String.length s')
    (String c (t ++ s'))
  = String c t.
Proof.
  replace (String.length (String c (t ++ s')) - String.length s')%nat
    with (S (String.length t))
    by (cbn [String.length]; rewrite length_append; lia).
  cbn [Str.take]. f_equal.
  induction t as [|a t IH]; cbn; [now destruct s' | now rewrite IH].
Qed.

Lemma value_end_at_eol (s : string) (g : option string) :
  at_eol s = true ->
  rmatch (option string) value_end s g (fun _ g' => Some g') <> None.
Proof.
  intro H. unfold value_end. cbn [rmatch]. rewrite H.
  destruct (drop_prefix (nl ++ "###") s);
    [discriminate | destruct (drop_prefix (nl ++ nl ++ "###") s)];
    discriminate.
Qed.

Lemma value_end_group (s : string) (g g' : option string) :
  rmatch (option string) value_end s g (fun _ x => Some x) = Some g' ->
  g' = g.
Proof.
  unfold value_end. cbn [rmatch].
  destruct (drop_prefix (nl ++ "###") s);
    [| destruct (drop_prefix (nl ++ nl ++ "###") s);
       [| destruct (at_eol s)]];
    congruence.
Qed.

(** Group 1 of a match of [after_heading]: a character, then text
    without a line feed. *)
Lemma after_heading_group (s : string) (g : option string) :
  rmatch (option string) after_heading s None (fun _ x => Some x) = Some g ->
  exists c t, g = Some (String c t) /\ one_line t.
Proof.
  unfold after_heading. cbn [rmatch]. intro H.
  apply star_greedy_some in H as (s1 & H).
  destruct s1 as [|a s1]; [discriminate|].
  destruct (in_class (CChar LF) a); [|discriminate].
  apply star_greedy_some in H as (s2 & H).
  apply plus_lazy_one_line in H.
  - destruct H as (c & t & s' & -> & H & Ht).
    apply value_end_group in H. subst g. rewrite take_append. eauto.
  - intros s3 Hs3. apply value_end_at_eol, Hs3.
Qed.

Lemma search_heading_group (h s : string) (g : option string) :
  search (Seq (Lit h) after_heading) s = Some g ->
  exists c t, g = Some (String c t) /\ one_line t.
Proof.
  induction s as [|a s IH]; cbn [search]; unfold match_here;
    cbn [rmatch].
  - destruct (drop_prefix h "") as [s'|];
      [destruct (rmatch _ after_heading s' None _) eqn:E |]; try discriminate.
    intros [= <-]. eapply after_heading_group, E.
  - destruct (drop_prefix h (String a s)) as [s'|].
    + destruct (rmatch _ after_heading s' None _) eqn:E.
      * intros [= <-]. eapply after_heading_group, E.
      * exact IH.
    + exact IH.
Qed.

(** ** Stripping *)

Lemma lstrip_one_line (s : string) : one_line s -> one_line (Str.lstrip s).
Proof.
  unfold one_line.
  induction s as [|c s IH]; cbn [Str.lstrip]; [reflexivity|].
  destruct (Str.is_space c); [|tauto].
  cbn [Str.contains]. intro H. apply orb_false_elim in H as [_ H].
  now apply IH.
Qed.

Lemma rstrip_one_line (s : string) : one_line s -> one_line (Str.rstrip s).
Proof.
  unfold one_line.
  induction s as [|c s IH]; cbn [Str.rstrip Str.contains]; [reflexivity|].
  intro H. apply orb_false_elim in H as [Hc H]. specialize (IH H).
  destruct (Str.rstrip s) as [|a r].
  - destruct (Str.is_space c); cbn [Str.contains]; [reflexivity|].
    now rewrite Hc.
  - cbn [Str.contains] in *. now rewrite Hc.
Qed.

Lemma strip_one_line (s : string) : one_line s -> one_line (Str.strip s).
Proof. intro H. now apply rstrip_one_line, lstrip_one_line. Qed.

Lemma strip_group (c : ascii) (t : string) :
  one_line t -> one_line (Str.strip (String c t)).
Proof.
  intro Ht. destruct (Str.is_space c) eqn:Ec.
  - unfold Str.strip. cbn [Str.lstrip]. rewrite Ec.
    now apply rstrip_one_line, lstrip_one_line.
  - apply strip_one_line. unfold one_line in *.
    cbn [Str.contains]. rewrite Ht, orb_false_r.
    destruct (Ascii.eqb_spec c LF) as [->|]; [discriminate Ec | reflexivity].
Qed.

(** ** The dictionary of the parser *)

Lemma dict_set_one_line (data : Dict.t string) (k v : string) :
  Forall (fun kv => one_line (snd kv)) data -> one_line v -> Forall (fun kv => one_line (snd kv)) (Dict.set data k v).
Proof.
  intros Hd Hv. induction Hd as [|[k' v'] d Hkv Hd IH]; cbn [Dict.set].
  - repeat constructor. exact Hv.
  - destruct (String.eqb k' k); constructor; assumption.
Qed.

Lemma parse_field_one_line (body : string) (data : Dict.t string)
      (h key : string) :
  Forall (fun kv => one_line (snd kv)) data ->
  Forall (fun kv => one_line (snd kv))
    (parse_field body data (key, Seq (Lit h) after_heading)).
Proof.
  intro Hd. unfold parse_field.
  destruct (search _ body) as [[g|]|] eqn:E; try exact Hd.
  destruct (search_heading_group h body _ E) as (c & t & [= ->] & Ht).
  destruct (_ && _); [|exact Hd].
  apply dict_set_one_line; [exact Hd | now apply strip_group].
Qed.

(** No value the parser returns has a line feed in it: a value is cut
    at the end of its first line. *)
Theorem parsed_values_are_one_line (body key v : string) :
  Dict.get (parse_issue_body body) key = Some v -> one_line v.
Proof.
  intro H. apply dict_get_in in H.
  assert (Hall : Forall (fun kv => one_line (snd kv)) (parse_issue_body body)).
  { unfold parse_issue_body, patterns. cbn [fold_left].
    repeat apply parse_field_one_line. constructor. }
  rewrite Forall_forall in Hall.
  exact (Hall _ H).
Qed.

End ParserFacts.

(* ================================================================== *)
(** * Runs of the operations on a store *)
(* ================================================================== *)

(** [update_leaderboard] on a store: it succeeds, and the world holds
    the store with the updated collection. *)
Lemma update_runs (w : world) (lb : value) (subs : list value)
      (now : string) (n : Z) (title author body url : string) :
  holds w lb ->
  store lb subs ->
  exists w' lb',
    update_leaderboard now n title author body url w = (Return true, w')
    /\ holds w' lb'
    /\ store lb' (updated now n author body url subs).
Proof.
  intros Hh Hs.
  exists (saved w (with_submissions lb (updated now n author body url subs))
            ("Updated leaderboard with issue #" ++ Py.repr_int n)),
    (with_submissions lb (updated now n author body url subs)).
  pose proof (store_updated now n author body url lb subs Hs) as Hs'.
  split; [now apply update_leaderboard_spec | split; [|exact Hs']].
  apply holds_saved, Hs'.
Qed.

(** [mark_verified] on a store that has the issue: it succeeds, and the
    world holds the store with the flag set on the first entry of the
    issue. *)
Lemma mark_verified_runs (w : world) (lb : value) (n : Z)
      (l1 l2 : list value) (old : value) :
  holds w lb ->
  store lb (l1 ++ old :: l2) ->
  has_issue n old = true ->
  forallb (other_issue n) l1 = true ->
  exists w' lb' d,
    old = VDict d
    /\ mark_verified n w = (Return true, w')
    /\ holds w' lb'
    /\ store lb' (l1 ++ VDict (Dict.set d "verified" (VBool true)) :: l2).
Proof.
  intros Hh Hs Ho Hl.
  destruct (is_submission_inv old (has_issue_submission n old Ho))
    as (d & m & -> & E).
  pose proof (mark_verified_spec w lb _ n Hh Hs) as Hm.
  rewrite (verified_first_split n l1 l2 (VDict d) Ho Hl d eq_refl) in Hm.
  assert (Hs' : store
                  (with_submissions lb
                     (l1 ++ VDict (Dict.set d "verified" (VBool true)) :: l2))
                  (l1 ++ VDict (Dict.set d "verified" (VBool true)) :: l2)).
  { apply (store_with_submissions lb (l1 ++ VDict d :: l2)); [exact Hs | |].
    - pose proof (store_valid_subs _ _ Hs) as Hv.
      apply Forall_app in Hv as [H1 H2]. inversion H2 as [|? ? Hd H3]; subst.
      apply Forall_app. split; [exact H1|]. constructor; [|exact H3].
      now apply valid_dict_set.
    - destruct Hs as (_ & _ & Hb). rewrite forallb_app in Hb |- *.
      apply andb_prop in Hb as [H1 H2]. cbn [forallb] in H2 |- *.
      apply andb_prop in H2 as [H2 H3]. rewrite H1, H3.
      unfold is_submission in H2 |- *. rewrite issue_of_set_verified.
      now rewrite H2. }
  eexists _, _, d. split; [reflexivity|]. split; [exact Hm|].
  split; [|exact Hs']. apply holds_saved, Hs'.
Qed.

(** [mark_verified] and [remove_submission] on a store that has not the
    issue: a line is printed, nothing else happens. *)
Lemma unknown_issue (w : world) (lb : value) (subs : list value) (n : Z) :
  holds w lb ->
  store lb subs ->
  ~ In n (issues subs) ->
  mark_verified n w = (Return false, printed w (not_found n))
  /\ remove_submission n w = (Return false, printed w (not_found n)).
Proof.
  intros Hh Hs Hn. apply no_issue_iff in Hn. split.
  - rewrite (mark_verified_spec w lb subs n Hh Hs).
    now rewrite verified_first_none.
  - rewrite (remove_submission_spec w lb subs n Hh Hs).
    rewrite removed_none by exact Hn. now rewrite Nat.ltb_irrefl.
Qed.

Lemma removed_valid (n : Z) (subs : list value) :
  Forall valid subs -> Forall valid (removed n subs).
Proof.
  unfold removed. rewrite !Forall_forall. intros H x Hx.
  apply filter_In in Hx as [Hx _]. now apply H.
Qed.

Lemma removed_submissions (n : Z) (subs : list value) :
  forallb is_submission subs = true ->
  forallb is_submission (removed n subs) = true.
Proof.
  unfold removed. rewrite !forallb_forall. intros H x Hx.
  apply filter_In in Hx as [Hx _]. now apply H.
Qed.

Lemma removed_nodup (n : Z) (subs : list value) :
  NoDup (issues subs) -> NoDup (issues (removed n subs)).
Proof. rewrite issues_removed. apply NoDup_filter. Qed.

(* ================================================================== *)
(** * The claims on stores *)
(* ================================================================== *)

(** C8.  Saving a store and loading it again is a round trip: for every
    value whose dictionaries have no key twice, [save_leaderboard]
    followed by [load_leaderboard] returns that value, so the same
    Submissions, field for field, in the same order. *)
Theorem save_then_load (v : value) (w : world) :
  valid v ->
  exists w',
    save_leaderboard v w = (Return tt, w')
    /\ load_leaderboard w' = (Return v, w').
Proof.
  intro Hv. eexists. split; [reflexivity|].
  rewrite load_leaderboard_eq. cbn [file]. now rewrite loads_dumps.
Qed.

(** C3.  In a store where issue [n] occurs once, [update_leaderboard]
    for [n] gives the new entry the [verified] value of the entry it
    replaces; and [mark_verified n] followed by [update_leaderboard]
    for [n], whatever the new body, leaves the Submission of [n] with
    [verified] true. *)
Theorem verified_is_sticky (w : world) (lb : value) (subs : list value)
        (old : value) (now : string) (n : Z)
        (title author body url : string) :
  holds w lb ->
  store lb subs ->
  NoDup (issues subs) ->
  find_issue n subs = Some old ->
  (exists w' lb' subs',
      update_leaderboard now n title author body url w = (Return true, w')
      /\ holds w' lb' /\ store lb' subs'
      /\ In n (issues subs')
      /\ forall sub, In sub subs' -> issue_of sub = Some n ->
                     field sub "verified" = Some (carried_flag old))
  /\ (exists w1 w2 lb2 subs2,
         mark_verified n w = (Return true, w1)
         /\ update_leaderboard now n title author body url w1 = (Return true, w2)
         /\ holds w2 lb2 /\ store lb2 subs2
         /\ In n (issues subs2)
         /\ forall sub, In sub subs2 -> issue_of sub = Some n ->
                        field sub "verified" = Some (VBool true)).
Proof.
  intros Hh Hs Hnd Hf. split.
  - destruct (update_runs w lb subs now n title author body url Hh Hs)
      as (w' & lb' & Hu & Hh' & Hs').
    exists w', lb', (updated now n author body url subs).
    repeat (split; [assumption|]). split.
    + now apply updated_issues.
    + intros sub Hin E. eapply updated_flag; eassumption.
  - destruct (find_issue_inv n subs old Hf) as (l1 & l2 & -> & Ho & Hl).
    destruct (mark_verified_runs w lb n l1 l2 old Hh Hs Ho Hl)
      as (w1 & lb1 & d & -> & Hm & Hh1 & Hs1).
    set (flagged := VDict (Dict.set d "verified" (VBool true))) in *.
    assert (Ho1 : has_issue n flagged = true).
    { unfold has_issue, flagged. rewrite issue_of_set_verified. exact Ho. }
    assert (Hnd1 : NoDup (issues (l1 ++ flagged :: l2))).
    { rewrite (issues_split n l1 l2 flagged Ho1).
      now rewrite (issues_split n l1 l2 (VDict d) Ho) in Hnd. }
    destruct (update_runs w1 lb1 _ now n title author body url Hh1 Hs1)
      as (w2 & lb2 & Hu & Hh2 & Hs2).
    exists w1, w2, lb2, (updated now n author body url (l1 ++ flagged :: l2)).
    repeat (split; [assumption|]). split.
    + now apply updated_issues.
    + intros sub Hin E.
      rewrite (updated_flag now n author body url _ flagged sub Hnd1
                 (find_issue_split n l1 l2 flagged Ho1 Hl) Hin E).
      unfold flagged, carried_flag, Dict.get_default.
      now rewrite dict_get_set_same.
Qed.

(** C5.  In a store where no issue number occurs twice, each of
    [update_leaderboard], [mark_verified] and [remove_submission] runs
    to its end and leaves a store where no issue number occurs twice. *)
Theorem issue_numbers_stay_unique (w : world) (lb : value) (subs : list value) :
  holds w lb ->
  store lb subs ->
  NoDup (issues subs) ->
  (forall now n title author body url,
      exists w' lb' subs',
        update_leaderboard now n title author body url w = (Return true, w')
        /\ holds w' lb' /\ store lb' subs' /\ NoDup (issues subs'))
  /\ (forall n,
         exists r w' lb' subs',
           mark_verified n w = (Return r, w')
           /\ holds w' lb' /\ store lb' subs' /\ NoDup (issues subs'))
  /\ (forall n,
         exists r w' lb' subs',
           remove_submission n w = (Return r, w')
           /\ holds w' lb' /\ store lb' subs' /\ NoDup (issues subs')).
Proof.
  intros Hh Hs Hnd. split; [|split].
  - intros now n title author body url.
    destruct (update_runs w lb subs now n title author body url Hh Hs)
      as (w' & lb' & Hu & Hh' & Hs').
    exists w', lb', (updated now n author body url subs).
    repeat (split; [assumption|]). now apply updated_issues.
  - intro n.
    destruct (first_issue_split n subs) as [(l1 & old & l2 & -> & Ho & Hl)|Hl].
    + destruct (mark_verified_runs w lb n l1 l2 old Hh Hs Ho Hl)
        as (w1 & lb1 & d & -> & Hm & Hh1 & Hs1).
      exists true, w1, lb1,
        (l1 ++ VDict (Dict.set d "verified" (VBool true)) :: l2)%list.
      repeat (split; [assumption|]).
      assert (Ho1 : has_issue n (VDict (Dict.set d "verified" (VBool true)))
                    = true).
      { unfold has_issue. rewrite issue_of_set_verified. exact Ho. }
      rewrite (issues_split n l1 l2 _ Ho1).
      now rewrite (issues_split n l1 l2 (VDict d) Ho) in Hnd.
    + apply no_issue_iff in Hl.
      destruct (unknown_issue w lb subs n Hh Hs Hl) as [Hm _].
      exists false, (printed w (not_found n)), lb, subs.
      split; [exact Hm|]. split; [now apply holds_printed|].
      split; assumption.
  - intro n. pose proof (remove_submission_spec w lb subs n Hh Hs) as Hr.
    destruct (List.length (removed n subs) <? List.length subs)%nat.
    + assert (Hs' : store (with_submissions lb (removed n subs))
                      (removed n subs)).
      { apply (store_with_submissions lb subs); [exact Hs | |].
        - apply removed_valid. eapply store_valid_subs, Hs.
        - apply removed_submissions, Hs. }
      eexists true, _, _, (removed n subs).
      split; [exact Hr|]. split; [apply holds_saved, Hs'|].
      split; [exact Hs' | now apply removed_nodup].
    + exists false, (printed w (not_found n)), lb, subs.
      split; [exact Hr|]. split; [now apply holds_printed|].
      split; assumption.
Qed.

(** C7.  In a store where no issue number occurs twice, two calls of
    [update_leaderboard] with the same arguments (the clock may have
    moved between them) leave a store with exactly one Submission of
    that issue number. *)
Theorem resubmission_keeps_one_entry (w : world) (lb : value)
        (subs : list value) (now1 now2 : string) (n : Z)
        (title author body url : string) :
  holds w lb ->
  store lb subs ->
  NoDup (issues subs) ->
  exists w1 w2 lb2 subs2,
    update_leaderboard now1 n title author body url w = (Return true, w1)
    /\ update_leaderboard now2 n title author body url w1 = (Return true, w2)
    /\ holds w2 lb2 /\ store lb2 subs2
    /\ count_occ Z.eq_dec (issues subs2) n = 1%nat.
Proof.
  intros Hh Hs Hnd.
  destruct (update_runs w lb subs now1 n title author body url Hh Hs)
    as (w1 & lb1 & Hu1 & Hh1 & Hs1).
  destruct (updated_issues now1 n author body url subs Hnd) as [Hnd1 _].
  destruct (update_runs w1 lb1 _ now2 n title author body url Hh1 Hs1)
    as (w2 & lb2 & Hu2 & Hh2 & Hs2).
  destruct (updated_issues now2 n author body url _ Hnd1) as [Hnd2 Hin2].
  exists w1, w2, lb2, (updated now2 n author body url
                          (updated now1 n author body url subs)).
  repeat (split; [assumption|]).
  now apply NoDup_count_occ'.
Qed.

(** C6.  In a store without a Submission of issue [n], [mark_verified n]
    and [remove_submission n] return [False] after printing that the
    issue was not found: the file is as it was, nothing was written,
    no exception is raised, and from the command line the process ends
    with status 0. *)
Theorem unknown_issue_is_a_no_op (w : world) (lb : value)
        (subs : list value) (n : Z) :
  holds w lb ->
  store lb subs ->
  ~ In n (issues subs) ->
  mark_verified n w
  = (Return false, World (file w) (writes w) (stdout w ++ [not_found n]))
  /\ remove_submission n w
     = (Return false, World (file w) (writes w) (stdout w ++ [not_found n]))
  /\ forall now prog s,
      Num.py_int s = Some n ->
      exit_status (fst (main now [prog; "verify"; s] w)) = 0
      /\ exit_status (fst (main now [prog; "remove"; s] w)) = 0.
Proof.
  intros Hh Hs Hn.
  destruct (unknown_issue w lb subs n Hh Hs Hn) as [Hm Hr].
  split; [exact Hm | split; [exact Hr|]].
  intros now prog s Hi. unfold main, arg, int_of. cbn [List.length nth].
  cbn [Nat.ltb Nat.leb String.eqb Ascii.eqb Bool.eqb].
  rewrite Hi. cbn [or_raise]. unfold bind, ret. rewrite Hm, Hr.
  split; reflexivity.
Qed.

(* ================================================================== *)
(** * The order of the collection after an update *)
(* ================================================================== *)

Module FloatFacts.
Import Float.

Lemma ltb_leb (x y : t) : ltb x y = true -> leb x y = true.
Proof. unfold leb. now intros ->. Qed.

Lemma ltb_not_eqb (x y : t) : ltb x y = true -> eqb x y = false.
Proof.
  destruct x as [a| | |], y as [b| | |]; cbn; try reflexivity;
    try discriminate.
  rewrite Z.ltb_lt, Z.eqb_neq. lia.
Qed.

Lemma leb_total (x y : t) :
  is_nan x = false -> is_nan y = false -> ltb x y = false -> leb y x = true.
Proof.
  unfold leb.
  destruct x as [a| | |], y as [b| | |]; cbn; try reflexivity;
    try discriminate.
  rewrite Z.ltb_ge, orb_true_iff, Z.ltb_lt, Z.eqb_eq. lia.
Qed.

Lemma leb_trans (x y z : t) :
  leb x y = true -> leb y z = true -> leb x z = true.
Proof.
  unfold leb.
  destruct x as [a| | |], y as [b| | |], z as [c| | |]; cbn;
    try reflexivity; try discriminate.
  rewrite !orb_true_iff, !Z.ltb_lt, !Z.eqb_eq. lia.
Qed.

Lemma leb_antisym (x y : t) :
  leb x y = true -> leb y x = true -> x = y.
Proof.
  unfold leb.
  destruct x as [a| | |], y as [b| | |]; cbn; try reflexivity;
    try discriminate.
  rewrite !orb_true_iff, !Z.ltb_lt, !Z.eqb_eq. intros. f_equal. lia.
Qed.

Lemma eqb_eq (x y : t) : eqb x y = true -> x = y.
Proof.
  destruct x as [a| | |], y as [b| | |]; cbn; try reflexivity;
    try discriminate.
  rewrite Z.eqb_eq. now intros ->.
Qed.

Lemma eqb_refl (x : t) : is_nan x = false -> eqb x x = true.
Proof.
  destruct x; cbn; intro H; try reflexivity; [apply Z.eqb_refl | discriminate].
Qed.

End FloatFacts.

Section InsertionSort.
Context {A : Type}.
Implicit Types (x y : Float.t * A) (l : list (Float.t * A)).

Lemma insert_desc_sorted x l :
  Float.is_nan (fst x) = false ->
  no_nan l -> desc_keys l -> desc_keys (insert_desc x l).
Proof.
  intros Hx Hn Hs. induction Hs as [|y l Hs IH Hy]; cbn [insert_desc].
  - repeat constructor.
  - inversion Hn as [|? ? Hny Hnl]; subst.
    destruct (Float.ltb (fst x) (fst y)) eqn:E.
    + constructor; [now apply IH|].
      rewrite insert_desc_perm. constructor; [|exact Hy].
      now apply FloatFacts.ltb_leb.
    + pose proof (FloatFacts.leb_total _ _ Hx Hny E) as Hxy.
      constructor; [now constructor|].
      constructor; [exact Hxy|].
      eapply Forall_impl; [|exact Hy]. cbn. intros z Hz.
      eapply FloatFacts.leb_trans; eassumption.
Qed.

Lemma sort_desc_sorted l : no_nan l -> desc_keys (sort_desc l).
Proof.
  induction 1 as [|x l Hx Hl IH]; cbn [sort_desc fold_right].
  - constructor.
  - apply insert_desc_sorted; [exact Hx | | exact IH].
    unfold no_nan. fold (sort_desc l). now rewrite sort_desc_perm.
Qed.

Lemma insert_desc_stable (k : Float.t) x l :
  of_key k (insert_desc x l) = of_key k (x :: l).
Proof.
  induction l as [|y l IH]; cbn [insert_desc]; [reflexivity|].
  destruct (Float.ltb (fst x) (fst y)) eqn:E; [|reflexivity].
  unfold of_key in *. cbn [filter] in *. rewrite IH.
  destruct (Float.eqb (fst x) k) eqn:Ex, (Float.eqb (fst y) k) eqn:Ey;
    try reflexivity.
  apply FloatFacts.ltb_not_eqb in E.
  apply FloatFacts.eqb_eq in Ey. rewrite Ey in E. congruence.
Qed.

Lemma sort_desc_stable (k : Float.t) l : of_key k (sort_desc l) = of_key k l.
Proof.
  induction l as [|x l IH]; cbn [sort_desc fold_right]; [reflexivity|].
  fold (sort_desc l). rewrite insert_desc_stable.
  unfold of_key in *. cbn [filter]. now rewrite IH.
Qed.
End InsertionSort.

(** ** The collection in the order of [list.sort] *)

Lemma combine_keyed (l : list value) :
  Forall keyed (combine (List.map rank_key l) l).
Proof. induction l as [|x l IH]; cbn; constructor; [reflexivity | exact IH]. Qed.

Lemma combine_no_nan (l : list value) :
  Forall numeric l -> no_nan (combine (List.map rank_key l) l).
Proof.
  induction 1 as [|x l Hx Hl IH]; cbn; constructor; [exact Hx | exact IH].
Qed.

Lemma with_key_keyed (k : Float.t) (ps : list (Float.t * value)) :
  Forall keyed ps ->
  with_key k (List.map snd ps) = List.map snd (of_key k ps).
Proof.
  unfold with_key, of_key.
  induction 1 as [|p ps Hp Hps IH]; cbn [List.map filter]; [reflexivity|].
  rewrite <- Hp. destruct (Float.eqb (fst p) k); cbn [List.map]; now rewrite IH.
Qed.

Lemma descending_keyed (ps : list (Float.t * value)) :
  Forall keyed ps -> desc_keys ps -> descending (List.map snd ps).
Proof.
  intros Hk Hs. induction Hs as [|p ps Hs IH Hp]; cbn [List.map].
  - constructor.
  - inversion Hk as [|? ? Hkp Hkps]; subst.
    constructor; [now apply IH|].
    rewrite Forall_map. rewrite Forall_forall in *. intros q Hq.
    unfold key_ge. rewrite <- Hkp, <- (Hkps q Hq). now apply Hp.
Qed.

(** With numbers for keys, the collection comes out of the sort in
    descending order of rank key. *)
Theorem sorted_by_accuracy_descending (l : list value) :
  Forall numeric l -> descending (sorted_by_accuracy l).
Proof.
  intro Hn. unfold sorted_by_accuracy. apply descending_keyed.
  - rewrite sort_desc_perm. apply combine_keyed.
  - apply sort_desc_sorted. now apply combine_no_nan.
Qed.

(** Entries of equal rank key come out of the sort in the order they
    went in. *)
Theorem sorted_by_accuracy_stable (l : list value) :
  stable l (sorted_by_accuracy l).
Proof.
  intro k. unfold sorted_by_accuracy.
  rewrite with_key_keyed by (rewrite sort_desc_perm; apply combine_keyed).
  rewrite sort_desc_stable.
  rewrite <- with_key_keyed by apply combine_keyed.
  now rewrite map_snd_combine.
Qed.

Lemma with_key_head (x : value) (l : list value) :
  numeric x -> with_key (rank_key x) (x :: l) = x :: with_key (rank_key x) l.
Proof.
  intro Hx. unfold with_key. cbn [filter].
  now rewrite FloatFacts.eqb_refl.
Qed.

Lemma with_key_in (k : Float.t) (x : value) (l : list value) :
  In x (with_key k l) -> In x l /\ rank_key x = k.
Proof.
  unfold with_key. rewrite filter_In. intros [Hin E].
  split; [exact Hin | now apply FloatFacts.eqb_eq].
Qed.

Lemma descending_head (x y : value) (l : list value) :
  descending (x :: l) -> In y (x :: l) -> numeric x ->
  Float.leb (rank_key y) (rank_key x) = true.
Proof.
  intros Hd [<-|Hin] Hx.
  - unfold Float.leb. now rewrite FloatFacts.eqb_refl, orb_true_r.
  - apply StronglySorted_inv in Hd as [_ Hd].
    rewrite Forall_forall in Hd. now apply Hd.
Qed.

(** With numbers for keys, a collection has one arrangement that is
    descending and keeps the order of equal keys: whatever algorithm
    [list.sort] runs, its result is [sorted_by_accuracy]. *)
Theorem stable_descending_unique (l1 l2 : list value) :
  Forall numeric l1 -> Forall numeric l2 ->
  descending l1 -> descending l2 ->
  (forall k, with_key k l1 = with_key k l2) ->
  l1 = l2.
Proof.
  revert l2. induction l1 as [|x l1 IH]; intros l2 Hn1 Hn2 Hd1 Hd2 Hs.
  - destruct l2 as [|y l2]; [reflexivity|]. exfalso.
    inversion Hn2 as [|? ? Hy _]; subst.
    specialize (Hs (rank_key y)). rewrite (with_key_head y l2 Hy) in Hs.
    discriminate Hs.
  - inversion Hn1 as [|? ? Hx Hn1']; subst.
    destruct l2 as [|y l2].
    { specialize (Hs (rank_key x)). rewrite (with_key_head x l1 Hx) in Hs.
      discriminate Hs. }
    inversion Hn2 as [|? ? Hy Hn2']; subst.
    assert (Hxy : rank_key x = rank_key y).
    { apply FloatFacts.leb_antisym.
      - apply (descending_head y x l2 Hd2); [|exact Hy].
        pose proof (Hs (rank_key x)) as H. rewrite (with_key_head x l1 Hx) in H.
        assert (Hin : In x (with_key (rank_key x) (y :: l2)))
          by (rewrite <- H; now left).
        now apply with_key_in in Hin.
      - apply (descending_head x y l1 Hd1); [|exact Hx].
        pose proof (Hs (rank_key y)) as H. rewrite (with_key_head y l2 Hy) in H.
        assert (Hin : In y (with_key (rank_key y) (x :: l1)))
          by (rewrite H; now left).
        now apply with_key_in in Hin. }
    assert (E : x = y).
    { pose proof (Hs (rank_key x)) as H.
      rewrite (with_key_head x l1 Hx) in H. rewrite Hxy in H.
      rewrite (with_key_head y l2 Hy) in H. now injection H. }
    subst y. f_equal.
    apply IH; try assumption.
    + now apply StronglySorted_inv in Hd1.
    + now apply StronglySorted_inv in Hd2.
    + intro k. specialize (Hs k). unfold with_key in *. cbn [filter] in Hs.
      destruct (Float.eqb (rank_key x) k); [now injection Hs | exact Hs].
Qed.

(** X9.  [update_leaderboard] on a store, when the rank keys of the entries
    and of the new one are numbers: the collection it saves is in
    descending order of rank key, and entries of equal rank key are in
    the order they had before the sort. *)
Theorem update_sorts_numbers (w : world) (lb : value) (subs : list value)
        (now : string) (n : Z) (title author body url : string) :
  holds w lb ->
  store lb subs ->
  Forall numeric (merged now n author body url subs) ->
  exists w' lb' subs',
    update_leaderboard now n title author body url w = (Return true, w')
    /\ holds w' lb' /\ store lb' subs'
    /\ descending subs'
    /\ stable (merged now n author body url subs) subs'.
Proof.
  intros Hh Hs Hn.
  destruct (update_runs w lb subs now n title author body url Hh Hs)
    as (w' & lb' & Hu & Hh' & Hs').
  exists w', lb', (updated now n author body url subs).
  repeat (split; [assumption|]). split.
  - now apply sorted_by_accuracy_descending.
  - apply sorted_by_accuracy_stable.
Qed.

(* ================================================================== *)
(** * The claims on the parser, the rank key and the command line *)
(* ================================================================== *)

(** C1 (the code departs from the claim).  On the body
    [### Improvement Description\nLine one.\nLine two.\n\n### GPU Hours\n10]
    the parser extracts [improvement_description] as the first line
    alone, ["Line one."]: under [re.MULTILINE] the [$] of the lookahead
    matches before the first line feed, so the lazy [.+?] stops there.
    The second line is lost; nothing of the next heading is taken. *)
Theorem multi_line_value_is_cut_at_first_line :
  Dict.get (parse_issue_body body_two_lines) "improvement_description"
  = Some "Line one."
  /\ Dict.get (parse_issue_body body_two_lines) "improvement_description"
     <> Some ("Line one." ++ nl ++ "Line two.")
  /\ Dict.get (parse_issue_body body_two_lines) "gpu_hours" = Some "10".
Proof.
  assert (E : parse_issue_body body_two_lines
              = [("improvement_description", "Line one."); ("gpu_hours", "10")])
    by (vm_compute; reflexivity).
  rewrite E. repeat split. discriminate.
Qed.

Lemma leb_not_gtb (x y : Float.t) : Float.leb x y = true -> Float.gtb x y = false.
Proof.
  unfold Float.leb, Float.gtb, Float.ltb, Float.eqb.
  destruct x as [a| | |], y as [b| | |]; try reflexivity; try discriminate.
  rewrite orb_true_iff, Z.ltb_lt, Z.eqb_eq, Z.ltb_ge. lia.
Qed.

(** C2.  The rank key of a Submission whose stored accuracy is the
    string [s]: it is computed without an exception and without a
    change to the world (the Submission is a value: nothing can change
    it); it is -1 when [s] is exactly ["N/A"]; otherwise, with [s]
    stripped of surrounding white space and of its percent signs, it is
    [v / 100] when the rest parses as a float [v > 1], [v] when it
    parses as a float [v <= 1], and -1 when it does not parse. *)
Theorem get_accuracy_value_key (d : list (string * value)) (s : string)
        (w : world) :
  Dict.get d "accuracy" = Some (VStr s) ->
  exists key,
    get_accuracy_value (VDict d) w = (Return key, w)
    /\ (s = "N/A" -> key = minus_one)
    /\ (s <> "N/A" ->
        match Num.py_float (Str.replace "%" "" (Str.strip s)) with
        | Some v =>
            (Float.gtb v (Float.of_Z 1) = true -> key = Float.div_int v 100)
            /\ (Float.leb v (Float.of_Z 1) = true -> key = v)
        | None => key = minus_one
        end).
Proof.
  intro E. exists (rank_key (VDict d)).
  split; [apply get_accuracy_value_dict|].
  unfold rank_key, Dict.get_default. rewrite E. cbn [Py.eq_str Py.str].
  split.
  - intros ->. reflexivity.
  - intro Hne. apply String.eqb_neq in Hne. rewrite Hne.
    destruct (Num.py_float _) as [v|]; [|reflexivity].
    split; intro H.
    + now rewrite H.
    + now rewrite (leb_not_gtb _ _ H).
Qed.

Lemma get_accuracy_value_key_witness :
  Dict.get [("accuracy", VStr "95%")] "accuracy" = Some (VStr "95%")
  /\ exists key,
      get_accuracy_value (VDict [("accuracy", VStr "95%")]) new_world
      = (Return key, new_world)
      /\ ("95%" = "N/A" -> key = minus_one)
      /\ ("95%" <> "N/A" ->
          match Num.py_float (Str.replace "%" "" (Str.strip "95%")) with
          | Some v =>
              (Float.gtb v (Float.of_Z 1) = true -> key = Float.div_int v 100)
              /\ (Float.leb v (Float.of_Z 1) = true -> key = v)
          | None => key = minus_one
          end).
Proof.
  split; [reflexivity|].
  apply (get_accuracy_value_key [("accuracy", VStr "95%")] "95%" new_world).
  reflexivity.
Defined.

Lemma leb_nan_l (x : Float.t) : Float.leb Float.NaN x = false.
Proof. reflexivity. Qed.

Lemma leb_nan_r (x : Float.t) : Float.leb x Float.NaN = false.
Proof. now destruct x. Qed.

(** An entry whose rank key is the NaN is in no descending collection
    but the one it makes alone. *)
Lemma nan_stands_alone (l : list value) (x : value) :
  descending l -> In x l -> Float.is_nan (rank_key x) = true -> l = [x].
Proof.
  intros Hd Hin Hx.
  assert (Hk : rank_key x = Float.NaN)
    by (destruct (rank_key x); try discriminate; reflexivity).
  destruct l as [|a [|b l]]; [contradiction | |].
  - destruct Hin as [->|[]]. reflexivity.
  - exfalso. apply StronglySorted_inv in Hd as [_ Hd].
    rewrite Forall_forall in Hd. unfold key_ge in Hd.
    destruct Hin as [->|Hin].
    + specialize (Hd b (or_introl eq_refl)).
      rewrite Hk, leb_nan_r in Hd. discriminate.
    + specialize (Hd x Hin). rewrite Hk, leb_nan_l in Hd. discriminate.
Qed.

(** C4 (the code departs from the claim).  Three updates from an empty
    store, with the accuracies ["0.5"], ["nan"] and ["0.9"]: [float]
    reads ["nan"] as the NaN, which no [<] orders, and the sort leaves
    the three entries as they came.  The entry of rank key 0.9 ends
    below the entry of rank key 0.5: the collection is not in
    descending order of rank key, and no arrangement of these three
    entries would be. *)
Theorem nan_accuracy_defeats_the_sort :
  (submit 1 "0.5" ;; submit 2 "nan" ;; submit 3 "0.9") new_world
  = (Return true,
     World
       (Some (Json.dumps
                (store_of [entry 1 "0.5"; entry 2 "nan"; entry 3 "0.9"])))
       3
       [ "Updated leaderboard with issue #1";
         "Updated leaderboard with issue #2";
         "Updated leaderboard with issue #3" ])
  /\ Float.ltb (rank_key (entry 1 "0.5")) (rank_key (entry 3 "0.9")) = true
  /\ forall l,
      Permutation [entry 1 "0.5"; entry 2 "nan"; entry 3 "0.9"] l ->
      ~ descending l.
Proof.
  split; [vm_compute; reflexivity|].
  split; [vm_compute; reflexivity|].
  intros l Hp Hd.
  assert (Hin : In (entry 2 "nan") l).
  { apply (Permutation_in _ Hp). right. now left. }
  assert (Hn : Float.is_nan (rank_key (entry 2 "nan")) = true)
    by (vm_compute; reflexivity).
  rewrite (nan_stands_alone l _ Hd Hin Hn) in Hp.
  apply Permutation_length in Hp. discriminate Hp.
Qed.

(** ** The command line *)

Lemma arg_update_length (argv : list string) :
  arg argv 1 = "update" -> (2 <= List.length argv)%nat.
Proof.
  unfold arg. destruct argv as [|a [|b argv]]; cbn; try discriminate. lia.
Qed.

(** C9 (as amended).  The update action needs at least five arguments
    after the action name.  With fewer, the process prints the error
    message and exits with status 1, the store untouched.  With five or
    more, and an [issue_number] that [int] accepts, it runs
    [update_leaderboard] on the first five (the URL fourth, the body
    fifth) and ignores the others. *)
Theorem update_needs_five_arguments (now : string) (argv : list string)
        (w : world) :
  arg argv 1 = "update" ->
  ((List.length argv < 7)%nat ->
   main now argv w = (Raise (SystemExit 1), printed w update_usage_error)
   /\ exit_status (fst (main now argv w)) = 1)
  /\ ((7 <= List.length argv)%nat ->
      forall n, Num.py_int (arg argv 2) = Some n ->
                main now argv w
                = (update_leaderboard now n (arg argv 3) (arg argv 4)
                     (arg argv 6) (arg argv 5) ;; ret tt) w).
Proof.
  intro Ha. pose proof (arg_update_length argv Ha) as Hl.
  unfold main. rewrite Ha.
  destruct (Nat.ltb_spec (List.length argv) 2); [lia|].
  cbn [String.eqb Ascii.eqb Bool.eqb andb].
  split; intro H7.
  - destruct (Nat.ltb_spec (List.length argv) 7); [|lia].
    split; reflexivity.
  - intros n Hn. destruct (Nat.ltb_spec (List.length argv) 7); [lia|].
    unfold int_of. rewrite Hn. reflexivity.
Qed.

Lemma update_needs_five_arguments_witness :
  arg ["process_issue.py"; "update"; "7"] 1 = "update"
  /\ main example_time ["process_issue.py"; "update"; "7"] new_world
     = (Raise (SystemExit 1), printed new_world update_usage_error).
Proof.
  split; [reflexivity|].
  apply (update_needs_five_arguments example_time
           ["process_issue.py"; "update"; "7"] new_world eq_refl).
  cbn. lia.
Defined.

(** The counterexample to C9 as it was stated: an update with six
    arguments after the action name runs to its end, with status 0, and
    stores the Submission. *)
Lemma update_accepts_a_sixth_argument :
  List.length argv_six = 8%nat
  /\ main example_time argv_six new_world
     = (Return tt,
        World (Some (Json.dumps (store_of [entry 7 "95%"]))) 1
          ["Updated leaderboard with issue #7"])
  /\ exit_status (fst (main example_time argv_six new_world)) = 0.
Proof. vm_compute. repeat split. Qed.

(** C10.  [update_leaderboard] does not look at [issue_title]: two calls
    that differ in the title alone are the same computation, so they
    end in the same store, print the same and return the same; and so
    do two command lines that differ in the title alone. *)
Theorem update_ignores_the_title (now : string) (n : Z)
        (title1 title2 author body url : string) (w : world) :
  update_leaderboard now n title1 author body url w
  = update_leaderboard now n title2 author body url w
  /\ forall prog number rest,
      main now (prog :: "update" :: number :: title1 :: rest) w
      = main now (prog :: "update" :: number :: title2 :: rest) w.
Proof.
  split; [reflexivity|].
  intros prog number rest. unfold main, arg. reflexivity.
Qed.

(* ================================================================== *)
(** * The claims at a store of one Submission *)
(* ================================================================== *)

Lemma entry_valid (n : Z) (accuracy : string) : valid (entry n accuracy).
Proof. apply new_submission_valid. Qed.

Lemma store_of_valid (subs : list value) :
  Forall valid subs -> valid (store_of subs).
Proof.
  intro Hv. unfold store_of. rewrite valid_dict. split.
  - cbn. constructor; [cbn; tauto | constructor].
  - constructor; [now apply valid_list | constructor].
Qed.

Lemma store_of_store (subs : list value) :
  Forall valid subs ->
  forallb is_submission subs = true ->
  store (store_of subs) subs.
Proof.
  intros Hv Hs. split; [now apply store_of_valid | split; [|exact Hs]].
  eexists. split; reflexivity.
Qed.

Lemma holds_world_of (subs : list value) :
  Forall valid subs -> holds (world_of subs) (store_of subs).
Proof.
  intro Hv. unfold holds. rewrite load_leaderboard_eq. unfold world_of.
  cbn [file]. now rewrite loads_dumps by now apply store_of_valid.
Qed.

Lemma one_entry_valid : Forall valid one_entry.
Proof. constructor; [apply entry_valid | constructor]. Qed.

Lemma one_entry_store : store (store_of one_entry) one_entry.
Proof. apply store_of_store; [apply one_entry_valid | reflexivity]. Qed.

Lemma one_entry_holds : holds (world_of one_entry) (store_of one_entry).
Proof. apply holds_world_of, one_entry_valid. Qed.

Lemma one_entry_nodup : NoDup (issues one_entry).
Proof. cbn. repeat constructor. cbn. tauto. Qed.

Lemma save_then_load_witness :
  valid (store_of one_entry)
  /\ exists w',
      save_leaderboard (store_of one_entry) new_world = (Return tt, w')
      /\ load_leaderboard w' = (Return (store_of one_entry), w').
Proof.
  assert (H : valid (store_of one_entry)) by apply one_entry_store.
  split; [exact H | apply (save_then_load (store_of one_entry) new_world H)].
Defined.

Lemma verified_is_sticky_witness :
  holds (world_of one_entry) (store_of one_entry)
  /\ store (store_of one_entry) one_entry
  /\ NoDup (issues one_entry)
  /\ find_issue 1 one_entry = Some (entry 1 "95%")
  /\ (exists w' lb' subs',
         submit 1 "0.5" (world_of one_entry) = (Return true, w')
         /\ holds w' lb' /\ store lb' subs'
         /\ In 1 (issues subs')
         /\ forall sub, In sub subs' -> issue_of sub = Some 1 ->
                        field sub "verified"
                        = Some (carried_flag (entry 1 "95%")))
  /\ (exists w1 w2 lb2 subs2,
         mark_verified 1 (world_of one_entry) = (Return true, w1)
         /\ submit 1 "0.5" w1 = (Return true, w2)
         /\ holds w2 lb2 /\ store lb2 subs2
         /\ In 1 (issues subs2)
         /\ forall sub, In sub subs2 -> issue_of sub = Some 1 ->
                        field sub "verified" = Some (VBool true)).
Proof.
  split; [apply one_entry_holds|].
  split; [apply one_entry_store|].
  split; [apply one_entry_nodup|].
  split; [reflexivity|].
  apply (verified_is_sticky (world_of one_entry) (store_of one_entry) one_entry
           (entry 1 "95%") example_time 1 "Submission" "ann"
           (body_accuracy "0.5") example_url
           one_entry_holds one_entry_store one_entry_nodup eq_refl).
Defined.

Lemma issue_numbers_stay_unique_witness :
  holds (world_of one_entry) (store_of one_entry)
  /\ store (store_of one_entry) one_entry
  /\ NoDup (issues one_entry)
  /\ (forall now n title author body url,
         exists w' lb' subs',
           update_leaderboard now n title author body url (world_of one_entry)
           = (Return true, w')
           /\ holds w' lb' /\ store lb' subs' /\ NoDup (issues subs'))
  /\ (forall n,
         exists r w' lb' subs',
           mark_verified n (world_of one_entry) = (Return r, w')
           /\ holds w' lb' /\ store lb' subs' /\ NoDup (issues subs'))
  /\ (forall n,
         exists r w' lb' subs',
           remove_submission n (world_of one_entry) = (Return r, w')
           /\ holds w' lb' /\ store lb' subs' /\ NoDup (issues subs')).
Proof.
  split; [apply one_entry_holds|].
  split; [apply one_entry_store|].
  split; [apply one_entry_nodup|].
  apply (issue_numbers_stay_unique (world_of one_entry) (store_of one_entry)
           one_entry one_entry_holds one_entry_store one_entry_nodup).
Defined.

Lemma resubmission_keeps_one_entry_witness :
  holds (world_of one_entry) (store_of one_entry)
  /\ store (store_of one_entry) one_entry
  /\ NoDup (issues one_entry)
  /\ exists w1 w2 lb2 subs2,
      submit 1 "0.5" (world_of one_entry) = (Return true, w1)
      /\ submit 1 "0.5" w1 = (Return true, w2)
      /\ holds w2 lb2 /\ store lb2 subs2
      /\ count_occ Z.eq_dec (issues subs2) 1 = 1%nat.
Proof.
  split; [apply one_entry_holds|].
  split; [apply one_entry_store|].
  split; [apply one_entry_nodup|].
  apply (resubmission_keeps_one_entry (world_of one_entry)
           (store_of one_entry) one_entry example_time example_time 1
           "Submission" "ann" (body_accuracy "0.5") example_url
           one_entry_holds one_entry_store one_entry_nodup).
Defined.

Lemma unknown_issue_is_a_no_op_witness :
  holds (world_of one_entry) (store_of one_entry)
  /\ store (store_of one_entry) one_entry
  /\ ~ In 999 (issues one_entry)
  /\ mark_verified 999 (world_of one_entry)
     = (Return false,
        World (file (world_of one_entry)) (writes (world_of one_entry))
          (stdout (world_of one_entry) ++ [not_found 999]))
  /\ remove_submission 999 (world_of one_entry)
     = (Return false,
        World (file (world_of one_entry)) (writes (world_of one_entry))
          (stdout (world_of one_entry) ++ [not_found 999]))
  /\ forall now prog s,
      Num.py_int s = Some 999 ->
      exit_status (fst (main now [prog; "verify"; s] (world_of one_entry))) = 0
      /\ exit_status (fst (main now [prog; "remove"; s] (world_of one_entry)))
         = 0.
Proof.
  assert (H : ~ In 999 (issues one_entry)).
  { cbn. intros [H|[]]. discriminate H. }
  split; [apply one_entry_holds|].
  split; [apply one_entry_store|].
  split; [exact H|].
  apply (unknown_issue_is_a_no_op (world_of one_entry) (store_of one_entry)
           one_entry 999 one_entry_holds one_entry_store H).
Defined.

(** A second Submission, of a lower accuracy, goes below the first. *)
Lemma second_entry_goes_below :
  exists w' lb',
    submit 2 "0.5" (world_of one_entry) = (Return true, w')
    /\ holds w' lb'
    /\ store lb' [entry 1 "95%"; entry 2 "0.5"]
    /\ descending [entry 1 "95%"; entry 2 "0.5"].
Proof.
  assert (Em : merged example_time 2 "ann" (body_accuracy "0.5") example_url
                 one_entry
               = [entry 1 "95%"; entry 2 "0.5"]) by (vm_compute; reflexivity).
  assert (Eu : updated example_time 2 "ann" (body_accuracy "0.5") example_url
                 one_entry
               = [entry 1 "95%"; entry 2 "0.5"]) by (vm_compute; reflexivity).
  assert (Hn : Forall numeric
                 (merged example_time 2 "ann" (body_accuracy "0.5") example_url
                    one_entry)).
  { rewrite Em. repeat constructor; vm_compute; reflexivity. }
  destruct (update_runs (world_of one_entry) (store_of one_entry) one_entry
              example_time 2 "Submission" "ann" (body_accuracy "0.5")
              example_url one_entry_holds one_entry_store)
    as (w' & lb' & Hu & Hh & Hs).
  exists w', lb'. rewrite Eu in Hs. repeat (split; [assumption|]).
  rewrite <- Eu. unfold updated. now apply sorted_by_accuracy_descending.
Qed.

(* ================================================================== *)
(** * What a run does to the world *)
(* ================================================================== *)































(* ================================================================== *)
(** * What the parser returns *)
(* ================================================================== *)

(** ** Stripping twice *)

Lemma lstrip_head (s : string) :
  Str.lstrip s = "" \/
  exists c t, Str.lstrip s = String c t /\ Str.is_space c = false.
Proof.
  induction s as [| c s IH]; cbn [Str.lstrip]; [now left |].
  destruct (Str.is_space c) eqn:E; [exact IH |].
  right. exists c, s. now split.
Qed.

Lemma rstrip_head (c : ascii) (t : string) :
  Str.is_space c = false -> exists r, Str.rstrip (String c t) = String c r.
Proof.
  intros E. cbn [Str.rstrip]. rewrite E.
  destruct (Str.rstrip t) as [| a r]; eauto.
Qed.

Lemma rstrip_rstrip (s : string) : Str.rstrip (Str.rstrip s) = Str.rstrip s.
Proof.
  induction s as [| c s IH]; cbn [Str.rstrip]; [reflexivity |].
  destruct (Str.rstrip s) as [| a r] eqn:E.
  - destruct (Str.is_space c) eqn:Ec; cbn [Str.rstrip]; [reflexivity |].
    now rewrite Ec.
  - cbn [Str.rstrip] in *. now rewrite IH.
Qed.

Lemma strip_strip (s : string) : Str.strip (Str.strip s) = Str.strip s.
Proof.
  unfold Str.strip.
  destruct (lstrip_head s) as [-> | (c & t & -> & Ec)]; [reflexivity |].
  destruct (rstrip_head c t Ec) as [r Er].
  rewrite Er at 1. cbn [Str.lstrip]. rewrite Ec, <- Er.
  apply rstrip_rstrip.
Qed.

(** ** One turn of the loop *)

Lemma parse_field_extracted (body : string) (data : Dict.t string)
      (key : string) (pattern : regex) :
  parse_field body data (key, pattern)
  = match extracted body pattern with
    | Some v => Dict.set data key v
    | None => data
    end.
Proof.
  unfold parse_field, extracted.
  destruct (search pattern body) as [[g |] |]; try reflexivity.
  cbv zeta. destruct (_ && _); reflexivity.
Qed.

Lemma extracted_answer (body key h v : string) :
  In key (List.map fst patterns) ->
  extracted body (Seq (Lit h) after_heading) = Some v ->
  answer (key, v).
Proof.
  intros Hk. unfold extracted.
  destruct (search _ body) as [[g |] |] eqn:E; try discriminate.
  destruct (ParserFacts.search_heading_group h body _ E) as (c & t & [= ->] & Ht).
  cbv zeta.
  destruct (String.eqb_spec (Str.strip (String c t)) ""); [discriminate |].
  destruct (Str.mem _ no_answer) eqn:Em; [discriminate |].
  intros [= <-]. unfold answer. cbn [fst snd].
  split; [exact Hk |]. split; [assumption |].
  split; [apply strip_strip |]. split; [now apply ParserFacts.strip_group |].
  exact Em.
Qed.

Lemma dict_set_nodup {V : Type} (d : Dict.t V) (k : string) (x : V) :
  NoDup (Dict.keys d) -> NoDup (Dict.keys (Dict.set d k x)).
Proof.
  intros H.
  destruct (in_dec string_dec k (Dict.keys d)) as [Hin | Hout].
  - now rewrite dict_keys_set.
  - assert (E : Dict.keys (Dict.set d k x) = (Dict.keys d ++ [k])%list).
    { clear H. induction d as [| [k' x'] d IH]; cbn; [reflexivity |].
      destruct (String.eqb_spec k' k) as [-> | Hne].
      - exfalso. apply Hout. now left.
      - cbn. f_equal. apply IH. intros Hin. apply Hout. now right. }
    rewrite E. apply NoDup_app; [exact H | repeat constructor; auto |].
    intros a Ha [<- | []]. exact (Hout Ha).
Qed.

Lemma dict_set_forall {V : Type} (P : string * V -> Prop) (d : Dict.t V)
      (k : string) (x : V) :
  Forall P d -> P (k, x) -> Forall P (Dict.set d k x).
Proof.
  intros Hd Hx. induction Hd as [| [k' x'] d Hkv Hd IH]; cbn [Dict.set].
  - repeat constructor. exact Hx.
  - destruct (String.eqb_spec k' k) as [-> |]; constructor; assumption.
Qed.

Lemma parse_field_answers (body : string) (data : Dict.t string)
      (key h : string) :
  In key (List.map fst patterns) ->
  NoDup (Dict.keys data) /\ Forall answer data ->
  NoDup (Dict.keys (parse_field body data (key, Seq (Lit h) after_heading)))
  /\ Forall answer (parse_field body data (key, Seq (Lit h) after_heading)).
Proof.
  intros Hk [Hn Ha]. rewrite parse_field_extracted.
  destruct (extracted body _) as [v |] eqn:E; [| now split].
  split; [now apply dict_set_nodup |].
  apply dict_set_forall; [exact Ha |].
  eapply extracted_answer; eassumption.
Qed.

(** X3.  Whatever the body, the parser returns a dictionary of
    answers: no key twice, every key one of the six field names, and
    every value one line of text that is not empty, has no white space
    around it and is not one of the no-answer tokens, in any case of
    letters. *)
Theorem parser_returns_answers (body : string) :
  NoDup (Dict.keys (parse_issue_body body))
  /\ Forall answer (parse_issue_body body).
Proof.
  unfold parse_issue_body, patterns. cbn [fold_left].
  repeat (apply parse_field_answers; [cbn; tauto |]).
  split; constructor.
Qed.

(** ** Each key has its own pattern *)

Lemma get_parse_field (body : string) (data : Dict.t string)
      (k key : string) (pattern : regex) :
  Dict.get (parse_field body data (k, pattern)) key
  = if String.eqb k key then
      match extracted body pattern with
      | Some v => Some v
      | None => Dict.get data key
      end
    else Dict.get data key.
Proof.
  rewrite parse_field_extracted.
  destruct (extracted body pattern) as [v |].
  - destruct (String.eqb_spec k key) as [-> | Hne].
    + apply dict_get_set_same.
    + now apply dict_get_set_other.
  - now destruct (String.eqb k key).
Qed.

Lemma parse_issue_body_get (body key : string) (pattern : regex) :
  In (key, pattern) patterns ->
  Dict.get (parse_issue_body body) key = extracted body pattern.
Proof.
  unfold parse_issue_body, patterns. cbn [fold_left In].
  intros H.
  repeat (destruct H as [[= <- <-] | H];
          [ repeat (rewrite get_parse_field; cbn [String.eqb Ascii.eqb Bool.eqb]);
            cbn [Dict.get]; now destruct (extracted body _) |]).
  destruct H.
Qed.

(** ** Finding the heading *)

Lemma search_skip (h' pre s : string) (r : regex) :
  Str.contains "#" pre = false ->
  search (Seq (Lit (String "#" h')) r) (pre ++ s)
  = search (Seq (Lit (String "#" h')) r) s.
Proof.
  induction pre as [| a pre IH]; [reflexivity |].
  cbn [Str.contains]. intros H. apply orb_false_elim in H as [Ha H].
  cbn [append search]. unfold match_here at 1. cbn [rmatch drop_prefix].
  rewrite Ascii.eqb_sym, Ha. now apply IH.
Qed.

Lemma drop_prefix_append (h s : string) : drop_prefix h (h ++ s) = Some s.
Proof.
  induction h as [| a h IH]; cbn [append drop_prefix]; [now destruct s |].
  now rewrite Ascii.eqb_refl.
Qed.

(** ** A body without a heading *)

Lemma extracted_without_heading (h' body : string) (r : regex) :
  Str.contains "#" body = false ->
  extracted body (Seq (Lit (String "#" h')) r) = None.
Proof.
  intros H. unfold extracted.
  rewrite <- (append_nil_r body), search_skip by exact H.
  reflexivity.
Qed.

(** X4.  A body without the character [#] has no heading, and the
    parser returns the empty dictionary. *)
Theorem body_without_heading (body : string) :
  Str.contains "#" body = false -> parse_issue_body body = [].
Proof.
  intros H. unfold parse_issue_body, patterns. cbn [fold_left].
  repeat (rewrite parse_field_extracted, extracted_without_heading by exact H).
  reflexivity.
Qed.

Lemma body_without_heading_witness :
  Str.contains "#" "I trained it for longer." = false
  /\ parse_issue_body "I trained it for longer." = [].
Proof.
  split; [reflexivity |]. apply body_without_heading. reflexivity.
Defined.

(** ** The value under a heading *)

Lemma not_space_not_lf (c : ascii) : Str.is_space c = false -> Ascii.eqb c LF = false.
Proof.
  intros H. destruct (Ascii.eqb_spec c LF) as [-> |]; [discriminate H | reflexivity].
Qed.

Lemma star_greedy_cons {R : Type} (p : ascii -> bool) (c : ascii) (s : string)
      (k : string -> option R) :
  star_greedy p (String c s) k
  = if p c then
      match star_greedy p s k with
      | Some r => Some r
      | None => k (String c s)
      end
    else k (String c s).
Proof. reflexivity. Qed.

Lemma star_greedy_blank {R : Type} (ws s : string) (k : string -> option R) (r : R) :
  blank ws ->
  star_greedy (in_class CSpace) s k = Some r ->
  star_greedy (in_class CSpace) (ws ++ s) k = Some r.
Proof.
  unfold blank. intros Hw Hs.
  induction ws as [| a ws IH]; [exact Hs |].
  cbn [Str.lstrip] in Hw. cbn [append star_greedy in_class].
  destruct (Str.is_space a); [| discriminate].
  now rewrite (IH Hw).
Qed.

Lemma value_end_here (s : string) (g : option string) :
  at_eol s = true ->
  rmatch (option string) value_end s g (fun _ x => Some x) = Some g.
Proof.
  intros H.
  destruct (rmatch _ value_end s g (fun _ x => Some x)) as [g' |] eqn:E.
  - f_equal. eapply ParserFacts.value_end_group, E.
  - now apply ParserFacts.value_end_at_eol in E.
Qed.

Lemma value_end_not_here (a : ascii) (s : string) (g : option string) :
  Ascii.eqb a LF = false ->
  rmatch (option string) value_end (String a s) g (fun _ x => Some x) = None.
Proof.
  intros H. unfold value_end. cbn [rmatch append nl drop_prefix at_eol].
  rewrite (Ascii.eqb_sym LF a), H. reflexivity.
Qed.

Lemma plus_lazy_any {R : Type} (c : ascii) (s : string) (k : string -> option R) :
  plus_lazy (in_class CAny) (String c s) k
  = match k s with
    | Some r => Some r
    | None => plus_lazy (in_class CAny) s k
    end.
Proof. reflexivity. Qed.

(** The lazy group takes the rest of the line. *)
Lemma plus_lazy_line (t post : string) (c : ascii) (f : string -> option string) :
  one_line t -> at_eol post = true ->
  plus_lazy (in_class CAny) (String c (t ++ post))
    (fun s' => rmatch (option string) value_end s' (f s') (fun _ x => Some x))
  = Some (f post).
Proof.
  unfold one_line. revert c.
  induction t as [| a t IH]; intros c Ht Hp; rewrite plus_lazy_any;
    cbn [append].
  - now rewrite value_end_here.
  - cbn [Str.contains] in Ht. apply orb_false_elim in Ht as [Ha Ht].
    rewrite value_end_not_here by exact Ha.
    now apply IH.
Qed.

(** White space without a line feed gives the greedy [\s*] nothing to
    come back to when a line feed has to follow. *)
Lemma star_greedy_indent {R : Type} (ind rest : string) (c : ascii)
      (k : string -> option R) :
  (forall a s, Ascii.eqb a LF = false -> k (String a s) = None) ->
  blank ind -> one_line ind -> Str.is_space c = false ->
  star_greedy (in_class CSpace) (ind ++ String c rest) k = None.
Proof.
  unfold blank, one_line. intros Hk Hb Hl Hc.
  induction ind as [| a ind IH]; cbn [append star_greedy in_class].
  - rewrite Hc. apply Hk, not_space_not_lf, Hc.
  - cbn [Str.lstrip] in Hb. cbn [Str.contains] in Hl.
    apply orb_false_elim in Hl as [Ha Hl].
    destruct (Str.is_space a); [| discriminate].
    rewrite (IH Hb Hl). apply Hk, Ha.
Qed.

Lemma after_heading_line (ws ind t post : string) (c : ascii) :
  blank ws -> blank ind -> one_line ind ->
  Str.is_space c = false -> one_line t -> at_eol post = true ->
  rmatch (option string) after_heading
    (ws ++ nl ++ ind ++ String c t ++ post) None (fun _ x => Some x)
  = Some (Some (String c t)).
Proof.
  intros Hw Hi Hl Hc Ht Hp. unfold after_heading. cbn [rmatch].
  apply star_greedy_blank; [exact Hw |].
  cbn [nl append]. rewrite star_greedy_cons.
  change (in_class CSpace LF) with true. cbv iota.
  rewrite star_greedy_indent;
    [| intros a s Ha; cbn [in_class]; now rewrite Ha | assumption ..].
  cbn [in_class]. rewrite Ascii.eqb_refl.
  apply star_greedy_blank; [exact Hi |].
  cbn [append]. rewrite star_greedy_cons. cbn [in_class]. rewrite Hc.
  rewrite (plus_lazy_line t post c
             (fun s' => Some (Str.take (String.length (String c (t ++ post))
                                        - String.length s')
                                       (String c (t ++ post)))))
    by assumption.
  now rewrite ParserFacts.take_append.
Qed.

Lemma strip_not_empty (c : ascii) (t : string) :
  Str.is_space c = false -> Str.strip (String c t) <> "".
Proof.
  intros Hc. unfold Str.strip. cbn [Str.lstrip]. rewrite Hc.
  destruct (rstrip_head c t Hc) as [r ->]. discriminate.
Qed.

Lemma extracted_line (h' pre ws ind t post : string) (c : ascii) :
  Str.contains "#" pre = false ->
  blank ws -> blank ind -> one_line ind ->
  Str.is_space c = false -> one_line t -> at_eol post = true ->
  extracted (pre ++ String "#" h' ++ ws ++ nl ++ ind ++ String c t ++ post)
    (Seq (Lit (String "#" h')) after_heading)
  = if Str.mem (Str.lower (Str.strip (String c t))) no_answer then None
    else Some (Str.strip (String c t)).
Proof.
  intros Hpre Hw Hi Hl Hc Ht Hp. unfold extracted.
  rewrite search_skip by exact Hpre.
  assert (E : search (Seq (Lit (String "#" h')) after_heading)
                (String "#" h' ++ ws ++ nl ++ ind ++ String c t ++ post)
              = Some (Some (String c t))).
  { assert (M : match_here (Seq (Lit (String "#" h')) after_heading)
                  (String "#" h' ++ ws ++ nl ++ ind ++ String c t ++ post)
                = Some (Some (String c t))).
    { unfold match_here. cbn [rmatch]. rewrite drop_prefix_append.
      now apply after_heading_line. }
    change (String "#" h' ++ ws ++ nl ++ ind ++ String c t ++ post)
      with (String "#" (h' ++ ws ++ nl ++ ind ++ String c t ++ post)) in *.
    cbn [search]. now rewrite M. }
  rewrite E. cbv zeta.
  destruct (String.eqb_spec (Str.strip (String c t)) "") as [E0 |].
  - now apply strip_not_empty in E0.
  - cbn [negb andb]. now destruct (Str.mem _ no_answer).
Qed.

(** X5.  The first heading of a field, white space with the line
    feed that ends the heading's line, an indentation, then text that
    starts with a character other than white space and runs to the end
    of its line: the parser files that text under the field's key,
    without the white space at its end, unless it is a no-answer, and
    then the key is absent. *)
Theorem value_under_a_heading
        (key h pre ws ind : string) (c : ascii) (t post : string) :
  In (key, Seq (Lit h) after_heading) patterns ->
  Str.contains "#" pre = false ->
  blank ws -> blank ind -> one_line ind ->
  Str.is_space c = false -> one_line t -> at_eol post = true ->
  Dict.get
    (parse_issue_body (pre ++ h ++ ws ++ nl ++ ind ++ String c t ++ post)) key
  = if Str.mem (Str.lower (Str.strip (String c t))) no_answer then None
    else Some (Str.strip (String c t)).
Proof.
  intros Hin Hpre Hw Hi Hl Hc Ht Hp.
  rewrite (parse_issue_body_get _ _ _ Hin).
  assert (Hh : exists h', h = String "#" h').
  { unfold patterns in Hin. cbn [In] in Hin.
    repeat (destruct Hin as [[= _ <-] | Hin]; [eauto |]). destruct Hin. }
  destruct Hh as [h' ->].
  now apply extracted_line.
Qed.

Lemma value_under_a_heading_witness :
  Dict.get
    (parse_issue_body
       ("Hello." ++ nl ++ "### Accuracy" ++ " " ++ nl ++ "  "
        ++ String "9" "5%  "
        ++ (nl ++ nl ++ "### GPU Hours" ++ nl ++ "_No response_")))
    "accuracy"
  = Some "95%".
Proof.
  apply (value_under_a_heading "accuracy" "### Accuracy" ("Hello." ++ nl) " "
           "  " "9" "5%  "
           (nl ++ nl ++ "### GPU Hours" ++ nl ++ "_No response_")).
  - right; right; left; reflexivity.
  - reflexivity.
  - reflexivity.
  - reflexivity.
  - reflexivity.
  - reflexivity.
  - reflexivity.
  - reflexivity.
Defined.



(* ================================================================== *)
(** * What the operations do to the other entries *)
(* ================================================================== *)

Lemma filter_perm {A : Type} (f : A -> bool) (l l' : list A) :
  Permutation l l' -> Permutation (filter f l) (filter f l').
Proof.
  induction 1 as [| x l l' H IH | x y l | l l' l'' H1 IH1 H2 IH2];
    cbn [filter].
  - constructor.
  - destruct (f x); [now constructor | exact IH].
  - destruct (f x), (f y); try reflexivity. apply perm_swap.
  - now transitivity (filter f l').
Qed.

Lemma has_issue_new now n author url data flag :
  has_issue n (VDict (Dict.set (new_submission now n author url data)
                        "verified" flag)) = true.
Proof.
  unfold has_issue. rewrite issue_of_set_verified. cbn. apply Z.eqb_refl.
Qed.

Lemma new_submission_flag now n author url data :
  Dict.set (new_submission now n author url data) "verified" (VBool false)
  = new_submission now n author url data.
Proof. reflexivity. Qed.

(** The flag the new entry of issue [n] gets. *)
Lemma merged_eq now n author body url (subs : list value) :
  (exists l1 old l2,
      subs = (l1 ++ old :: l2)%list
      /\ has_issue n old = true
      /\ forallb (other_issue n) l1 = true
      /\ merged now n author body url subs
         = (l1 ++ VDict (Dict.set (new_submission now n author url
                                     (parse_issue_body body))
                           "verified" (carried_flag old)) :: l2)%list)
  \/ (forallb (other_issue n) subs = true
      /\ merged now n author body url subs
         = (subs ++ [VDict (new_submission now n author url
                              (parse_issue_body body))])%list).
Proof.
  destruct (first_issue_split n subs) as [(l1 & old & l2 & -> & Ho & Hl) | Hn].
  - left. exists l1, old, l2. repeat (split; [assumption || reflexivity |]).
    unfold merged.
    rewrite (index_from_split n l1 l2 old Ho Hl 0). cbn [Nat.add].
    now rewrite nth_split, list_set_split.
  - right. split; [exact Hn |]. unfold merged.
    apply (index_from_none n subs 0) in Hn. now rewrite Hn.
Qed.

Lemma removed_app (n : Z) (l1 l2 : list value) :
  removed n (l1 ++ l2) = (removed n l1 ++ removed n l2)%list.
Proof. apply filter_app. Qed.

Lemma removed_has_issue (n : Z) (x : value) (l : list value) :
  has_issue n x = true -> removed n (x :: l) = removed n l.
Proof. intros H. unfold removed. cbn [filter]. now rewrite H. Qed.

Lemma removed_merged now n author body url (subs : list value) :
  removed n (merged now n author body url subs) = removed n subs.
Proof.
  destruct (merged_eq now n author body url subs)
    as [(l1 & old & l2 & -> & Ho & Hl & ->) | [Hn ->]].
  - rewrite !removed_app, !removed_has_issue;
      [reflexivity | exact Ho | apply has_issue_new].
  - rewrite removed_app, removed_has_issue, List.app_nil_r; [reflexivity |].
    rewrite <- new_submission_flag. apply has_issue_new.
Qed.

Lemma find_issue_none (n : Z) (l : list value) :
  forallb (other_issue n) l = true -> find_issue n l = None.
Proof.
  unfold find_issue.
  change (fun sub => match issue_of sub with
                     | Some m => m =? n
                     | None => false
                     end) with (has_issue n).
  induction l as [| x l IH]; cbn [forallb find]; [reflexivity |].
  intros H. apply andb_prop in H as [Hx Hl]. unfold other_issue in Hx.
  destruct (has_issue n x); [discriminate | now apply IH].
Qed.

Lemma length_list_set (l : list value) (i : nat) (x : value) :
  List.length (Op.list_set l i x) = List.length l.
Proof.
  revert i. induction l as [| y l IH]; intros [| i]; cbn; auto.
Qed.

Lemma length_merged now n author body url (subs : list value) :
  List.length (merged now n author body url subs)
  = match find_issue n subs with
    | Some _ => List.length subs
    | None => S (List.length subs)
    end.
Proof.
  destruct (merged_eq now n author body url subs)
    as [(l1 & old & l2 & -> & Ho & Hl & ->) | [Hn ->]].
  - rewrite (find_issue_split n l1 l2 old Ho Hl). now rewrite !length_app.
  - rewrite (find_issue_none n subs Hn), length_app. cbn. lia.
Qed.

Lemma field_with_submissions (lb : value) (subs : list value) (k : string) :
  k <> "submissions" ->
  field (with_submissions lb subs) k = field lb k.
Proof.
  intros Hk. destruct lb; try reflexivity. cbn [with_submissions field].
  apply dict_get_set_other. congruence.
Qed.

(** X7.  [update_leaderboard] on a store writes the file once
    and prints its line; the collection it leaves has the entries of
    the other issues that it had, each as it was; it is as long as
    before when the issue had an entry and one longer when it had
    none; and what the store holds beside [submissions] is as it
    was. *)
Theorem update_touches_one_issue
        (w : world) (lb : value) (subs : list value)
        (now : string) (n : Z) (title author body url : string) :
  holds w lb ->
  store lb subs ->
  exists w' lb' subs',
    update_leaderboard now n title author body url w = (Return true, w')
    /\ writes w' = S (writes w)
    /\ stdout w'
       = (stdout w
          ++ [("Updated leaderboard with issue #" ++ Py.repr_int n)%string])%list
    /\ holds w' lb'
    /\ store lb' subs'
    /\ Permutation (removed n subs') (removed n subs)
    /\ List.length subs'
       = match find_issue n subs with
         | Some _ => List.length subs
         | None => S (List.length subs)
         end
    /\ forall k, k <> "submissions" -> field lb' k = field lb k.
Proof.
  intros Hh Hs.
  pose proof (store_updated now n author body url lb subs Hs) as Hs'.
  exists (saved w (with_submissions lb (updated now n author body url subs))
            ("Updated leaderboard with issue #" ++ Py.repr_int n)),
    (with_submissions lb (updated now n author body url subs)),
    (updated now n author body url subs).
  split; [now apply update_leaderboard_spec |].
  split; [reflexivity |]. split; [reflexivity |].
  split; [apply holds_saved, Hs' |]. split; [exact Hs' |].
  split; [| split].
  - rewrite <- (removed_merged now n author body url subs).
    apply filter_perm, sorted_by_accuracy_perm.
  - rewrite <- (length_merged now n author body url subs).
    apply Permutation_length, sorted_by_accuracy_perm.
  - intros k Hk. now apply field_with_submissions.
Qed.

(** X8.  After [update_leaderboard] the collection has the
    entry of the call: the issue number, the answers of the body, with
    the author's name for a missing student name, ["N/A"] for a missing
    model length, accuracy or GPU hours and the empty string for a
    missing link or description, the URL, the time; and for
    [verified] the flag of the entry it replaces, [False] when there
    was none. *)
Theorem update_stores_the_answers
        (w : world) (lb : value) (subs : list value)
        (now : string) (n : Z) (title author body url : string) :
  holds w lb ->
  store lb subs ->
  exists w' lb' subs',
    update_leaderboard now n title author body url w = (Return true, w')
    /\ holds w' lb'
    /\ store lb' subs'
    /\ In (VDict
             [ ("issue_number", VInt n);
               ("student_name",
                 VStr (Dict.get_default (parse_issue_body body)
                         "student_name" author));
               ("model_length",
                 VStr (Dict.get_default (parse_issue_body body)
                         "model_length" "N/A"));
               ("accuracy",
                 VStr (Dict.get_default (parse_issue_body body) "accuracy" "N/A"));
               ("tensorboard_link",
                 VStr (Dict.get_default (parse_issue_body body)
                         "tensorboard_link" ""));
               ("improvement_description",
                 VStr (Dict.get_default (parse_issue_body body)
                         "improvement_description" ""));
               ("gpu_hours",
                 VStr (Dict.get_default (parse_issue_body body) "gpu_hours" "N/A"));
               ("issue_url", VStr url);
               ("submitted_at", VStr now);
               ("verified",
                 match find_issue n subs with
                 | Some old => carried_flag old
                 | None => VBool false
                 end) ])
         subs'.
Proof.
  intros Hh Hs.
  destruct (update_runs w lb subs now n title author body url Hh Hs)
    as (w' & lb' & Hu & Hh' & Hs').
  exists w', lb', (updated now n author body url subs).
  repeat (split; [assumption |]).
  apply (Permutation_in _ (Permutation_sym (sorted_by_accuracy_perm _))).
  destruct (merged_eq now n author body url subs)
    as [(l1 & old & l2 & -> & Ho & Hl & ->) | [Hn ->]].
  - rewrite (find_issue_split n l1 l2 old Ho Hl).
    apply in_elt.
  - rewrite (find_issue_none n subs Hn).
    apply in_or_app. right. left. reflexivity.
Qed.

(** ** [mark_verified] *)

Lemma dict_set_set {V : Type} (d : Dict.t V) (k : string) (x y : V) :
  Dict.set (Dict.set d k x) k y = Dict.set d k y.
Proof.
  induction d as [| [k' v] d IH]; cbn [Dict.set].
  - now rewrite String.eqb_refl.
  - destruct (String.eqb k' k) eqn:E; cbn [Dict.set]; rewrite E;
      [reflexivity | now rewrite IH].
Qed.

Lemma with_submissions_twice (lb : value) (subs subs' : list value) :
  with_submissions (with_submissions lb subs) subs' = with_submissions lb subs'.
Proof.
  destruct lb; try reflexivity. cbn [with_submissions]. now rewrite dict_set_set.
Qed.

Lemma store_verified (lb : value) (l1 l2 : list value)
      (d : list (string * value)) (x : value) :
  store lb (l1 ++ VDict d :: l2) ->
  valid x ->
  store (with_submissions lb (l1 ++ VDict (Dict.set d "verified" x) :: l2))
    (l1 ++ VDict (Dict.set d "verified" x) :: l2).
Proof.
  intros Hs Hx.
  apply (store_with_submissions lb (l1 ++ VDict d :: l2)); [exact Hs | |].
  - pose proof (store_valid_subs _ _ Hs) as Hv.
    apply Forall_app in Hv as [H1 H2]. inversion H2 as [| ? ? Hd H3]; subst.
    apply Forall_app. split; [exact H1 |]. constructor; [| exact H3].
    now apply valid_dict_set.
  - destruct Hs as (_ & _ & Hb). rewrite forallb_app in Hb |- *.
    apply andb_prop in Hb as [H1 H2]. cbn [forallb] in H2 |- *.
    apply andb_prop in H2 as [H2 H3]. rewrite H1, H3.
    unfold is_submission in H2 |- *. rewrite issue_of_set_verified.
    now rewrite H2.
Qed.

(** X10.  [mark_verified] for an issue of the store writes the
    file once, prints its line and returns [True]; the collection it
    leaves is the one it found, in the same order, but for the first
    entry of the issue, whose [verified] is now [True] and whose other
    fields are as they were. *)
Theorem mark_verified_sets_one_flag
        (w : world) (lb : value) (subs : list value) (n : Z) (old : value) :
  holds w lb ->
  store lb subs ->
  find_issue n subs = Some old ->
  exists w' lb' l1 l2 d,
    subs = (l1 ++ old :: l2)%list
    /\ ~ In n (issues l1)
    /\ old = VDict d
    /\ mark_verified n w = (Return true, w')
    /\ writes w' = S (writes w)
    /\ stdout w'
       = (stdout w
          ++ [("Marked issue #" ++ Py.repr_int n ++ " as verified")%string])%list
    /\ holds w' lb'
    /\ store lb' (l1 ++ VDict (Dict.set d "verified" (VBool true)) :: l2)
    /\ forall k, k <> "submissions" -> field lb' k = field lb k.
Proof.
  intros Hh Hs Hf.
  destruct (find_issue_inv n subs old Hf) as (l1 & l2 & -> & Ho & Hl).
  destruct (is_submission_inv old (has_issue_submission n old Ho))
    as (d & m & -> & E).
  pose proof (mark_verified_spec w lb _ n Hh Hs) as Hm.
  rewrite (verified_first_split n l1 l2 (VDict d) Ho Hl d eq_refl) in Hm.
  pose proof (store_verified lb l1 l2 d (VBool true) Hs I) as Hs'.
  eexists _, _, l1, l2, d.
  split; [reflexivity |]. split; [now apply no_issue_iff |].
  split; [reflexivity |]. split; [exact Hm |].
  split; [reflexivity |]. split; [reflexivity |].
  split; [apply holds_saved, Hs' |]. split; [exact Hs' |].
  intros k Hk. now apply field_with_submissions.
Qed.

(** X11.  [mark_verified] a second time for the same issue
    returns [True] again and writes the file again, with the contents
    the first call gave it. *)
Theorem mark_verified_twice
        (w : world) (lb : value) (subs : list value) (n : Z) :
  holds w lb ->
  store lb subs ->
  In n (issues subs) ->
  exists w1 w2,
    mark_verified n w = (Return true, w1)
    /\ mark_verified n w1 = (Return true, w2)
    /\ file w2 = file w1
    /\ writes w2 = S (S (writes w)).
Proof.
  intros Hh Hs Hin.
  destruct (first_issue_split n subs) as [(l1 & old & l2 & -> & Ho & Hl) | Hn];
    [| now apply no_issue_iff in Hn].
  destruct (is_submission_inv old (has_issue_submission n old Ho))
    as (d & m & -> & E).
  pose proof (mark_verified_spec w lb _ n Hh Hs) as Hm.
  rewrite (verified_first_split n l1 l2 (VDict d) Ho Hl d eq_refl) in Hm.
  pose proof (store_verified lb l1 l2 d (VBool true) Hs I) as Hs1.
  assert (Ho1 : has_issue n (VDict (Dict.set d "verified" (VBool true))) = true).
  { unfold has_issue in *. now rewrite issue_of_set_verified. }
  pose proof (mark_verified_spec _ _ _ n
                (holds_saved w _ ("Marked issue #" ++ Py.repr_int n
                                  ++ " as verified") (proj1 Hs1)) Hs1) as Hm2.
  rewrite (verified_first_split n l1 l2 _ Ho1 Hl _ eq_refl) in Hm2.
  rewrite dict_set_set, with_submissions_twice in Hm2.
  eexists _, _. split; [exact Hm |]. split; [exact Hm2 |].
  split; reflexivity.
Qed.

(** ** [remove_submission] *)

Lemma length_removed (n : Z) (l : list value) :
  In n (issues l) -> (List.length (removed n l) < List.length l)%nat.
Proof.
  intros Hin.
  destruct (first_issue_split n l) as [(l1 & old & l2 & -> & Ho & Hl) | Hn];
    [| now apply no_issue_iff in Hn].
  rewrite removed_app, removed_has_issue by exact Ho.
  rewrite !length_app. cbn [List.length].
  pose proof (filter_length_le (fun sub => negb (has_issue n sub)) l1).
  pose proof (filter_length_le (fun sub => negb (has_issue n sub)) l2).
  unfold removed. lia.
Qed.




(** ** An update taken back *)

Lemma filter_filter {A : Type} (f g : A -> bool) (l : list A) :
  filter f (filter g l) = filter g (filter f l).
Proof.
  induction l as [| x l IH]; cbn [filter]; [reflexivity |].
  destruct (f x) eqn:Ef, (g x) eqn:Eg; cbn [filter];
    rewrite ?Ef, ?Eg, IH; reflexivity.
Qed.

Lemma filter_sorted {A : Type} (R : A -> A -> Prop) (f : A -> bool) (l : list A) :
  StronglySorted R l -> StronglySorted R (filter f l).
Proof.
  induction 1 as [| x l Hl IH Hx]; cbn [filter]; [constructor |].
  destruct (f x); [| exact IH]. constructor; [exact IH |].
  rewrite Forall_forall in *. intros y Hy. apply filter_In in Hy as [Hy _].
  now apply Hx.
Qed.

Lemma filter_forall {A : Type} (P : A -> Prop) (f : A -> bool) (l : list A) :
  Forall P l -> Forall P (filter f l).
Proof.
  rewrite !Forall_forall. intros H x Hx. apply filter_In in Hx as [Hx _].
  now apply H.
Qed.

Lemma sorted_numeric (l : list value) :
  Forall numeric l -> Forall numeric (sorted_by_accuracy l).
Proof.
  intros H. eapply Permutation_Forall; [| exact H].
  apply Permutation_sym, sorted_by_accuracy_perm.
Qed.

(** A collection that is in order already is left as it is. *)
Lemma sorted_by_accuracy_fixed (l : list value) :
  Forall numeric l -> descending l -> sorted_by_accuracy l = l.
Proof.
  intros Hn Hd. apply stable_descending_unique.
  - now apply sorted_numeric.
  - exact Hn.
  - now apply sorted_by_accuracy_descending.
  - exact Hd.
  - apply sorted_by_accuracy_stable.
Qed.

(** Sorting and removing an issue can be done in either order. *)
Lemma removed_sorted (n : Z) (l : list value) :
  Forall numeric l ->
  removed n (sorted_by_accuracy l) = sorted_by_accuracy (removed n l).
Proof.
  intros Hn. apply stable_descending_unique.
  - now apply filter_forall, sorted_numeric.
  - now apply sorted_numeric, filter_forall.
  - now apply filter_sorted, sorted_by_accuracy_descending.
  - now apply sorted_by_accuracy_descending, filter_forall.
  - intros k. unfold with_key, removed.
    rewrite filter_filter.
    pose proof (sorted_by_accuracy_stable l k) as E1. unfold with_key in E1.
    rewrite E1.
    pose proof (sorted_by_accuracy_stable
                  (filter (fun sub => negb (has_issue n sub)) l) k) as E2.
    unfold with_key in E2. rewrite E2.
    apply filter_filter.
Qed.

Lemma dict_set_get {V : Type} (d : Dict.t V) (k : string) (x : V) :
  Dict.get d k = Some x -> Dict.set d k x = d.
Proof.
  induction d as [| [k' v] d IH]; cbn [Dict.get Dict.set]; [discriminate |].
  destruct (String.eqb k' k).
  - now intros [= ->].
  - intros H. now rewrite IH.
Qed.

Lemma with_submissions_same (lb : value) (subs : list value) :
  store lb subs -> with_submissions lb subs = lb.
Proof.
  intros (_ & (top & -> & E) & _). cbn [with_submissions].
  now rewrite dict_set_get.
Qed.

(** X13.  An update for an issue the store does not have, followed by
    [remove_submission] for that issue, leaves the store with the
    collection it had, sorted; and with the very store it had when the
    collection was in order.  (The rank keys are taken to be numbers.) *)
Theorem update_then_remove
        (w : world) (lb : value) (subs : list value)
        (now : string) (n : Z) (title author body url : string) :
  holds w lb ->
  store lb subs ->
  ~ In n (issues subs) ->
  Forall numeric (merged now n author body url subs) ->
  exists w1 w2,
    update_leaderboard now n title author body url w = (Return true, w1)
    /\ remove_submission n w1 = (Return true, w2)
    /\ holds w2 (with_submissions lb (sorted_by_accuracy subs))
    /\ (descending subs -> holds w2 lb /\ file w2 = Some (Json.dumps lb)).
Proof.
  intros Hh Hs Hout Hn.
  pose proof (store_updated now n author body url lb subs Hs) as Hs1.
  pose proof (update_leaderboard_spec w lb subs now n title author body url Hh Hs)
    as Hu.
  pose proof (remove_submission_spec _ _ _ n
                (holds_saved w _ ("Updated leaderboard with issue #"
                                  ++ Py.repr_int n) (proj1 Hs1)) Hs1) as Hr.
  assert (Hin : In n (issues (updated now n author body url subs))).
  { apply (Permutation_in _ (issues_perm _ _
             (Permutation_sym (sorted_by_accuracy_perm _)))).
    destruct (merged_eq now n author body url subs)
      as [(l1 & old & l2 & -> & Ho & Hl & ->) | [_ ->]].
    - rewrite (issues_split n l1 l2 _ (has_issue_new _ _ _ _ _ _)).
      apply in_elt.
    - rewrite issues_app. apply in_or_app. right. now left. }
  apply length_removed, Nat.ltb_lt in Hin. rewrite Hin in Hr.
  assert (E : removed n (updated now n author body url subs)
              = sorted_by_accuracy subs).
  { unfold updated. rewrite removed_sorted by exact Hn.
    rewrite removed_merged, removed_none; [reflexivity |].
    now apply no_issue_iff. }
  rewrite E, with_submissions_twice in Hr.
  assert (Hnum : Forall numeric subs).
  { rewrite <- (removed_none n subs) by now apply no_issue_iff.
    rewrite <- (removed_merged now n author body url subs).
    now apply filter_forall. }
  assert (Hs2 : store (with_submissions lb (sorted_by_accuracy subs))
                  (sorted_by_accuracy subs)).
  { apply (store_with_submissions lb subs); [exact Hs | |].
    - eapply Permutation_Forall;
        [apply Permutation_sym, sorted_by_accuracy_perm |].
      apply (store_valid_subs _ _ Hs).
    - apply forallb_Forall.
      eapply Permutation_Forall;
        [apply Permutation_sym, sorted_by_accuracy_perm |].
      apply forallb_Forall. now destruct Hs as (_ & _ & Hb). }
  eexists _, _. split; [exact Hu |]. split; [exact Hr |].
  split; [apply holds_saved, Hs2 |].
  intros Hd.
  rewrite (sorted_by_accuracy_fixed subs Hnum Hd),
    (with_submissions_same lb subs Hs).
  split; [apply holds_saved; now destruct Hs | reflexivity].
Qed.

(* ================================================================== *)
(** * Files the operations cannot work on *)
(* ================================================================== *)

Lemma load_raises (w : world) (s : string) :
  file w = Some s -> Json.loads s = None ->
  load_leaderboard w = (Raise JSONDecodeError, w).
Proof. intros Hf Hl. now rewrite load_leaderboard_eq, Hf, Hl. Qed.

Lemma loads_blank (s : string) : Json.skip_ws s = "" -> Json.loads s = None.
Proof. intros H. unfold Json.loads. rewrite H. reflexivity. Qed.

Lemma bind_raise {A B : Type} (m : M A) (f : A -> M B) (w w' : world) (e : exn) :
  m w = (Raise e, w') -> bind m f w = (Raise e, w').
Proof. intros H. unfold bind. now rewrite H. Qed.

(** X14.  When the file exists and holds nothing, or white space
    only, every operation raises the error of [json.load]; nothing is
    written and nothing is printed. *)
Theorem empty_file_is_an_error
        (w : world) (s now : string) (n : Z) (title author body url : string) :
  file w = Some s ->
  Json.skip_ws s = "" ->
  update_leaderboard now n title author body url w = (Raise JSONDecodeError, w)
  /\ mark_verified n w = (Raise JSONDecodeError, w)
  /\ remove_submission n w = (Raise JSONDecodeError, w).
Proof.
  intros Hf Hs.
  pose proof (load_raises w s Hf (loads_blank s Hs)) as Hl.
  split; [| split]; now apply bind_raise.
Qed.

Lemma empty_file_is_an_error_witness :
  file world_of_empty_file = Some ""
  /\ Json.skip_ws "" = ""
  /\ submit 1 "95%" world_of_empty_file
     = (Raise JSONDecodeError, world_of_empty_file)
  /\ mark_verified 1 world_of_empty_file
     = (Raise JSONDecodeError, world_of_empty_file)
  /\ remove_submission 1 world_of_empty_file
     = (Raise JSONDecodeError, world_of_empty_file).
Proof.
  split; [reflexivity |]. split; [reflexivity |].
  apply (empty_file_is_an_error world_of_empty_file "" example_time 1
           "Submission" "ann" (body_accuracy "95%") example_url);
    reflexivity.
Defined.

(** X15.  When what the file holds is not an object with the
    key [submissions], every operation raises: [KeyError] for an
    object without the key, [TypeError] for any other value; nothing is
    written and nothing is printed. *)
Theorem store_without_submissions
        (w : world) (lb : value) (now : string) (n : Z)
        (title author body url : string) :
  holds w lb ->
  field lb "submissions" = None ->
  let e := match lb with VDict _ => KeyError | _ => TypeError end in
  update_leaderboard now n title author body url w = (Raise e, w)
  /\ mark_verified n w = (Raise e, w)
  /\ remove_submission n w = (Raise e, w).
Proof.
  intros Hh Hf e.
  assert (Hg : Op.getitem lb "submissions" w = (Raise e, w)).
  { destruct lb; try reflexivity. cbn in Hf |- *. now rewrite Hf. }
  unfold update_leaderboard, mark_verified, remove_submission.
  rewrite !(bind_return _ _ _ _ _ Hh).
  split; [| split]; now apply bind_raise.
Qed.

Lemma store_without_submissions_witness :
  holds world_without_submissions (VDict [])
  /\ field (VDict []) "submissions" = None
  /\ submit 1 "95%" world_without_submissions
     = (Raise KeyError, world_without_submissions)
  /\ mark_verified 1 world_without_submissions
     = (Raise KeyError, world_without_submissions)
  /\ remove_submission 1 world_without_submissions
     = (Raise KeyError, world_without_submissions).
Proof.
  split; [reflexivity |]. split; [reflexivity |].
  apply (store_without_submissions world_without_submissions (VDict [])
           example_time 1 "Submission" "ann" (body_accuracy "95%") example_url);
    reflexivity.
Defined.

(** ** An entry without its issue number *)

Section EntryWithoutNumber.
Variables (n : Z) (l1 l2 : list value) (d : list (string * value)).
Hypothesis Hl1 : forallb is_submission l1 = true.
Hypothesis Hd : Dict.get d "issue_number" = None.

Lemma getitem_number (sub : value) (w : world) :
  is_submission sub = true ->
  exists m, Op.getitem sub "issue_number" w = (Return (VInt m), w)
            /\ issue_of sub = Some m.
Proof.
  intros H. destruct (is_submission_inv sub H) as (d' & m & -> & E).
  exists m. cbn. now rewrite E.
Qed.

Lemma others_raises (w : world) :
  others n (l1 ++ VDict d :: l2) w = (Raise KeyError, w).
Proof.
  induction l1 as [| x l IH]; cbn [app others].
  - apply bind_raise. cbn. now rewrite Hd.
  - cbn [forallb] in Hl1. apply andb_prop in Hl1 as [Hx Hl].
    destruct (getitem_number x w Hx) as (m & E & _).
    rewrite (bind_return _ _ _ _ _ E). apply bind_raise. now apply IH.
Qed.

Lemma find_existing_raises (i : nat) (w : world) :
  ~ In n (issues l1) ->
  find_existing n i (l1 ++ VDict d :: l2) w = (Raise KeyError, w).
Proof.
  revert i. induction l1 as [| x l IH]; intros i Hn; cbn [app find_existing].
  - apply bind_raise. cbn. now rewrite Hd.
  - cbn [forallb] in Hl1. apply andb_prop in Hl1 as [Hx Hl].
    destruct (getitem_number x w Hx) as (m & E & Ei).
    rewrite (bind_return _ _ _ _ _ E). cbn [Py.eq_int].
    rewrite (issues_cons x l m Ei) in Hn.
    destruct (Z.eqb_spec m n) as [-> | Hne]; [exfalso; apply Hn; now left |].
    apply IH; [exact Hl |]. intros H. apply Hn. now right.
Qed.

Lemma verify_first_raises (w : world) :
  ~ In n (issues l1) ->
  verify_first n (l1 ++ VDict d :: l2) w = (Raise KeyError, w).
Proof.
  induction l1 as [| x l IH]; intros Hn; cbn [app verify_first].
  - apply bind_raise. cbn. now rewrite Hd.
  - cbn [forallb] in Hl1. apply andb_prop in Hl1 as [Hx Hl].
    destruct (getitem_number x w Hx) as (m & E & Ei).
    rewrite (bind_return _ _ _ _ _ E). cbn [Py.eq_int].
    rewrite (issues_cons x l m Ei) in Hn.
    destruct (Z.eqb_spec m n) as [-> | Hne]; [exfalso; apply Hn; now left |].
    apply bind_raise. apply IH; [exact Hl |]. intros H. apply Hn. now right.
Qed.

End EntryWithoutNumber.

(** X16.  An entry of the collection that is an object without
    [issue_number], after entries that have one: [remove_submission]
    raises [KeyError] whatever the issue, and so do
    [update_leaderboard] and [mark_verified] for an issue that has no
    entry before that one; nothing is written and nothing is
    printed. *)
Theorem entry_without_issue_number
        (w : world) (top : list (string * value)) (l1 l2 : list value)
        (d : list (string * value)) (now : string) (n : Z)
        (title author body url : string) :
  holds w (VDict top) ->
  Dict.get top "submissions" = Some (VList (l1 ++ VDict d :: l2)) ->
  forallb is_submission l1 = true ->
  Dict.get d "issue_number" = None ->
  remove_submission n w = (Raise KeyError, w)
  /\ (~ In n (issues l1) ->
      update_leaderboard now n title author body url w = (Raise KeyError, w)
      /\ mark_verified n w = (Raise KeyError, w)).
Proof.
  intros Hh Ht Hl Hd.
  assert (Hg : Op.getitem (VDict top) "submissions" w
               = (Return (VList (l1 ++ VDict d :: l2)), w)).
  { cbn. now rewrite Ht. }
  unfold update_leaderboard, mark_verified, remove_submission.
  rewrite !(bind_return _ _ _ _ _ Hh), !(bind_return _ _ _ _ _ Hg).
  split; [| intros Hn; split].
  - cbn [Op.len Op.iter]. unfold bind at 1 2. cbn [ret].
    apply bind_raise. now apply others_raises.
  - cbn [Op.iter]. unfold bind at 1. cbn [ret].
    apply bind_raise. now apply find_existing_raises.
  - cbn [Op.iter]. unfold bind at 1. cbn [ret].
    apply bind_raise. now apply verify_first_raises.
Qed.

Lemma entry_without_issue_number_witness :
  holds (world_of [VDict [("accuracy", VStr "95%")]])
    (VDict [("submissions", VList ([] ++ VDict [("accuracy", VStr "95%")] :: []))])
  /\ remove_submission 1 (world_of [VDict [("accuracy", VStr "95%")]])
     = (Raise KeyError, world_of [VDict [("accuracy", VStr "95%")]])
  /\ (~ In 1 (issues []) ->
      submit 1 "95%" (world_of [VDict [("accuracy", VStr "95%")]])
      = (Raise KeyError, world_of [VDict [("accuracy", VStr "95%")]])
      /\ mark_verified 1 (world_of [VDict [("accuracy", VStr "95%")]])
         = (Raise KeyError, world_of [VDict [("accuracy", VStr "95%")]])).
Proof.
  split; [reflexivity |].
  apply (entry_without_issue_number
           (world_of [VDict [("accuracy", VStr "95%")]])
           [("submissions", VList ([] ++ VDict [("accuracy", VStr "95%")] :: []))]
           [] [] [("accuracy", VStr "95%")]
           example_time 1 "Submission" "ann" (body_accuracy "95%") example_url);
    reflexivity.
Defined.

(* ================================================================== *)
(** * Where a NaN key comes from *)
(* ================================================================== *)

Lemma round_pos_number (p q : Z) : Float.is_nan (Float.round_pos p q) = false.
Proof. unfold Float.round_pos. cbv zeta. now destruct (_ <=? _). Qed.

Lemma neg_number (x : Float.t) :
  Float.is_nan (Float.neg x) = Float.is_nan x.
Proof. now destruct x. Qed.

Lemma round_number (p q : Z) : Float.is_nan (Float.round p q) = false.
Proof.
  destruct p; cbn [Float.round]; [reflexivity | apply round_pos_number |].
  rewrite neg_number. apply round_pos_number.
Qed.

Lemma div_int_number (x : Float.t) (n : Z) :
  Float.is_nan (Float.div_int x n) = Float.is_nan x.
Proof. destruct x; cbn [Float.div_int]; try reflexivity. apply round_number. Qed.

Lemma of_decimal_number (m e : Z) : Float.is_nan (Num.of_decimal m e) = false.
Proof. unfold Num.of_decimal. destruct (0 <=? e); apply round_number. Qed.

(** The key of a parsed float is the NaN when the float is. *)
Lemma scaled_number (v : Float.t) :
  Float.is_nan (if Float.gtb v (Float.of_Z 1) then Float.div_int v 100 else v)
  = Float.is_nan v.
Proof. destruct (Float.gtb _ _); [apply div_int_number | reflexivity]. Qed.

Lemma py_float_nan (s : string) :
  match Num.py_float s with
  | Some v => Float.is_nan v
  | None => false
  end = spells_nan s.
Proof.
  unfold Num.py_float, spells_nan.
  destruct (Num.drop_underscores _) as [s0 |]; [| reflexivity].
  destruct (Num.sign s0) as [minus s1]. cbn [snd].
  destruct (String.eqb_spec (Str.lower s1) "inf") as [-> | _];
    [now destruct minus |].
  destruct (String.eqb_spec (Str.lower s1) "infinity") as [-> | _];
    [now destruct minus |].
  cbn [orb].
  destruct (String.eqb (Str.lower s1) "nan"); [reflexivity |].
  destruct (Num.decimal s1) as [[m e] |]; [| reflexivity].
  destruct minus; [rewrite neg_number |]; apply of_decimal_number.
Qed.

Lemma rank_key_nan (sub : value) :
  Float.is_nan (rank_key sub) = spells_nan (accuracy_text sub).
Proof.
  destruct sub; try reflexivity.
  unfold rank_key, accuracy_text. cbv zeta.
  destruct (Py.eq_str _ "N/A") eqn:E.
  - destruct (Dict.get_default d "accuracy" (VStr "N/A")); try discriminate.
    cbn [Py.eq_str] in E. apply String.eqb_eq in E. subst. reflexivity.
  - rewrite <- py_float_nan.
    destruct (Num.py_float _) as [v |]; [apply scaled_number | reflexivity].
Qed.

(** X17.  The key that [get_accuracy_value] returns for an entry is the
    NaN exactly when the text that it hands to [float] spells it: no
    other accuracy gives a key that the sort cannot order. *)
Theorem nan_key_is_spelled_out (d : list (string * value)) (w : world) :
  exists key,
    get_accuracy_value (VDict d) w = (Return key, w)
    /\ Float.is_nan key = spells_nan (accuracy_text (VDict d)).
Proof.
  exists (rank_key (VDict d)).
  split; [apply get_accuracy_value_dict | apply rank_key_nan].
Qed.

(* ================================================================== *)
(** * [verify] and [remove] on the command line *)
(* ================================================================== *)

(** X18.  The command lines of [verify] and [remove]: without an
    argument after the action the script prints its error and exits
    with status 1; with one, it reads it with [int], raises
    [ValueError] before anything else when it is not an integer, and
    calls the operation otherwise, whatever the operation returns and
    whatever arguments follow. *)
Theorem verify_and_remove_take_one_argument
        (now : string) (argv : list string) (w : world) :
  arg argv 1 = "verify" \/ arg argv 1 = "remove" ->
  ((List.length argv < 3)%nat ->
   main now argv w
   = (Raise (SystemExit 1),
      printed w ("Error: " ++ arg argv 1 ++ " action requires issue_number")))
  /\ ((3 <= List.length argv)%nat ->
      (Num.py_int (arg argv 2) = None ->
       main now argv w = (Raise ValueError, w))
      /\ forall n, Num.py_int (arg argv 2) = Some n ->
           main now argv w
           = ((if String.eqb (arg argv 1) "verify" then mark_verified n
               else remove_submission n) ;; ret tt) w).
Proof.
  intros Ha.
  assert (H2 : (List.length argv <? 2)%nat = false).
  { apply Nat.ltb_ge. destruct argv as [| a [| b l]]; cbn in *; try lia;
      destruct Ha; discriminate. }
  unfold main. rewrite H2.
  destruct Ha as [Ha | Ha]; rewrite Ha; cbn [String.eqb Ascii.eqb Bool.eqb];
    (split; [intros Hl; apply Nat.ltb_lt in Hl; rewrite Hl; reflexivity |]);
    intros Hl; apply Nat.ltb_ge in Hl; rewrite Hl;
    (split; [intros E | intros n E]); unfold int_of, bind at 1; rewrite E;
    reflexivity.
Qed.

Lemma verify_and_remove_take_one_argument_witness :
  (arg ["process_issue.py"; "remove"; "1"; "more"] 1 = "verify"
   \/ arg ["process_issue.py"; "remove"; "1"; "more"] 1 = "remove")
  /\ main example_time ["process_issue.py"; "remove"; "1"; "more"]
       (world_of one_entry)
     = (remove_submission 1 ;; ret tt) (world_of one_entry).
Proof.
  split; [right; reflexivity |].
  apply (verify_and_remove_take_one_argument example_time
           ["process_issue.py"; "remove"; "1"; "more"] (world_of one_entry));
    [right; reflexivity | cbn; lia | reflexivity].
Defined.

(* ================================================================== *)
(** * The properties above on the store of the examples *)
(* ================================================================== *)

Lemma second_entry_numeric :
  Forall numeric
    (merged example_time 2 "ann" (body_accuracy "0.5") example_url one_entry).
Proof.
  assert (Em : merged example_time 2 "ann" (body_accuracy "0.5") example_url
                 one_entry
               = [entry 1 "95%"; entry 2 "0.5"]) by (vm_compute; reflexivity).
  rewrite Em. repeat constructor; vm_compute; reflexivity.
Qed.

Lemma one_entry_first : find_issue 1 one_entry = Some (entry 1 "95%").
Proof. reflexivity. Qed.

Lemma one_entry_has_1 : In 1 (issues one_entry).
Proof. left. reflexivity. Qed.

Lemma one_entry_lacks_2 : ~ In 2 (issues one_entry).
Proof. intros [H | []]. discriminate H. Qed.

Lemma one_entry_descending : descending one_entry.
Proof. repeat constructor. Qed.

Lemma update_sorts_numbers_witness :
  holds (world_of one_entry) (store_of one_entry)
  /\ store (store_of one_entry) one_entry
  /\ Forall numeric
       (merged example_time 2 "ann" (body_accuracy "0.5") example_url one_entry)
  /\ exists w' lb' subs',
      submit 2 "0.5" (world_of one_entry) = (Return true, w')
      /\ holds w' lb' /\ store lb' subs'
      /\ descending subs'
      /\ stable
           (merged example_time 2 "ann" (body_accuracy "0.5") example_url
              one_entry)
           subs'.
Proof.
  split; [apply one_entry_holds |].
  split; [apply one_entry_store |].
  split; [apply second_entry_numeric |].
  apply (update_sorts_numbers (world_of one_entry) (store_of one_entry)
           one_entry example_time 2 "Submission" "ann" (body_accuracy "0.5")
           example_url one_entry_holds one_entry_store second_entry_numeric).
Defined.

Lemma update_touches_one_issue_witness :
  holds (world_of one_entry) (store_of one_entry)
  /\ store (store_of one_entry) one_entry
  /\ exists w' lb' subs',
      submit 2 "0.5" (world_of one_entry) = (Return true, w')
      /\ writes w' = S (writes (world_of one_entry))
      /\ stdout w'
         = (stdout (world_of one_entry)
            ++ [("Updated leaderboard with issue #" ++ Py.repr_int 2)%string])%list
      /\ holds w' lb'
      /\ store lb' subs'
      /\ Permutation (removed 2 subs') (removed 2 one_entry)
      /\ List.length subs'
         = match find_issue 2 one_entry with
           | Some _ => List.length one_entry
           | None => S (List.length one_entry)
           end
      /\ forall k, k <> "submissions" ->
                   field lb' k = field (store_of one_entry) k.
Proof.
  split; [apply one_entry_holds |].
  split; [apply one_entry_store |].
  apply (update_touches_one_issue (world_of one_entry) (store_of one_entry)
           one_entry example_time 2 "Submission" "ann" (body_accuracy "0.5")
           example_url one_entry_holds one_entry_store).
Defined.

Lemma update_stores_the_answers_witness :
  holds (world_of one_entry) (store_of one_entry)
  /\ store (store_of one_entry) one_entry
  /\ exists w' lb' subs',
      update_leaderboard example_time 1 "Submission" "bob"
        "I trained it for longer." example_url (world_of one_entry)
      = (Return true, w')
      /\ holds w' lb'
      /\ store lb' subs'
      /\ In (VDict
               [ ("issue_number", VInt 1);
                 ("student_name", VStr "bob");
                 ("model_length", VStr "N/A");
                 ("accuracy", VStr "N/A");
                 ("tensorboard_link", VStr "");
                 ("improvement_description", VStr "");
                 ("gpu_hours", VStr "N/A");
                 ("issue_url", VStr example_url);
                 ("submitted_at", VStr example_time);
                 ("verified", VBool false) ])
           subs'.
Proof.
  split; [apply one_entry_holds |].
  split; [apply one_entry_store |].
  apply (update_stores_the_answers (world_of one_entry) (store_of one_entry)
           one_entry example_time 1 "Submission" "bob"
           "I trained it for longer." example_url
           one_entry_holds one_entry_store).
Defined.

Lemma mark_verified_sets_one_flag_witness :
  holds (world_of one_entry) (store_of one_entry)
  /\ store (store_of one_entry) one_entry
  /\ find_issue 1 one_entry = Some (entry 1 "95%")
  /\ exists w' lb' l1 l2 d,
      one_entry = (l1 ++ entry 1 "95%" :: l2)%list
      /\ ~ In 1 (issues l1)
      /\ entry 1 "95%" = VDict d
      /\ mark_verified 1 (world_of one_entry) = (Return true, w')
      /\ writes w' = S (writes (world_of one_entry))
      /\ stdout w'
         = (stdout (world_of one_entry)
            ++ [("Marked issue #" ++ Py.repr_int 1 ++ " as verified")%string])%list
      /\ holds w' lb'
      /\ store lb' (l1 ++ VDict (Dict.set d "verified" (VBool true)) :: l2)
      /\ forall k, k <> "submissions" ->
                   field lb' k = field (store_of one_entry) k.
Proof.
  split; [apply one_entry_holds |].
  split; [apply one_entry_store |].
  split; [apply one_entry_first |].
  apply (mark_verified_sets_one_flag (world_of one_entry) (store_of one_entry)
           one_entry 1 (entry 1 "95%")
           one_entry_holds one_entry_store one_entry_first).
Defined.

Lemma mark_verified_twice_witness :
  holds (world_of one_entry) (store_of one_entry)
  /\ store (store_of one_entry) one_entry
  /\ In 1 (issues one_entry)
  /\ exists w1 w2,
      mark_verified 1 (world_of one_entry) = (Return true, w1)
      /\ mark_verified 1 w1 = (Return true, w2)
      /\ file w2 = file w1
      /\ writes w2 = S (S (writes (world_of one_entry))).
Proof.
  split; [apply one_entry_holds |].
  split; [apply one_entry_store |].
  split; [apply one_entry_has_1 |].
  apply (mark_verified_twice (world_of one_entry) (store_of one_entry)
           one_entry 1 one_entry_holds one_entry_store one_entry_has_1).
Defined.


Lemma update_then_remove_witness :
  holds (world_of one_entry) (store_of one_entry)
  /\ store (store_of one_entry) one_entry
  /\ ~ In 2 (issues one_entry)
  /\ Forall numeric
       (merged example_time 2 "ann" (body_accuracy "0.5") example_url one_entry)
  /\ descending one_entry
  /\ exists w1 w2,
      submit 2 "0.5" (world_of one_entry) = (Return true, w1)
      /\ remove_submission 2 w1 = (Return true, w2)
      /\ holds w2 (with_submissions (store_of one_entry)
                     (sorted_by_accuracy one_entry))
      /\ (descending one_entry ->
          holds w2 (store_of one_entry)
          /\ file w2 = Some (Json.dumps (store_of one_entry))).
Proof.
  split; [apply one_entry_holds |].
  split; [apply one_entry_store |].
  split; [apply one_entry_lacks_2 |].
  split; [apply second_entry_numeric |].
  split; [apply one_entry_descending |].
  apply (update_then_remove (world_of one_entry) (store_of one_entry)
           one_entry example_time 2 "Submission" "ann" (body_accuracy "0.5")
           example_url one_entry_holds one_entry_store one_entry_lacks_2
           second_entry_numeric).
Defined.

(* ================================================================== *)
(** * The first run *)
(* ================================================================== *)

Lemma holds_no_file (w : world) : file w = None -> holds w empty_leaderboard.
Proof. intros H. unfold holds. now rewrite load_leaderboard_eq, H. Qed.

Lemma store_empty : store empty_leaderboard [].
Proof.
  split; [| split].
  - cbn. split; [repeat constructor; auto | auto].
  - exists [("submissions", VList [])]. now split.
  - reflexivity.
Qed.

(** X19.  Without a file, [update_leaderboard] creates it with the
    entry of the call as the one Submission; [mark_verified] and
    [remove_submission] find nothing, say so and create no file. *)
Theorem without_a_file
        (w : world) (now : string) (n : Z) (title author body url : string) :
  file w = None ->
  update_leaderboard now n title author body url w
  = (Return true,
     World
       (Some (Json.dumps
                (VDict [("submissions",
                         VList [VDict (new_submission now n author url
                                         (parse_issue_body body))])])))
       (S (writes w))
       (stdout w ++ [("Updated leaderboard with issue #" ++ Py.repr_int n)%string]))
  /\ mark_verified n w
     = (Return false, World None (writes w) (stdout w ++ [not_found n]))
  /\ remove_submission n w
     = (Return false, World None (writes w) (stdout w ++ [not_found n])).
Proof.
  intros Hf. pose proof (holds_no_file w Hf) as Hh.
  split.
  - now rewrite (update_leaderboard_spec w _ _ now n title author body url
                   Hh store_empty).
  - destruct (unknown_issue w _ _ n Hh store_empty) as [Hm Hr]; [tauto |].
    rewrite Hm, Hr. unfold printed. rewrite Hf. now split.
Qed.

Lemma without_a_file_witness :
  file new_world = None
  /\ submit 1 "95%" new_world
     = (Return true,
        World (Some (Json.dumps (store_of [entry 1 "95%"]))) 1
          ["Updated leaderboard with issue #1"])
  /\ mark_verified 1 new_world = (Return false, World None 0 [not_found 1])
  /\ remove_submission 1 new_world = (Return false, World None 0 [not_found 1]).
Proof.
  split; [reflexivity |].
  apply (without_a_file new_world example_time 1 "Submission" "ann"
           (body_accuracy "95%") example_url).
  reflexivity.
Defined.

(* ================================================================== *)
(** * The same answers, submitted again *)
(* ================================================================== *)

(** ** The sort looks at the keys alone *)

Lemma insert_desc_map {A B : Type} (f : A -> B) (x : Float.t * A)
      (l : list (Float.t * A)) :
  insert_desc (fst x, f (snd x)) (List.map (fun p => (fst p, f (snd p))) l)
  = List.map (fun p => (fst p, f (snd p))) (insert_desc x l).
Proof.
  induction l as [| y l IH]; cbn [List.map insert_desc fst]; [reflexivity |].
  destruct (Float.ltb (fst x) (fst y)); cbn [List.map]; [| reflexivity].
  now rewrite IH.
Qed.

Lemma sort_desc_map {A B : Type} (f : A -> B) (l : list (Float.t * A)) :
  sort_desc (List.map (fun p => (fst p, f (snd p))) l)
  = List.map (fun p => (fst p, f (snd p))) (sort_desc l).
Proof.
  unfold sort_desc. induction l as [| x l IH]; cbn [List.map fold_right];
    [reflexivity |].
  now rewrite IH, insert_desc_map.
Qed.

Lemma combine_map (g : value -> value) (l : list value) :
  Forall (fun x => rank_key (g x) = rank_key x) l ->
  combine (List.map rank_key (List.map g l)) (List.map g l)
  = List.map (fun p => (fst p, g (snd p))) (combine (List.map rank_key l) l).
Proof.
  induction 1 as [| x l Hx Hl IH]; cbn [List.map combine fst snd];
    [reflexivity |].
  now rewrite Hx, IH.
Qed.

Lemma sorted_by_accuracy_map (g : value -> value) (l : list value) :
  Forall (fun x => rank_key (g x) = rank_key x) l ->
  sorted_by_accuracy (List.map g l) = List.map g (sorted_by_accuracy l).
Proof.
  intros H. unfold sorted_by_accuracy.
  rewrite (combine_map g l H), sort_desc_map, !List.map_map.
  reflexivity.
Qed.

(** ** One entry for the issue *)

Lemma unique_entry (n : Z) (l : list value) (x y : value) :
  NoDup (issues l) -> In x l -> In y l ->
  issue_of x = Some n -> issue_of y = Some n -> x = y.
Proof.
  induction l as [| z l IH]; [intros _ [] |].
  intros Hnd Hx Hy Ex Ey.
  assert (Hz : forall v, In v l -> issue_of v = Some n -> issue_of z = Some n ->
                         False).
  { intros v Hv Ev Ez. rewrite (issues_cons z l n Ez) in Hnd.
    apply NoDup_cons_iff in Hnd as [Hnd _]. apply Hnd, in_issues. eauto. }
  assert (Hl : NoDup (issues l)).
  { change (z :: l) with ([z] ++ l)%list in Hnd. rewrite issues_app in Hnd.
    now apply NoDup_app_remove_l in Hnd. }
  destruct Hx as [-> | Hx], Hy as [-> | Hy]; try reflexivity.
  - exfalso. eapply Hz; eauto.
  - exfalso. eapply Hz; eauto.
  - now apply IH.
Qed.

(** The new entry in the place of the entry of the issue. *)
Lemma map_swap (n : Z) (x old : value) (l : list value) :
  NoDup (issues l) -> In old l -> has_issue n old = true ->
  List.map (fun sub => if has_issue n sub then x else sub) l
  = match index_from n 0 l with
    | Some i => Op.list_set l i x
    | None => l
    end.
Proof.
  intros Hnd Hin Ho.
  destruct (first_issue_split n l) as [(l1 & o & l2 & -> & Ho' & Hl1) | Hn].
  - rewrite (index_from_split n l1 l2 o Ho' Hl1 0). cbn [Nat.add].
    rewrite list_set_split, List.map_app. cbn [List.map]. rewrite Ho'.
    assert (Hsame : forall l', (forall y, In y l' -> has_issue n y = false) ->
              List.map (fun sub => if has_issue n sub then x else sub) l' = l').
    { induction l' as [| y l' IH]; cbn [List.map]; [reflexivity |].
      intros H. rewrite (H y (or_introl eq_refl)), IH; [reflexivity |].
      intros y' Hy'. apply H. now right. }
    rewrite !Hsame; [reflexivity | |].
    + intros y Hy. destruct (has_issue n y) eqn:E; [| reflexivity].
      exfalso. rewrite (issues_split n l1 l2 o Ho') in Hnd.
      apply NoDup_remove_2 in Hnd. apply Hnd, in_or_app. right.
      apply in_issues. exists y. split; [exact Hy | now apply has_issue_iff].
    + intros y Hy. rewrite forallb_forall in Hl1. specialize (Hl1 y Hy).
      unfold other_issue in Hl1. now destruct (has_issue n y).
  - exfalso. rewrite forallb_forall in Hn. specialize (Hn old Hin).
    unfold other_issue in Hn. now rewrite Ho in Hn.
Qed.

Section SameAnswers.
Variables (n : Z) (author body url : string).

Lemma rank_key_made (now1 now2 : string) (f1 f2 : value) :
  rank_key (made n author body url now1 f1)
  = rank_key (made n author body url now2 f2).
Proof.
  unfold made, rank_key, Dict.get_default.
  rewrite !dict_get_set_other by discriminate. reflexivity.
Qed.

Lemma carried_flag_made (now : string) (f : value) :
  carried_flag (made n author body url now f) = f.
Proof.
  unfold made, carried_flag, Dict.get_default. now rewrite dict_get_set_same.
Qed.

Lemma has_issue_made (now : string) (f : value) :
  has_issue n (made n author body url now f) = true.
Proof. apply has_issue_new. Qed.

(** On a collection that has the entry of an earlier call, the call
    puts its entry in that place. *)
Lemma merged_on_made (now1 now2 : string) (f : value) (l : list value) :
  NoDup (issues l) -> In (made n author body url now1 f) l ->
  merged now2 n author body url l
  = List.map
      (fun sub => if has_issue n sub then made n author body url now2 f
                  else sub)
      l.
Proof.
  intros Hnd Hin.
  rewrite (map_swap n (made n author body url now2 f)
             (made n author body url now1 f) l Hnd Hin
             (has_issue_made now1 f)).
  unfold merged.
  destruct (index_from n 0 l) as [i |] eqn:Ei.
  - destruct (index_from_some n l 0 i Ei) as (k & -> & Hk & Hi).
    cbn [Nat.add]. cbn [Nat.add] in Hi.
    assert (E : nth k l VNone = made n author body url now1 f).
    { apply (unique_entry n l); try assumption.
      - now apply nth_In.
      - now apply has_issue_iff.
      - apply has_issue_iff, has_issue_made. }
    now rewrite E, carried_flag_made.
  - exfalso. apply (index_from_none n l 0) in Ei.
    rewrite forallb_forall in Ei. specialize (Ei _ Hin).
    unfold other_issue in Ei. now rewrite has_issue_made in Ei.
Qed.

Lemma merged_has_made (now : string) (subs : list value) :
  In (made n author body url now (flag n subs)) (merged now n author body url subs).
Proof.
  unfold flag.
  destruct (merged_eq now n author body url subs)
    as [(l1 & old & l2 & -> & Ho & Hl & ->) | [Hn ->]].
  - rewrite (find_issue_split n l1 l2 old Ho Hl). apply in_elt.
  - rewrite (find_issue_none n subs Hn).
    apply in_or_app. right. left. reflexivity.
Qed.

Lemma merged_later (now1 now2 : string) (subs : list value) :
  NoDup (issues subs) ->
  merged now2 n author body url subs
  = List.map
      (fun sub => if has_issue n sub
                  then made n author body url now2 (flag n subs)
                  else sub)
      (merged now1 n author body url subs).
Proof.
  intros Hnd.
  pose proof (merged_issues now1 n author body url subs Hnd) as [Hnd1 _].
  rewrite (map_swap n _ _ _ Hnd1 (merged_has_made now1 subs)
             (has_issue_made now1 _)).
  unfold flag.
  destruct (merged_eq now1 n author body url subs)
    as [(l1 & old & l2 & -> & Ho & Hl & E1) | [Hn E1]]; rewrite E1.
  - rewrite (find_issue_split n l1 l2 old Ho Hl).
    rewrite (index_from_split n l1 l2 _ (has_issue_new _ _ _ _ _ _) Hl 0).
    cbn [Nat.add]. rewrite list_set_split.
    unfold merged. rewrite (index_from_split n l1 l2 old Ho Hl 0).
    cbn [Nat.add]. now rewrite nth_split, list_set_split.
  - rewrite (find_issue_none n subs Hn).
    assert (Hh : has_issue n (VDict (new_submission now1 n author url
                                       (parse_issue_body body))) = true).
    { rewrite <- new_submission_flag. apply has_issue_new. }
    rewrite (index_from_split n subs [] _ Hh Hn 0).
    cbn [Nat.add]. rewrite list_set_split.
    unfold merged. apply (index_from_none n subs 0) in Hn. now rewrite Hn.
Qed.

Lemma made_keeps_keys (now1 now2 : string) (f : value) (l : list value) :
  NoDup (issues l) -> In (made n author body url now1 f) l ->
  Forall (fun x => rank_key (if has_issue n x
                             then made n author body url now2 f else x)
                   = rank_key x) l.
Proof.
  intros Hnd Hin. apply Forall_forall. intros y Hy.
  destruct (has_issue n y) eqn:E; [| reflexivity].
  rewrite (unique_entry n l y (made n author body url now1 f) Hnd Hy Hin);
    [apply rank_key_made | now apply has_issue_iff |].
  apply has_issue_iff, has_issue_made.
Qed.

Lemma updated_again (now1 now2 : string) (subs : list value) :
  NoDup (issues subs) ->
  Forall numeric (merged now1 n author body url subs) ->
  updated now2 n author body url (updated now1 n author body url subs)
  = updated now2 n author body url subs.
Proof.
  intros Hnd Hnum.
  pose proof (merged_issues now1 n author body url subs Hnd) as [Hnd1 _].
  pose proof (updated_issues now1 n author body url subs Hnd) as [Hndu _].
  pose proof (merged_has_made now1 subs) as Hin1.
  assert (Hinu : In (made n author body url now1 (flag n subs))
                   (updated now1 n author body url subs)).
  { apply (Permutation_in _ (Permutation_sym (sorted_by_accuracy_perm _))).
    exact Hin1. }
  unfold updated at 1.
  rewrite (merged_on_made now1 now2 (flag n subs) _ Hndu Hinu).
  rewrite sorted_by_accuracy_map
    by exact (made_keeps_keys now1 now2 _ _ Hndu Hinu).
  rewrite (sorted_by_accuracy_fixed (updated now1 n author body url subs)).
  - unfold updated.
    rewrite <- sorted_by_accuracy_map
      by exact (made_keeps_keys now1 now2 _ _ Hnd1 Hin1).
    now rewrite <- (merged_later now1 now2 subs Hnd).
  - now apply sorted_numeric.
  - now apply sorted_by_accuracy_descending.
Qed.

End SameAnswers.

(** X20.  The same issue submitted again with the same answers: the
    file after the two updates is the file that the later update alone
    would have left, so the first has no effect but on the time
    written by the second.  (The issue numbers are distinct and the
    rank keys are numbers.) *)
Theorem same_answers_again
        (w : world) (lb : value) (subs : list value) (now1 now2 : string)
        (n : Z) (title author body url : string) :
  holds w lb ->
  store lb subs ->
  NoDup (issues subs) ->
  Forall numeric (merged now1 n author body url subs) ->
  exists w1 w2 w',
    update_leaderboard now1 n title author body url w = (Return true, w1)
    /\ update_leaderboard now2 n title author body url w1 = (Return true, w2)
    /\ update_leaderboard now2 n title author body url w = (Return true, w')
    /\ file w2 = file w'.
Proof.
  intros Hh Hs Hnd Hnum.
  pose proof (store_updated now1 n author body url lb subs Hs) as Hs1.
  pose proof (update_leaderboard_spec w lb subs now1 n title author body url
                Hh Hs) as H1.
  pose proof (update_leaderboard_spec _ _ _ now2 n title author body url
                (holds_saved w _ ("Updated leaderboard with issue #"
                                  ++ Py.repr_int n) (proj1 Hs1)) Hs1) as H2.
  pose proof (update_leaderboard_spec w lb subs now2 n title author body url
                Hh Hs) as H3.
  rewrite (updated_again n author body url now1 now2 subs Hnd Hnum),
    with_submissions_twice in H2.
  eexists _, _, _. split; [exact H1 |]. split; [exact H2 |].
  split; [exact H3 | reflexivity].
Qed.

Lemma same_answers_again_witness :
  holds (world_of one_entry) (store_of one_entry)
  /\ store (store_of one_entry) one_entry
  /\ NoDup (issues one_entry)
  /\ Forall numeric
       (merged example_time 2 "ann" (body_accuracy "0.5") example_url one_entry)
  /\ exists w1 w2 w',
      submit 2 "0.5" (world_of one_entry) = (Return true, w1)
      /\ update_leaderboard "2024-05-02T09:30:00" 2 "Submission" "ann"
           (body_accuracy "0.5") example_url w1
         = (Return true, w2)
      /\ update_leaderboard "2024-05-02T09:30:00" 2 "Submission" "ann"
           (body_accuracy "0.5") example_url (world_of one_entry)
         = (Return true, w')
      /\ file w2 = file w'.
Proof.
  split; [apply one_entry_holds |].
  split; [apply one_entry_store |].
  split; [apply one_entry_nodup |].
  split; [apply second_entry_numeric |].
  apply (same_answers_again (world_of one_entry) (store_of one_entry) one_entry
           example_time "2024-05-02T09:30:00" 2 "Submission" "ann"
           (body_accuracy "0.5") example_url
           one_entry_holds one_entry_store one_entry_nodup second_entry_numeric).
Defined.

(* ================================================================== *)
(** * What a run leaves can be loaded *)
(* ================================================================== *)

(** ** What [json.load] returns is a value with dictionaries *)











(** ** The operations keep it so *)

















(* ================================================================== *)
(** * The file is plain ASCII *)
(* ================================================================== *)

















